(** * spb-cli: the bulk label/data transfer commands

    A shallow embedding of [spb/cli_core/commands/label_data.py]: the three
    per-item task functions ([_upload_asset], [_update_label],
    [_download_worker]), the orchestrators ([upload_data], [upload_label],
    [download]), the count probe, the error-table merge and the paginated
    error reporter.

    Conventions of the embedding.
    - A Python [dict] with string keys is an insertion-ordered association
      list without duplicate keys (module [PyDict]).
    - A Python exception is a value of [exn]; code that may raise returns an
      [outcome]; effects (writes to the shared result mapping, remote calls,
      file writes, console output) are recorded in a trace, in program order
      (the monad [M]).
    - The remote client, the file system, HTTP, the keyboard and the logger
      configuration are collaborators of the module: they are fields of the
      record [World].
    - Counts are [Z].  The true division [/] of two integers is the
      correctly rounded binary64 quotient, also in the success ratios:
      [round(a/b*100, 2)] is the float quotient, its float product by a
      hundred, and the decimal with two places nearest to that product.
    - A worker pool runs its tasks in an order given by a schedule; when a
      task raises, the tasks after it, in item order, are stopped where the
      schedule left them. *)

From Equations Require Import Equations.
From Stdlib Require Import String Ascii List ZArith QArith Lia Bool Arith Permutation.
Import ListNotations.
Open Scope string_scope.
Open Scope list_scope.
Close Scope Q_scope.

Set Implicit Arguments.
Set Warnings "-register-all".

(** ** Python dictionaries *)

Module PyDict.

Section Dict.
Context {V : Type}.

Definition dict := list (string * V).

Definition keys (d : dict) : list string := map fst d.

(** [d.get(k)], [None] when the key is absent. *)
Fixpoint get (d : dict) (k : string) : option V :=
  match d with
  | [] => None
  | (k', v) :: d' => if String.eqb k k' then Some v else get d' k
  end.

(** [k in d] *)
Definition contains (d : dict) (k : string) : bool :=
  match get d k with Some _ => true | None => false end.

(** [d[k] = v]: an existing key keeps its position, a new key goes last. *)
Fixpoint set (d : dict) (k : string) (v : V) : dict :=
  match d with
  | [] => [(k, v)]
  | (k', v') :: d' =>
      if String.eqb k k' then (k', v) :: d' else (k', v') :: set d' k v
  end.

(** [del d[k]] for a key that is present. *)
Fixpoint del (d : dict) (k : string) : dict :=
  match d with
  | [] => []
  | (k', v') :: d' => if String.eqb k k' then d' else (k', v') :: del d' k
  end.

(** [d.update(e)] *)
Definition update (d e : dict) : dict :=
  fold_left (fun acc kv => set acc (fst kv) (snd kv)) e d.

(** [next(iter(d), None)] *)
Definition first_key (d : dict) : option string :=
  match d with
  | [] => None
  | (k, _) :: _ => Some k
  end.

(** Well-formed dictionaries hold each key once. *)
Definition wf (d : dict) : Prop := NoDup (keys d).

End Dict.

Arguments dict : clear implicits.

End PyDict.

Import PyDict.

(** ** Exceptions, outcomes and traces *)

(** A Python exception that derives from [Exception]: its class name and
    [str(e)]. *)
Record exn := Exc { exn_class : string; exn_str : string }.

Inductive outcome (A : Type) :=
| Ok (a : A)
| Raise (e : exn).
Arguments Ok {A} a.
Arguments Raise {A} e.

Definition raises {A} (o : outcome A) : bool :=
  match o with Raise _ => true | Ok _ => false end.

(** A computation: the effects it performed, in order, and how it ended. *)
Definition M (E A : Type) : Type := list E * outcome A.

Definition ret {E A} (a : A) : M E A := ([], Ok a).

Definition bind {E A B} (m : M E A) (f : A -> M E B) : M E B :=
  match m with
  | (t, Ok a) => let (t', r) := f a in (t ++ t', r)
  | (t, Raise e) => (t, Raise e)
  end.

Definition emit {E} (ev : E) : M E unit := ([ev], Ok tt).

Definition throw {E A} (e : exn) : M E A := ([], Raise e).

(** [try: m  except Exception as e: h e] *)
Definition try_except {E A} (m : M E A) (h : exn -> M E A) : M E A :=
  match m with
  | (t, Raise e) => let (t', r) := h e in (t ++ t', r)
  | (t, Ok a) => (t, Ok a)
  end.

Definition lift {E A} (o : outcome A) : M E A := ([], o).

Definition trace {E A} (m : M E A) : list E := fst m.
Definition outcome_of {E A} (m : M E A) : outcome A := snd m.

(** [for x in l: body x] *)
Fixpoint for_each {E A} (l : list A) (body : A -> M E unit) : M E unit :=
  match l with
  | [] => ret tt
  | x :: l' => bind (body x) (fun _ => for_each l' body)
  end.

Declare Scope py_scope.
Delimit Scope py_scope with py.
Notation "x <- c1 ;; c2" := (bind c1 (fun x => c2))
  (at level 61, c1 at next level, right associativity) : py_scope.
Notation "c1 ;; c2" := (bind c1 (fun _ => c2))
  (at level 61, right associativity) : py_scope.
Open Scope py_scope.

(** ** Integer true division *)

(** A finite binary64 number: the value [fst x * 2 ^ snd x]. *)
Definition float := (Z * Z)%type.

(** [n / d] rounded to the nearest integer, ties to even ([0 < d]). *)
Definition round_half_even_div (n d : Z) : Z :=
  let f := (n / d)%Z in
  let r := (n mod d)%Z in
  match (2 * r ?= d)%Z with
  | Lt => f
  | Gt => (f + 1)%Z
  | Eq => if Z.even f then f else (f + 1)%Z
  end.

(** The binary64 number nearest to [a / b], ties to even, for [0 <= a] and
    [0 < b]: the exponent [e] is the one for which [a / (b * 2^e)] lies in
    [[2^52, 2^53)], and not below the least exponent -1074. *)
Definition nearest_double (a b : Z) : float :=
  (if a =? 0 then (0, 0)
   else
     let d := Z.log2 a - Z.log2 b in
     let e := if b * 2 ^ Z.max 0 d <=? a * 2 ^ Z.max 0 (- d)
              then d - 52 else d - 53 in
     let e := Z.max e (-1074) in
     (round_half_even_div (a * 2 ^ Z.max 0 (- e)) (b * 2 ^ Z.max 0 e), e))%Z.

(** [a / b] on integers: the correctly rounded binary64 quotient. *)
Definition py_truediv_float (a b : Z) : outcome float :=
  (if b =? 0 then Raise (Exc "ZeroDivisionError" "division by zero")
   else
     let (m, e) := nearest_double (Z.abs a) (Z.abs b) in
     if negb (m =? 0) && (1024 <=? Z.log2 m + e)
     then Raise (Exc "OverflowError" "integer division result too large for a float")
     else Ok (Z.sgn a * Z.sgn b * m, e))%Z.

(** [int(x)]: truncation toward zero. *)
Definition py_int (x : float) : Z :=
  let (m, e) := x in
  (if 0 <=? e then m * 2 ^ e else Z.quot m (2 ^ (- e)))%Z.

(** [math.ceil(x)] *)
Definition py_ceil (x : float) : Z :=
  let (m, e) := x in
  (if 0 <=? e then m * 2 ^ e else - ((- m) / 2 ^ (- e)))%Z.

(** ** Pagination arithmetic *)

Definition NUM_MULTI_PROCESS : Z := 4.
Definition LABEL_DESCRIBE_PAGE_SIZE : Z := 10.

(** [int(a / b)] *)
Definition int_truediv (a b : Z) : outcome Z :=
  match py_truediv_float a b with
  | Ok x => Ok (py_int x)
  | Raise e => Raise e
  end.

(** Line 114 of [download]:
    [int(label_count/P) if label_count % P == 0 else int(label_count/P)+1]. *)
Definition page_length (label_count : Z) : outcome Z :=
  if (label_count mod LABEL_DESCRIBE_PAGE_SIZE =? 0)%Z
  then int_truediv label_count LABEL_DESCRIBE_PAGE_SIZE
  else match int_truediv label_count LABEL_DESCRIBE_PAGE_SIZE with
       | Ok q => Ok (q + 1)%Z
       | Raise e => Raise e
       end.

(** The number of page tasks [download] dispatches: the pool is only built
    under [if label_count != 0]. *)
Definition dispatched_pages (label_count : Z) : outcome Z :=
  if negb (label_count =? 0)%Z then page_length label_count else Ok 0%Z.

(** [ceil(total / P)] characterised as in the specification: the least
    number of pages of size [P] that hold [total] items. *)
Definition is_ceil_div (total P pages : Z) : Prop :=
  (P * (pages - 1) < total <= P * pages)%Z.

(** ** Strings and paths *)

(** [s.split(sep)] for a one-character separator. *)
Fixpoint py_split (sep : ascii) (s : string) : list string :=
  match s with
  | EmptyString => [EmptyString]
  | String c r =>
      if Ascii.eqb c sep then EmptyString :: py_split sep r
      else match py_split sep r with
           | [] => [String c EmptyString]
           | h :: t => String c h :: t
           end
  end.

(** [sep.join(l)] *)
Definition py_join (sep : string) (l : list string) : string :=
  String.concat sep l.

(** [c in s] for a character [c]. *)
Fixpoint has_char (c : ascii) (s : string) : bool :=
  match s with
  | EmptyString => false
  | String a r => Ascii.eqb a c || has_char c r
  end.

(** [s.startswith(p)] *)
Definition startswith (s p : string) : bool := String.prefix p s.

(** [s[1:]] *)
Definition slice_from_1 (s : string) : string :=
  match s with
  | EmptyString => EmptyString
  | String _ r => r
  end.

(** [s.endswith('/')] *)
Fixpoint endswith_sep (s : string) : bool :=
  match s with
  | EmptyString => false
  | String c EmptyString => Ascii.eqb c "/"
  | String _ r => endswith_sep r
  end.

(** [os.path.join(a, b)] of [posixpath]. *)
Definition os_path_join (a b : string) : string :=
  if startswith b "/" then b
  else if (String.eqb a "" || endswith_sep a)%bool then (a ++ b)%string
  else (a ++ "/" ++ b)%string.

(** [".".join(label_path.split(".")[:-1])] (line 254). *)
Definition strip_extension (label_path : string) : string :=
  py_join "." (removelast (py_split "." label_path)).

(** ** Data model *)

(** Parsed JSON ([json.load]); an object is a Python [dict]. *)
Inductive json :=
| JNull
| JBool (b : bool)
| JNum (literal : string)
| JStr (s : string)
| JArr (items : list json)
| JObj (members : dict json).

Definition is_None (j : json) : bool :=
  match j with JNull => true | _ => false end.

(** The Python type of a parsed JSON number: [json.load] gives a [float]
    to a literal with a fraction or an exponent, and to [NaN] and
    [Infinity]; any other literal is an [int]. *)
Definition number_type (literal : string) : string :=
  if has_char "."%char literal || has_char "e"%char literal
     || has_char "E"%char literal || has_char "N"%char literal
     || has_char "I"%char literal
  then "float" else "int".

(** [json_data[key]] for a string key. *)
Definition py_getitem (json_data : json) (key : string) : outcome json :=
  match json_data with
  | JObj d =>
      match get d key with
      | Some v => Ok v
      | None => Raise (Exc "KeyError" ("'" ++ key ++ "'"))
      end
  | JArr _ => Raise (Exc "TypeError" "list indices must be integers or slices, not str")
  | JStr _ => Raise (Exc "TypeError" "string indices must be integers, not 'str'")
  | JNum literal =>
      Raise (Exc "TypeError"
               ("'" ++ number_type literal ++ "' object is not subscriptable"))
  | JBool _ => Raise (Exc "TypeError" "'bool' object is not subscriptable")
  | JNull => Raise (Exc "TypeError" "'NoneType' object is not subscriptable")
  end.

Definition is_substring (p s : string) : bool :=
  match String.index 0 p s with Some _ => true | None => false end.

(** [key in json_data] for a string key. *)
Definition py_in (key : string) (json_data : json) : outcome bool :=
  match json_data with
  | JObj d => Ok (contains d key)
  | JArr l =>
      Ok (existsb (fun x => match x with JStr s => String.eqb s key | _ => false end) l)
  | JStr s => Ok (is_substring key s)
  | JNum literal =>
      Raise (Exc "TypeError"
               ("argument of type '" ++ number_type literal ++ "' is not iterable"))
  | JBool _ => Raise (Exc "TypeError" "argument of type 'bool' is not iterable")
  | JNull => Raise (Exc "TypeError" "argument of type 'NoneType' is not iterable")
  end.

(** A tag of a remote label exposes its data form ([tag.get_datas(tag)]). *)
Record Tag := { get_datas : json }.

(** The fields of [spb.models.label.Label] this module reads; [label_tags]
    is [None] when the remote record carries no tag list. *)
Record Label := {
  label_id : string;
  label_dataset : string;
  label_data_key : string;
  label_data_url : string;
  label_result : json;
  label_tags : option (list Tag)
}.

(** The [option] mapping of a [describe_label] command. *)
Record describe_option := {
  opt_project_id : string;
  opt_dataset : option string;
  opt_data_key : option string
}.

(** The [asset_image] descriptor of [upload_data] (lines 38-43). *)
Record asset := {
  asset_file : string;
  asset_file_name : string;
  asset_data_key : string;
  asset_dataset : string
}.

(** The update payload of [_update_label] (lines 278-283). *)
Record label_update := {
  upd_id : string;
  upd_project_id : string;
  upd_tags : json;
  upd_result : json
}.

Record Project := { project_id : string; project_name : string }.

(** What a task stores in the shared result mapping: a message
    ([_set_error_result]) or the per-label error mapping of
    [_download_worker]. *)
Inductive value :=
| VStr (s : string)
| VDict (d : dict string).

(** The two hexadecimal digits of a character code. *)
Definition hex_digit (n : nat) : ascii :=
  ascii_of_nat (if (n <? 10)%nat then 48 + n else 87 + n).

Definition hex2 (c : ascii) : string :=
  String (hex_digit (nat_of_ascii c / 16))
    (String (hex_digit (nat_of_ascii c mod 16)) EmptyString).

(** A character inside [repr(s)] when [quote] delimits it: the backslash,
    the delimiter and the ASCII control characters are escaped. *)
Definition backslash : ascii := "092"%char.

Definition escaped (c : ascii) : string := String backslash (String c EmptyString).

Definition repr_char (quote c : ascii) : string :=
  if Ascii.eqb c backslash then escaped backslash
  else if Ascii.eqb c quote then escaped quote
  else if Ascii.eqb c "010"%char then escaped "n"%char
  else if Ascii.eqb c "013"%char then escaped "r"%char
  else if Ascii.eqb c "009"%char then escaped "t"%char
  else if (nat_of_ascii c <? 32)%nat || (nat_of_ascii c =? 127)%nat
       then (escaped "x"%char ++ hex2 c)%string
  else String c EmptyString.

Fixpoint repr_body (quote : ascii) (s : string) : string :=
  match s with
  | EmptyString => EmptyString
  | String c r => (repr_char quote c ++ repr_body quote r)%string
  end.

(** [repr(s)] of a string: delimited by double quotes when [s] holds an
    apostrophe and no double quote, by apostrophes otherwise. *)
Definition py_repr (s : string) : string :=
  let quote : ascii :=
    if has_char "'"%char s && negb (has_char "034"%char s)
    then "034"%char else "'"%char in
  String quote (repr_body quote s ++ String quote EmptyString).

(** [str(d)] of a mapping from strings to strings. *)
Definition py_str_dict (d : dict string) : string :=
  ("{" ++ String.concat ", "
            (map (fun kv => py_repr (fst kv) ++ ": " ++ py_repr (snd kv)) d)
       ++ "}")%string.

Definition py_str (v : value) : string :=
  match v with
  | VStr s => s
  | VDict d => py_str_dict d
  end.

(** Truth value of a stored object. *)
Definition truthy (v : value) : bool :=
  match v with
  | VStr s => negb (String.eqb s "")
  | VDict d => negb (Nat.eqb (length d) 0)
  end.

(** ** The collaborators *)

Record World := {
  (** [os.path.isfile] *)
  isfile : string -> bool;
  (** [spb.run] for the three command kinds *)
  run_create_data : asset -> string -> outcome unit;
  run_describe_label :
    describe_option -> Z -> Z -> outcome (list (option Label) * Z);
  run_update_label : label_update -> outcome Label;
  (** [json.load(open(path))] *)
  json_load : string -> outcome json;
  (** [open(path, 'w').write(text)] and [open(path, 'wb').write(bytes)] *)
  write_text : string -> string -> outcome unit;
  write_bytes : string -> string -> outcome unit;
  (** [requests.get(url, allow_redirects=True).content] *)
  http_get : string -> outcome string;
  (** [os.makedirs(os.path.dirname(path), exist_ok=True)], by [path] *)
  makedirs_parent : string -> outcome unit;
  (** [label.toJson()] *)
  toJson : Label -> string;
  (** [recursive_glob_image_files] and [recursive_glob_label_files]; of the
      latter only the length and the iteration order are used *)
  recursive_glob_image_files : string -> dict string;
  recursive_glob_label_files : string -> list string;
  (** the operator: [click.confirm] and the n-th [click.getchar] *)
  confirm : bool;
  getchar : nat -> ascii;
  (** [logger.isEnabledFor(WARNING)] of the root logger *)
  warning_enabled : bool;
  (** [baseFilename] of the first handler of the two loggers *)
  simple_log_file : string;
  log_file : string
}.

(** ** Effects *)

(** A shared mapping of the [Manager] is known by its identity. *)
Definition handle := nat.

(** The [result] argument of [_set_error_result]: the shared mapping handed
    to the task, or a mapping local to the task ([_ = dict()]). *)
Inductive dictref :=
| Shared (r : handle)
| Local.

Inductive call :=
| CreateData (asset_image : asset) (projectId : string)
| DescribeLabel (option : describe_option) (page_size page : Z)
| UpdateLabel (label : label_update)
| JsonLoad (path : string)
| WriteText (path text : string)
| WriteBytes (path content : string)
| HttpGet (url : string)
| MakeDirs (path : string).

Inductive event :=
| SetItem (r : handle) (key : string) (v : value)
| LogError (key message : string)
| LogDebug (message : string)
| LogWarning (message : string)
| Call (c : call)
| Print (text : string)
| SummaryLine (what : string) (success total : Z) (ratio : Q) (errors : nat)
| PrintTable (columns : list string) (rows : list (list string))
| Prompt (page page_length : nat)
| ConsoleLog (text : string).

Definition Task (A : Type) := M event A.

Definition call_create_data (w : World) (a : asset) (pid : string) : Task unit :=
  ([Call (CreateData a pid)], run_create_data w a pid).

Definition call_describe_label (w : World) (o : describe_option) (page_size page : Z)
  : Task (list (option Label) * Z) :=
  ([Call (DescribeLabel o page_size page)], run_describe_label w o page_size page).

Definition call_update_label (w : World) (l : label_update) : Task Label :=
  ([Call (UpdateLabel l)], run_update_label w l).

Definition call_json_load (w : World) (path : string) : Task json :=
  ([Call (JsonLoad path)], json_load w path).

Definition call_write_text (w : World) (path text : string) : Task unit :=
  ([Call (WriteText path text)], write_text w path text).

Definition call_write_bytes (w : World) (path content : string) : Task unit :=
  ([Call (WriteBytes path content)], write_bytes w path content).

Definition call_http_get (w : World) (url : string) : Task string :=
  ([Call (HttpGet url)], http_get w url).

Definition call_makedirs (w : World) (path : string) : Task unit :=
  ([Call (MakeDirs path)], makedirs_parent w path).

(** ** Per-item task functions *)

(** [_set_error_result(key, result, message, exception=None)] (lines
    301-303).  A write to a mapping local to the task is not observable. *)
Definition _set_error_result (key : string) (res : dictref) (message : string)
  : Task unit :=
  match res with
  | Shared r => emit (SetItem r key (VStr message))
  | Local => ret tt
  end ;;
  emit (LogError key message).

(** [_upload_asset(args)] with [args = [project_id, asset_image, result]]
    (lines 240-249). *)
Definition _upload_asset (w : World) (project_id : string) (asset_image : asset)
    (res : handle) : Task unit :=
  emit (LogDebug "Uploading Asset") ;;
  try_except
    (call_create_data w asset_image project_id)
    (fun e =>
       _set_error_result (asset_data_key asset_image) (Shared res) (exn_str e)).

(** The test of line 271, against [option['data_key']] and
    [option['dataset']]. *)
Definition identity_mismatch (described_label : Label)
    (data_key dataset : string) : bool :=
  negb (String.eqb (label_data_key described_label) data_key)
  && negb (String.eqb (label_dataset described_label) dataset).

(** [described_labels[0] if described_labels and described_labels[0] else None]
    (line 267). *)
Definition first_described (described_labels : list (option Label)) : option Label :=
  match described_labels with
  | Some l :: _ => Some l
  | _ => None
  end.

(** Lines 264-276 of [_update_label]: the first guarded block.  [None] is
    the task returning from inside the block or its handler. *)
Definition describe_and_check (w : World) (data_key project_id dataset : string)
    (res : handle) : Task (option Label) :=
  let option := {| opt_project_id := project_id;
                   opt_dataset := Some dataset;
                   opt_data_key := Some data_key |} in
  try_except
    (r <- call_describe_label w option 1 1 ;;
     match first_described (fst r) with
     | None =>
         _set_error_result data_key (Shared res) "Label cannot be described." ;;
         ret None
     | Some described_label =>
         if identity_mismatch described_label data_key dataset
         then
           _set_error_result data_key (Shared res)
             "Described label does not match to upload." ;;
           ret None
         else ret (Some described_label)
     end)
    (fun e => _set_error_result data_key (Shared res) (exn_str e) ;; ret None).

(** Lines 278-283: the payload seeded from the remote label, outside both
    guarded blocks.  Iterating [described_label.tags] raises when the
    record carries no tag list; the attribute reads [id] and [result] and
    the call [tag.get_datas(tag)] of the [spb.models] classes are taken to
    return. *)
Definition seed_payload (project_id : string) (described_label : Label)
  : Task label_update :=
  match label_tags described_label with
  | None => throw (Exc "TypeError" "'NoneType' object is not iterable")
  | Some tags =>
      ret {| upd_id := label_id described_label;
             upd_project_id := project_id;
             upd_tags := JArr (map get_datas tags);
             upd_result := label_result described_label |}
  end.

(** Lines 284-299: the second guarded block. *)
Definition sync_local_file (w : World) (label_path data_key : string)
    (label : label_update) (res : handle) : Task unit :=
  try_except
    (json_data <- call_json_load w label_path ;;
     r <- lift (py_getitem json_data "result") ;;
     if is_None r then ret tt
     else
       has_result <- lift (py_in "result" json_data) ;;
       label <- (if has_result : bool
                 then v <- lift (py_getitem json_data "result") ;;
                      ret {| upd_id := upd_id label;
                             upd_project_id := upd_project_id label;
                             upd_tags := upd_tags label;
                             upd_result := v |}
                 else ret label) ;;
       has_tags <- lift (py_in "tags" json_data) ;;
       label <- (if has_tags : bool
                 then v <- lift (py_getitem json_data "tags") ;;
                      ret {| upd_id := upd_id label;
                             upd_project_id := upd_project_id label;
                             upd_tags := v;
                             upd_result := upd_result label |}
                 else ret label) ;;
       updated <- call_update_label w label ;;
       call_write_text w label_path (toJson w updated))
    (fun e => _set_error_result data_key (Shared res) (exn_str e)).

(** [_update_label(args)] with
    [args = [label_path, project_id, dataset, result]] (lines 252-299). *)
Definition _update_label (w : World) (label_path project_id dataset : string)
    (res : handle) : Task unit :=
  let data_key := strip_extension label_path in
  if negb (isfile w label_path) then
    _set_error_result data_key (Shared res) "Label json file is not existed."
  else
    checked <- describe_and_check w data_key project_id dataset res ;;
    match checked with
    | None => ret tt
    | Some described_label =>
        label <- seed_payload project_id described_label ;;
        sync_local_file w label_path data_key label res
    end.

(** Lines 213-237 of [_download_worker]: the two guarded writes of one
    label and the record of their faults.  [label_error] and [data_error]
    are the same object as [error] once assigned, so they are kept as
    flags. *)
Definition download_pair (w : World) (path : string) (res : handle)
    (label : Label) : Task unit :=
  s1 <- try_except
          (call_write_text w (path ++ ".json")%string (toJson w label) ;;
           ret ([], false))
          (fun e => ret ([("label", exn_str e)], true)) ;;
  let error : dict string := fst s1 in
  let label_error : bool := snd s1 in
  s2 <- try_except
          (content <- call_http_get w (label_data_url label) ;;
           call_write_bytes w path content ;;
           ret (error, false))
          (fun e => ret (update error [("data", exn_str e)], true)) ;;
  let error : dict string := fst s2 in
  let data_error : bool := snd s2 in
  let key := (label_dataset label ++ "/" ++ label_data_key label)%string in
  if (0 <? length error)%nat then
    emit (SetItem res key (VDict error)) ;;
    (if label_error && truthy (VDict error)
     then _set_error_result key Local (py_str_dict error)
     else ret tt) ;;
    (if data_error && truthy (VDict error)
     then _set_error_result key Local (py_str_dict error)
     else ret tt)
  else ret tt.

(** The body of the [for label in labels] loop of [_download_worker]
    (lines 209-237). *)
Definition download_label (w : World) (directory_path : string) (res : handle)
    (label : Label) : Task unit :=
  let path :=
    if startswith (label_data_key label) "/"
    then os_path_join (label_dataset label) (slice_from_1 (label_data_key label))
    else os_path_join (label_dataset label) (label_data_key label) in
  let path := os_path_join directory_path path in
  call_makedirs w path ;;
  download_pair w path res label.

(** [_download_worker(args)] with
    [args = [project_id, page_idx, directory_path, result]] (lines 202-237).
    For an element of the page that is [None], line 210 first reads
    [label.data_key]. *)
Definition _download_worker (w : World) (project_id : string) (page_idx : Z)
    (directory_path : string) (res : handle) : Task unit :=
  r <- call_describe_label w
         {| opt_project_id := project_id; opt_dataset := None; opt_data_key := None |}
         LABEL_DESCRIBE_PAGE_SIZE (page_idx + 1)%Z ;;
  for_each (fst r)
    (fun label =>
       match label with
       | None => throw (Exc "AttributeError" "'NoneType' object has no attribute 'data_key'")
       | Some label => download_label w directory_path res label
       end).

(** ** The manager's shared mappings and the worker pool *)

(** The objects of the [Manager], by identity, and the next free identity. *)
Record heap := { objs : handle -> dict value; next : handle }.

Definition empty_heap : heap := {| objs := fun _ => []; next := 0 |}.

(** [manager.dict()] (and a fresh [{}]): a new, empty mapping. *)
Definition manager_dict (h : heap) : handle * heap :=
  (next h,
   {| objs := fun r => if Nat.eqb r (next h) then [] else objs h r;
      next := S (next h) |}).

(** [proxy[key] = v] *)
Definition setitem (h : heap) (r : handle) (key : string) (v : value) : heap :=
  {| objs := fun r' => if Nat.eqb r' r then set (objs h r) key v else objs h r';
     next := next h |}.

(** The effect of a trace on the shared mappings. *)
Definition replay (tr : list event) (h : heap) : heap :=
  fold_left
    (fun h ev => match ev with SetItem r key v => setitem h r key v | _ => h end)
    tr h.

(** [[x] * n] *)
Definition py_repeat {A} (x : A) (n : Z) : list A := repeat x (Z.to_nat n).

(** [range(n)] *)
Definition py_range (n : Z) : list Z := map Z.of_nat (seq 0 (Z.to_nat n)).

(** [l[0]] *)
Definition py_index0 {A} (l : list A) : outcome A :=
  match l with
  | x :: _ => Ok x
  | [] => Raise (Exc "IndexError" "list index out of range")
  end.

(** The next event of worker [i], when it has one left. *)
Fixpoint take_event (i : nat) (ts : list (list event))
  : option (event * list (list event)) :=
  match ts, i with
  | [], _ => None
  | [] :: _, 0 => None
  | (ev :: t) :: ts', 0 => Some (ev, t :: ts')
  | t :: ts', S i' =>
      match take_event i' ts' with
      | Some (ev, ts'') => Some (ev, t :: ts'')
      | None => None
      end
  end.

(** The events the schedule picks, in order, and what each worker has left
    to do when the schedule is used up. *)
Fixpoint run_schedule (sched : list nat) (ts : list (list event))
  : list event * list (list event) :=
  match sched with
  | [] => ([], ts)
  | i :: sched' =>
      match take_event i ts with
      | Some (ev, ts') =>
          (ev :: fst (run_schedule sched' ts'), snd (run_schedule sched' ts'))
      | None => run_schedule sched' ts
      end
  end.

(** The workers' events in the order the schedule picks them, for a pool
    that is joined: when the schedule is used up every worker runs to its
    end. *)
Fixpoint interleave (sched : list nat) (ts : list (list event)) : list event :=
  match sched with
  | [] => concat ts
  | i :: sched' =>
      match take_event i ts with
      | Some (ev, ts') => ev :: interleave sched' ts'
      | None => interleave sched' ts
      end
  end.

(** What iterating the [imap] results re-raises: the fault of the first
    item, in item order, whose task raised. *)
Fixpoint first_raise (outs : list (outcome unit)) : outcome unit :=
  match outs with
  | [] => Ok tt
  | Ok _ :: outs' => first_raise outs'
  | Raise e :: _ => Raise e
  end.

(** The number of items whose result the parent takes from [imap], in item
    order: all of them, or those up to the first whose task raised. *)
Fixpoint received (outs : list (outcome unit)) : nat :=
  match outs with
  | [] => 0
  | Ok _ :: outs' => S (received outs')
  | Raise _ :: _ => 1
  end.

(** [with Pool(NUM_MULTI_PROCESS) as p: list(tqdm.tqdm(p.imap(f, items)))],
    each task given as the run of [f] on its item.  The parent takes the
    results in item order, so a task whose result it takes has run to its
    end; iterating re-raises the fault of the first task that raised, and
    leaving the [with] block then stops the later workers where the
    schedule left them. *)
Definition pool_imap (sched : list nat) (tasks : list (Task unit)) : Task unit :=
  let run := run_schedule sched (map trace tasks) in
  (fst run ++ concat (firstn (received (map outcome_of tasks)) (snd run)),
   first_raise (map outcome_of tasks)).

(** [list(tqdm.tqdm(results, total=total))]: [list] first asks the progress
    bar for its length, which is [total]. *)
Definition tqdm_list (total : Z) (results : Task unit) : Task unit :=
  if (total <? 0)%Z
  then throw (Exc "ValueError" "__len__() should return >= 0")
  else results.

(** ** Success ratios *)

(** [x * k] for a float [x] and an integer [k]: the binary64 number nearest
    to the exact product (a product beyond the largest float is kept
    finite). *)
Definition float_mul_int (x : float) (k : Z) : float :=
  let (m, e) := x in
  let (m', e') := nearest_double (Z.abs m * Z.abs k * 2 ^ Z.max 0 e)
                                 (2 ^ Z.max 0 (- e)) in
  (Z.sgn m * Z.sgn k * m', e')%Z.

(** [round(x, 2)]: the float nearest to the decimal with two places that
    is nearest to the exact value of [x], ties to even; it is given as that
    decimal, in lowest terms. *)
Definition py_round2 (x : float) : Q :=
  let (m, e) := x in
  Qred (inject_Z (round_half_even_div (m * 100 * 2 ^ Z.max 0 e)
                                      (2 ^ Z.max 0 (- e))) / 100)%Q.

(** [round(success/total*100, 2)] *)
Definition percentage (success total : Z) : outcome Q :=
  match py_truediv_float success total with
  | Ok q => Ok (py_round2 (float_mul_int q 100))
  | Raise e => Raise e
  end.

Definition len {A} (l : list A) : Z := Z.of_nat (length l).

(** ** The merged error table and its reporter *)

(** A row of the merged table: [{'data': ..., 'label': ...}], [None] for a
    sub-error that is empty. *)
Record row := { row_data : option value; row_label : option value }.

(** Lines 148-151: the row a key of [data_results] starts with. *)
Definition data_step (results : dict row) (kv : string * value) : dict row :=
  set results (fst kv) {| row_data := Some (snd kv); row_label := None |}.

(** Lines 153-157: a key of [label_results] completes its row or starts
    one. *)
Definition label_step (results : dict row) (kv : string * value) : dict row :=
  match get results (fst kv) with
  | Some r =>
      set results (fst kv) {| row_data := row_data r; row_label := Some (snd kv) |}
  | None =>
      set results (fst kv) {| row_data := None; row_label := Some (snd kv) |}
  end.

(** Lines 145-157 of [_print_error_table]; an argument that is not a
    mapping is [None]. *)
Definition merge_errors (data_results label_results : option (dict value))
  : dict row :=
  let results : dict row := [] in
  let results :=
    match data_results with
    | Some data_results => fold_left data_step data_results results
    | None => results
    end in
  match label_results with
  | Some label_results => fold_left label_step label_results results
  | None => results
  end.

(** The data sub-error of a key of the table, if it has a row. *)
Definition data_of (results : dict row) (k : string) : option value :=
  match get results k with Some r => row_data r | None => None end.

(** [not key] for [key = next(iter(results), None)]. *)
Definition not_key (key : option string) : bool :=
  match key with
  | None => true
  | Some k => String.eqb k ""
  end.

(** [f"{x if x else '-'}"] *)
Definition cell (x : option value) : string :=
  match x with
  | Some v => if truthy v then py_str v else "-"
  | None => "-"
  end.

Definition table_columns (is_data is_label : bool) : list string :=
  ["FILE NAME"] ++ (if is_data then ["DATA UPLOAD"] else [])
                ++ (if is_label then ["LABEL UPLOAD"] else []).

(** Lines 176-185: the row added for [key]. *)
Definition table_row (is_data is_label : bool) (key : string) (r : row)
  : list string :=
  if is_data && is_label then [key; cell (row_data r); cell (row_label r)]
  else if is_data then [key; cell (row_data r)]
  else [key; cell (row_label r)].

(** Lines 172-186: [for _ in range(n)], taking the first key each time and
    deleting it; gives the rows added and the mapping that is left. *)
Fixpoint fill_page (n : nat) (is_data is_label : bool) (results : dict row)
  : list (list string) * dict row :=
  match n with
  | 0 => ([], results)
  | S n' =>
      match results with
      | [] => ([], results)
      | (key, r) :: _ =>
          if not_key (Some key) then ([], results)
          else
            let (rows, rest) := fill_page n' is_data is_label (del results key) in
            (table_row is_data is_label key r :: rows, rest)
      end
  end.

(** [key=='q' or key=='Q'] *)
Definition is_quit (key : ascii) : bool :=
  Ascii.eqb key "q" || Ascii.eqb key "Q".

(** [math.ceil(n/10)] for a length [n]; the quotient of a length by ten is
    never too large for a float. *)
Definition ceil_tenth (n : nat) : nat :=
  match py_truediv_float (Z.of_nat n) 10 with
  | Ok x => Z.to_nat (py_ceil x)
  | Raise _ => 0
  end.

Definition inspect {A} (a : A) : {b : A | a = b} := exist _ a eq_refl.

(** Lines 164-195: the [while True] loop.  [page] is never advanced by the
    source; [asked] counts the keys read so far. *)
Equations? error_pages (w : World) (is_data is_label : bool)
    (page page_length asked : nat) (results : dict row)
  : list event by wf (length results) lt :=
error_pages w is_data is_label page page_length asked results
  with inspect (not_key (first_key (snd (fill_page 10 is_data is_label results)))) := {
  | exist _ true _ =>
      [PrintTable (table_columns is_data is_label)
                  (fst (fill_page 10 is_data is_label results))];
  | exist _ false Hmore =>
      PrintTable (table_columns is_data is_label)
                 (fst (fill_page 10 is_data is_label results))
      :: Prompt page page_length
      :: (if is_quit (getchar w asked) then []
          else error_pages w is_data is_label page page_length (S asked)
                 (snd (fill_page 10 is_data is_label results))) }.
Proof.
  assert (Hle : forall n rs,
             length (snd (fill_page n is_data is_label rs)) <= length rs).
  { induction n as [|n IH]; intros rs; simpl; [lia|].
    destruct rs as [|[k r] rs]; simpl; [lia|].
    destruct (String.eqb k ""); simpl; [lia|].
    rewrite String.eqb_refl.
    specialize (IH rs).
    destruct (fill_page n is_data is_label rs); simpl in *. lia. }
  assert (Hlt : forall n rs,
             not_key (first_key (snd (fill_page (S n) is_data is_label rs))) = false ->
             length (snd (fill_page (S n) is_data is_label rs)) < length rs).
  { intros n rs. destruct rs as [|[k r] rs]; simpl; [discriminate|].
    destruct (String.eqb k "") eqn:Hk; simpl.
    - rewrite Hk. discriminate.
    - rewrite String.eqb_refl. intros _.
      specialize (Hle n rs).
      destruct (fill_page n is_data is_label rs); simpl in *. lia. }
  apply (Hlt 9 results). exact Hmore.
Qed.

(** [_print_error_table(self, data_results=None, label_results=None)]
    (lines 144-198). *)
Definition _print_error_table (w : World)
    (data_results label_results : option (dict value)) : Task unit :=
  let results := merge_errors data_results label_results in
  if not_key (first_key results) then ret tt
  else
    let is_data := match data_results with Some _ => true | None => false end in
    let is_label := match label_results with Some _ => true | None => false end in
    emit (Print "** Error Table **") ;;
    (error_pages w is_data is_label 1 (ceil_tenth (length results)) 0 results, Ok tt) ;;
    emit (ConsoleLog "Check the log file for more details") ;;
    emit (ConsoleLog ("- " ++ simple_log_file w)%string) ;;
    emit (ConsoleLog ("- " ++ log_file w)%string).

(** ** The count probe *)

(** The keyword parameters of [logging.Logger._log]. *)
Definition Logger__log_keywords : list string :=
  ["exc_info"; "extra"; "stack_info"; "stacklevel"].

(** [logger.warning(msg, **kwargs)] of the standard library:
    [if self.isEnabledFor(WARNING): self._log(WARNING, msg, args, **kwargs)];
    [_log] refuses a keyword it does not declare. *)
Definition logger_warning (w : World) (msg : string) (kwargs : list string)
  : Task unit :=
  if warning_enabled w then
    match filter (fun k => negb (existsb (String.eqb k) Logger__log_keywords)) kwargs with
    | [] => emit (LogWarning msg)
    | k :: _ =>
        throw (Exc "TypeError"
                 ("Logger._log() got an unexpected keyword argument '" ++ k ++ "'"))
    end
  else ret tt.

(** [LabelData._count_labels] (lines 96-108). *)
Definition _count_labels (w : World) (project_id : string) : Task Z :=
  try_except
    (r <- call_describe_label w
            {| opt_project_id := project_id; opt_dataset := None; opt_data_key := None |}
            1 1 ;;
     ret (snd r))
    (fun e =>
       logger_warning w "Fail to describe_label" ["exec_info"] ;;
       ret 0%Z).

(** ** The orchestrators *)

(** [k in v] and [v[k]] on a stored object. *)
Definition value_contains (k : string) (v : value) : bool :=
  match v with
  | VDict d => contains d k
  | VStr s => is_substring k s
  end.

Definition value_getitem (v : value) (k : string) : outcome value :=
  match v with
  | VDict d =>
      match get d k with
      | Some s => Ok (VStr s)
      | None => Raise (Exc "KeyError" ("'" ++ k ++ "'"))
      end
  | VStr _ => Raise (Exc "TypeError" "string indices must be integers, not 'str'")
  end.

(** Lines 124-131 of [download]: the shared mapping split by sub-kind. *)
Definition split_results (results : dict value)
  : outcome (dict value * dict value) :=
  if (0 <? length results)%nat then
    fold_left
      (fun acc kv =>
         match acc with
         | Raise e => Raise e
         | Ok (data_results, label_results) =>
             match (if value_contains "data" (snd kv)
                    then match value_getitem (snd kv) "data" with
                         | Ok v => Ok (set data_results (fst kv) v)
                         | Raise e => Raise e
                         end
                    else Ok data_results) with
             | Raise e => Raise e
             | Ok data_results =>
                 if value_contains "label" (snd kv)
                 then match value_getitem (snd kv) "label" with
                      | Ok v => Ok (data_results, set label_results (fst kv) v)
                      | Raise e => Raise e
                      end
                 else Ok (data_results, label_results)
             end
         end)
      results (Ok ([], []))
  else Ok ([], []).

(** Lines 136-142 of [download]. *)
Definition download_summary (w : World) (label_count : Z)
    (data_results label_results : dict value) : Task unit :=
  emit (Print "** Result Summary **") ;;
  let label_success_count := (label_count - len label_results)%Z in
  ratio <- lift (percentage label_success_count label_count) ;;
  emit (SummaryLine "labels" label_success_count label_count ratio
          (length label_results)) ;;
  let data_success_count := (label_count - len data_results)%Z in
  ratio <- lift (percentage data_success_count label_count) ;;
  emit (SummaryLine "data" data_success_count label_count ratio
          (length data_results)) ;;
  _print_error_table w (Some data_results) (Some label_results).

(** The page tasks of [download] (line 121), each with its element of
    [results]. *)
Definition download_tasks (w : World) (project : Project)
    (directory_path : string) (page_length : Z) (results : list handle)
  : list (Task unit) :=
  map (fun a => _download_worker w (project_id project) (fst a) directory_path (snd a))
      (combine (py_range page_length) results).

(** [LabelData.download] (lines 111-142).  [sched] is the order in which
    the pool's workers take their steps. *)
Definition download (w : World) (sched : list nat) (project : Project)
    (directory_path : string) (is_forced : bool) : Task unit :=
  label_count <- _count_labels w (project_id project) ;;
  stores <-
    (if negb (label_count =? 0)%Z then
       page_length <- lift (page_length label_count) ;;
       if negb is_forced && negb (confirm w) then ret None
       else
         let (d, h) := manager_dict empty_heap in
         let results := py_repeat d page_length in
         let pool :=
           tqdm_list page_length
             (pool_imap sched
                (download_tasks w project directory_path page_length results)) in
         pool ;;
         let h := replay (trace pool) h in
         r0 <- lift (py_index0 results) ;;
         s <- lift (split_results (objs h r0)) ;;
         ret (Some s)
     else ret (Some ([], []))) ;;
  match stores with
  | None => ret tt
  | Some (data_results, label_results) =>
      download_summary w label_count data_results label_results
  end.

(** The ratio of lines 65 and 70: guarded by the number of entries of the
    store. *)
Definition ratio_unless_no_error (success total : Z) (store : dict value)
  : outcome Q :=
  if negb (len store =? 0)%Z then percentage success total else Ok 100%Q.

(** The ratio of line 91: guarded by the number of items. *)
Definition ratio_unless_no_item (success total : Z) : outcome Q :=
  if negb (total =? 0)%Z then percentage success total else Ok 100%Q.

Definition upload_asset_tasks (w : World) (project : Project)
    (asset_images : list asset) (data_results : list handle) : list (Task unit) :=
  map (fun a => _upload_asset w (project_id project) (fst a) (snd a))
      (combine asset_images data_results).

Definition update_label_tasks (w : World) (project : Project)
    (dataset_name : string) (labels_path : list string)
    (label_results : list handle) : list (Task unit) :=
  map (fun a => _update_label w (fst a) (project_id project) dataset_name (snd a))
      (combine labels_path label_results).

(** [LabelData.upload_label] (lines 76-93). *)
Definition upload_label (w : World) (sched : list nat) (project : Project)
    (dataset_name directory_path : string) (is_forced : bool) : Task unit :=
  let labels_path := recursive_glob_label_files w directory_path in
  if negb is_forced && negb (confirm w) then ret tt
  else
    let (d, h) := manager_dict empty_heap in
    let label_results :=
      if negb (len labels_path =? 0)%Z then py_repeat d (len labels_path) else [d] in
    let pool :=
      if negb (len labels_path =? 0)%Z
      then pool_imap sched
             (update_label_tasks w project dataset_name labels_path label_results)
      else ret tt in
    pool ;;
    let h := replay (trace pool) h in
    emit (Print "** Result Summary **") ;;
    r0 <- lift (py_index0 label_results) ;;
    let success_label_count := (len labels_path - len (objs h r0))%Z in
    success_label_ratio <-
      lift (ratio_unless_no_item success_label_count (len labels_path)) ;;
    emit (SummaryLine "labels" success_label_count (len labels_path)
            success_label_ratio (length (objs h r0))) ;;
    _print_error_table w None (Some (objs h r0)).

(** [LabelData.upload_data] (lines 28-74). *)
Definition upload_data (w : World) (sched_data sched_label : list nat)
    (project : Project) (dataset_name directory_path : string)
    (include_label is_forced : bool) : Task unit :=
  let imgs_path := recursive_glob_image_files w directory_path in
  if negb is_forced && negb (confirm w) then ret tt
  else
    let asset_images :=
      if negb (len imgs_path =? 0)%Z
      then map (fun kv => {| asset_file := snd kv;
                             asset_file_name := fst kv;
                             asset_data_key := fst kv;
                             asset_dataset := dataset_name |}) imgs_path
      else [] in
    let (d, h) := manager_dict empty_heap in
    let data_results :=
      if negb (len imgs_path =? 0)%Z then py_repeat d (len asset_images) else [d] in
    let data_pool :=
      if negb (len imgs_path =? 0)%Z
      then emit (Print "Uploading data:") ;;
           pool_imap sched_data (upload_asset_tasks w project asset_images data_results)
      else ret tt in
    data_pool ;;
    let h := replay (trace data_pool) h in
    let labels_path := recursive_glob_label_files w directory_path in
    let (l, h) := manager_dict h in
    let label_results :=
      if negb (len labels_path =? 0)%Z then py_repeat l (len labels_path) else [l] in
    let label_pool :=
      if include_label
      then emit (Print "Uploading labels:") ;;
           (if negb (len labels_path =? 0)%Z
            then pool_imap sched_label
                   (update_label_tasks w project dataset_name labels_path label_results)
            else ret tt)
      else ret tt in
    label_pool ;;
    let h := replay (trace label_pool) h in
    emit (Print "** Result Summary **") ;;
    d0 <- lift (py_index0 data_results) ;;
    let success_data_count := (len asset_images - len (objs h d0))%Z in
    data_success_ratio <-
      lift (ratio_unless_no_error success_data_count (len asset_images) (objs h d0)) ;;
    emit (SummaryLine "data" success_data_count (len asset_images)
            data_success_ratio (length (objs h d0))) ;;
    if include_label then
      l0 <- lift (py_index0 label_results) ;;
      let success_label_count := (len labels_path - len (objs h l0))%Z in
      label_success_ratio <-
        lift (ratio_unless_no_error success_label_count (len labels_path) (objs h l0)) ;;
      emit (SummaryLine "labels" success_label_count (len labels_path)
              label_success_ratio (length (objs h l0))) ;;
      _print_error_table w (Some (objs h d0)) (Some (objs h l0))
    else
      _print_error_table w (Some (objs h d0)) None.

(** ** Observations on traces *)

Definition is_SetItem (ev : event) : bool :=
  match ev with SetItem _ _ _ => true | _ => false end.

(** The writes of a trace to shared mappings: its error records. *)
Definition writes (tr : list event) : list event := filter is_SetItem tr.

Definition is_update_call (ev : event) : bool :=
  match ev with Call (UpdateLabel _) => true | _ => false end.

Definition is_file_write (ev : event) : bool :=
  match ev with
  | Call (WriteText _ _) => true
  | Call (WriteBytes _ _) => true
  | _ => false
  end.

(** A run that records no error, calls no remote update and rewrites no
    file. *)
Definition silent_skip (tr : list event) : Prop :=
  writes tr = [] /\ filter is_update_call tr = [] /\ filter is_file_write tr = [].

(** Lines 196-198: the pointers to the two log files. *)
Definition log_pointers (w : World) : list event :=
  [ConsoleLog "Check the log file for more details";
   ConsoleLog ("- " ++ simple_log_file w)%string;
   ConsoleLog ("- " ++ log_file w)%string].

Definition concludes_with_log_pointers (w : World) (tr : list event) : Prop :=
  exists before, tr = before ++ log_pointers w.

(** The fault, if any, of each of the two guarded writes of
    [download_pair], as an entry of the error mapping. *)
Definition sub_error (kind : string) (o : outcome unit) : dict string :=
  match o with
  | Raise e => [(kind, exn_str e)]
  | Ok _ => []
  end.

Definition label_write (w : World) (path : string) (label : Label) : outcome unit :=
  write_text w (path ++ ".json")%string (toJson w label).

Definition data_fetch (w : World) (path : string) (label : Label) : outcome unit :=
  match http_get w (label_data_url label) with
  | Ok content => write_bytes w path content
  | Raise e => Raise e
  end.

(** Every error record a pool wrote into the mapping [d] is in [store], and
    nothing else is. *)
Definition collects (runs : list (Task unit)) (d : handle) (store : dict value)
  : Prop :=
  (forall k, In k (keys store)
             <-> exists t v, In t runs /\ In (SetItem d k v) (trace t))
  /\ (forall k v, get store k = Some v ->
                  exists t, In t runs /\ In (SetItem d k v) (trace t)).

(** A trace whose writes to shared mappings all go to the mapping [r]. *)
Definition targets (r : handle) (ev : event) : Prop :=
  match ev with
  | SetItem r' _ _ => r' = r
  | _ => True
  end.

Definition writes_only_to (r : handle) (tr : list event) : Prop :=
  Forall (targets r) tr.

(** What a batch leaves in the one mapping [d] its tasks were handed: every
    task writes to [d] only, and when no task raised [store] holds the
    records the tasks wrote, and only these. *)
Definition batch_store (tasks : list (Task unit)) (d : handle)
    (store : dict value) : Prop :=
  (forall t, In t tasks -> writes_only_to d (trace t))
  /\ (first_raise (map outcome_of tasks) = Ok tt -> collects tasks d store).

(** Lines 38-43 of [upload_data]: the descriptor of an image file. *)
Definition asset_of (dataset_name : string) (kv : string * string) : asset :=
  {| asset_file := snd kv;
     asset_file_name := fst kv;
     asset_data_key := fst kv;
     asset_dataset := dataset_name |}.

(** Lines 63-74 of [upload_data], on the mappings it reads at
    [data_results[0]] and [label_results[0]]. *)
Definition upload_data_report (w : World) (asset_images : list asset)
    (labels_path : list string) (include_label : bool)
    (data_store label_store : dict value) : Task unit :=
  emit (Print "** Result Summary **") ;;
  let success_data_count := (len asset_images - len data_store)%Z in
  data_success_ratio <-
    lift (ratio_unless_no_error success_data_count (len asset_images) data_store) ;;
  emit (SummaryLine "data" success_data_count (len asset_images)
          data_success_ratio (length data_store)) ;;
  if include_label then
    let success_label_count := (len labels_path - len label_store)%Z in
    label_success_ratio <-
      lift (ratio_unless_no_error success_label_count (len labels_path) label_store) ;;
    emit (SummaryLine "labels" success_label_count (len labels_path)
            label_success_ratio (length label_store)) ;;
    _print_error_table w (Some data_store) (Some label_store)
  else
    _print_error_table w (Some data_store) None.

(** Lines 89-93 of [upload_label], on the mapping it reads at
    [label_results[0]]. *)
Definition upload_label_report (w : World) (labels_path : list string)
    (store : dict value) : Task unit :=
  emit (Print "** Result Summary **") ;;
  let success_label_count := (len labels_path - len store)%Z in
  success_label_ratio <-
    lift (ratio_unless_no_item success_label_count (len labels_path)) ;;
  emit (SummaryLine "labels" success_label_count (len labels_path)
          success_label_ratio (length store)) ;;
  _print_error_table w None (Some store).

(** Lines 123-142 of [download], on the mapping it reads at [results[0]]. *)
Definition download_report (w : World) (label_count : Z) (store : dict value)
  : Task unit :=
  s <- lift (split_results store) ;;
  download_summary w label_count (fst s) (snd s).

(** The assets whose upload call raises, as the data store records them. *)
Definition failed_upload (w : World) (project_id : string)
    (asset_images : list asset) (key : string) (v : value) : Prop :=
  exists a e, In a asset_images /\ asset_data_key a = key
              /\ run_create_data w a project_id = Raise e
              /\ v = VStr (exn_str e).

(** ** Concrete collaborators for the examples *)

Definition sample_label : Label :=
  {| label_id := "L1";
     label_dataset := "ds";
     label_data_key := "a";
     label_data_url := "http://host/a";
     label_result := JNull;
     label_tags := Some [] |}.

(** A world in which everything succeeds, but for the three answers given
    as arguments: the remote describe call, the content of the local label
    file, and whether the root logger handles warnings. *)
Definition sample_world
    (describe : describe_option -> Z -> Z -> outcome (list (option Label) * Z))
    (local_json : outcome json) (warnings : bool) : World :=
  {| isfile := fun _ => true;
     run_create_data := fun _ _ => Ok tt;
     run_describe_label := describe;
     run_update_label := fun _ => Ok sample_label;
     json_load := fun _ => local_json;
     write_text := fun _ _ => Ok tt;
     write_bytes := fun _ _ => Ok tt;
     http_get := fun _ => Ok "bytes";
     makedirs_parent := fun _ => Ok tt;
     toJson := fun _ => "{}";
     recursive_glob_image_files := fun _ => [];
     recursive_glob_label_files := fun _ => [];
     confirm := true;
     getchar := fun _ => "n"%char;
     warning_enabled := warnings;
     simple_log_file := "spb_simple.log";
     log_file := "spb.log" |}.

(** The same world with an operator who always presses [key]. *)
Definition pressing (key : ascii) (w : World) : World :=
  {| isfile := isfile w;
     run_create_data := run_create_data w;
     run_describe_label := run_describe_label w;
     run_update_label := run_update_label w;
     json_load := json_load w;
     write_text := write_text w;
     write_bytes := write_bytes w;
     http_get := http_get w;
     makedirs_parent := makedirs_parent w;
     toJson := toJson w;
     recursive_glob_image_files := recursive_glob_image_files w;
     recursive_glob_label_files := recursive_glob_label_files w;
     confirm := confirm w;
     getchar := fun _ => key;
     warning_enabled := warning_enabled w;
     simple_log_file := simple_log_file w;
     log_file := log_file w |}.

(** The same world on a disk where no directory can be made. *)
Definition without_directories (w : World) : World :=
  {| isfile := isfile w;
     run_create_data := run_create_data w;
     run_describe_label := run_describe_label w;
     run_update_label := run_update_label w;
     json_load := json_load w;
     write_text := write_text w;
     write_bytes := write_bytes w;
     http_get := http_get w;
     makedirs_parent := fun _ => Raise (Exc "PermissionError" "denied");
     toJson := toJson w;
     recursive_glob_image_files := recursive_glob_image_files w;
     recursive_glob_label_files := recursive_glob_label_files w;
     confirm := confirm w;
     getchar := getchar w;
     warning_enabled := warning_enabled w;
     simple_log_file := simple_log_file w;
     log_file := log_file w |}.

(** Twelve failed uploads, keyed ["A"] to ["L"]. *)
Definition twelve_errors : dict value :=
  map (fun n => (String (ascii_of_nat (65 + n)) "", VStr "boom")) (seq 0 12).

Definition describe_one : describe_option -> Z -> Z -> outcome (list (option Label) * Z) :=
  fun _ _ _ => Ok ([Some sample_label], 1%Z).

Definition describe_none : describe_option -> Z -> Z -> outcome (list (option Label) * Z) :=
  fun _ _ _ => Ok ([], 0%Z).

Definition describe_fails : describe_option -> Z -> Z -> outcome (list (option Label) * Z) :=
  fun _ _ _ => Raise (Exc "ConnectionError" "connection refused").

(** A project with one label whose page request is refused: the count probe
    (page size 1) answers, the page request (page size 10) raises. *)
Definition describe_page_fails
  : describe_option -> Z -> Z -> outcome (list (option Label) * Z) :=
  fun _ page_size _ =>
    if (page_size =? 1)%Z then Ok ([Some sample_label], 1%Z)
    else Raise (Exc "ConnectionError" "connection refused").

(** A label of the dataset [ds], named by its data key. *)
Definition label_named (name : string) : Label :=
  {| label_id := name;
     label_dataset := "ds";
     label_data_key := name;
     label_data_url := ("http://host/" ++ name)%string;
     label_result := JNull;
     label_tags := Some [] |}.

(** A project whose one page holds the labels [a], [b], [c] and [d]; the
    disk refuses the label file of [b], the network the data of [c], and
    the directory of the path [no_dir] cannot be made. *)
Definition faulty_page_world (no_dir : string) : World :=
  {| isfile := fun _ => true;
     run_create_data := fun _ _ => Ok tt;
     run_describe_label :=
       fun _ _ _ => Ok (map (fun n => Some (label_named n)) ["a"; "b"; "c"; "d"], 4%Z);
     run_update_label := fun _ => Ok sample_label;
     json_load := fun _ => Ok JNull;
     write_text :=
       fun path _ => if String.eqb path "out/ds/b.json"
                     then Raise (Exc "OSError" "No space left on device")
                     else Ok tt;
     write_bytes := fun _ _ => Ok tt;
     http_get :=
       fun url => if String.eqb url "http://host/c"
                  then Raise (Exc "ConnectionError" "timed out")
                  else Ok "bytes";
     makedirs_parent :=
       fun path => if String.eqb path no_dir
                   then Raise (Exc "PermissionError" "denied")
                   else Ok tt;
     toJson := fun _ => "{}";
     recursive_glob_image_files := fun _ => [];
     recursive_glob_label_files := fun _ => [];
     confirm := true;
     getchar := fun _ => "n"%char;
     warning_enabled := true;
     simple_log_file := "spb_simple.log";
     log_file := "spb.log" |}.

(** A directory of three images and two label files; the upload of
    [b.png] is refused and no remote label can be described. *)
Definition faulty_upload_world : World :=
  {| isfile := fun _ => true;
     run_create_data :=
       fun a _ => if String.eqb (asset_data_key a) "b.png"
                  then Raise (Exc "APIException" "quota exceeded")
                  else Ok tt;
     run_describe_label := describe_none;
     run_update_label := fun _ => Ok sample_label;
     json_load := fun _ => Ok JNull;
     write_text := fun _ _ => Ok tt;
     write_bytes := fun _ _ => Ok tt;
     http_get := fun _ => Ok "bytes";
     makedirs_parent := fun _ => Ok tt;
     toJson := fun _ => "{}";
     recursive_glob_image_files :=
       fun _ => [("a.png", "dir/a.png"); ("b.png", "dir/b.png"); ("c.png", "dir/c.png")];
     recursive_glob_label_files := fun _ => ["a.json"; "b.json"];
     confirm := true;
     getchar := fun _ => "n"%char;
     warning_enabled := true;
     simple_log_file := "spb_simple.log";
     log_file := "spb.log" |}.

(** ** Further observations *)

(** The local path [_download_worker] derives for a label (lines 210-211). *)
Definition label_local_path (directory_path : string) (label : Label) : string :=
  let path :=
    if startswith (label_data_key label) "/"
    then os_path_join (label_dataset label) (slice_from_1 (label_data_key label))
    else os_path_join (label_dataset label) (label_data_key label) in
  os_path_join directory_path path.

(** The error record, if any, that the download step of a label stores. *)
Definition pair_record (w : World) (path : string) (res : handle) (label : Label)
  : list event :=
  match sub_error "label" (label_write w path label)
        ++ sub_error "data" (data_fetch w path label) with
  | [] => []
  | error =>
      [SetItem res (label_dataset label ++ "/" ++ label_data_key label)%string
         (VDict error)]
  end.

(** The rows of the tables a trace prints, in order, and the size of each
    table. *)
Definition printed_rows (tr : list event) : list (list string) :=
  flat_map (fun ev => match ev with PrintTable _ rows => rows | _ => [] end) tr.

Definition table_sizes (tr : list event) : list nat :=
  flat_map (fun ev => match ev with PrintTable _ rows => [length rows] | _ => [] end) tr.

(** The rows of a merged table, as the reporter renders them. *)
Definition all_rows (is_data is_label : bool) (results : dict row)
  : list (list string) :=
  map (fun kv => table_row is_data is_label (fst kv) (snd kv)) results.

(** The remote and file-system calls of a trace. *)
Definition calls (tr : list event) : list call :=
  flat_map (fun ev => match ev with Call c => [c] | _ => [] end) tr.

(** The messages of one sub-kind in a store of download records, in store
    order. *)
Definition sub_errors (kind : string) (records : dict (dict string)) : dict value :=
  flat_map (fun kv => match get (snd kv) kind with
                      | Some message => [(fst kv, VStr message)]
                      | None => []
                      end) records.

(** A store of download records as the shared mapping holds it. *)
Definition download_store (records : dict (dict string)) : dict value :=
  map (fun kv => (fst kv, VDict (snd kv))) records.

(** The row of a failure that only one store has. *)
Definition data_only_row (kv : string * value) : string * row :=
  (fst kv, {| row_data := Some (snd kv); row_label := None |}).

Definition label_only_row (kv : string * value) : string * row :=
  (fst kv, {| row_data := None; row_label := Some (snd kv) |}).

(** The page and page count of the prompts of a trace. *)
Definition prompts_of (tr : list event) : list (nat * nat) :=
  flat_map (fun ev => match ev with Prompt p n => [(p, n)] | _ => [] end) tr.

(** The same world with an operator who declines every confirmation. *)
Definition declining (w : World) : World :=
  {| isfile := isfile w;
     run_create_data := run_create_data w;
     run_describe_label := run_describe_label w;
     run_update_label := run_update_label w;
     json_load := json_load w;
     write_text := write_text w;
     write_bytes := write_bytes w;
     http_get := http_get w;
     makedirs_parent := makedirs_parent w;
     toJson := toJson w;
     recursive_glob_image_files := recursive_glob_image_files w;
     recursive_glob_label_files := recursive_glob_label_files w;
     confirm := false;
     getchar := getchar w;
     warning_enabled := warning_enabled w;
     simple_log_file := simple_log_file w;
     log_file := log_file w |}.

(** * Properties *)

Unset Implicit Arguments.

(** ** Dictionaries *)

Section DictFacts.
Context {V : Type}.
Implicit Types (d : dict V) (k : string) (v : V).

Lemma get_in_keys d k : get d k <> None <-> In k (keys d).
Proof.
  induction d as [|[k' v'] d IH]; simpl.
  - split; [congruence | tauto].
  - destruct (String.eqb_spec k k') as [->|Hne].
    + split; [auto | discriminate].
    + rewrite IH. split; [auto | intros [H|H]; [congruence | exact H]].
Qed.

Lemma get_none_iff d k : get d k = None <-> ~ In k (keys d).
Proof.
  rewrite <- get_in_keys. destruct (get d k); split; try congruence.
  intros H. exfalso. apply H. discriminate.
Qed.

Lemma contains_true_iff d k : contains d k = true <-> In k (keys d).
Proof.
  unfold contains. rewrite <- get_in_keys.
  destruct (get d k); split; congruence.
Qed.

Lemma contains_false_iff d k : contains d k = false <-> ~ In k (keys d).
Proof.
  rewrite <- contains_true_iff. destruct (contains d k); split; congruence.
Qed.

Lemma get_set_same d k v : get (set d k v) k = Some v.
Proof.
  induction d as [|[k' v'] d IH]; simpl.
  - now rewrite String.eqb_refl.
  - destruct (String.eqb_spec k k') as [->|Hne]; simpl.
    + now rewrite String.eqb_refl.
    + destruct (String.eqb_spec k k'); [congruence | exact IH].
Qed.

Lemma get_set_other d k k' v : k' <> k -> get (set d k v) k' = get d k'.
Proof.
  intros Hne. induction d as [|[k0 v0] d IH]; simpl.
  - destruct (String.eqb_spec k' k); [congruence | reflexivity].
  - destruct (String.eqb_spec k k0) as [->|Hk]; simpl.
    + destruct (String.eqb_spec k' k0); [congruence | reflexivity].
    + now rewrite IH.
Qed.

Lemma keys_set d k v :
  keys (set d k v) = if contains d k then keys d else keys d ++ [k].
Proof.
  unfold contains. induction d as [|[k0 v0] d IH]; simpl; [reflexivity|].
  destruct (String.eqb_spec k k0) as [->|Hk]; simpl; [reflexivity|].
  rewrite IH. now destruct (get d k).
Qed.

Lemma in_keys_set d k v k' :
  In k' (keys (set d k v)) <-> k' = k \/ In k' (keys d).
Proof.
  rewrite keys_set. destruct (contains d k) eqn:E.
  - apply contains_true_iff in E. split; [auto | intros [->|H]; auto].
  - rewrite in_app_iff. simpl. intuition congruence.
Qed.

Lemma wf_set d k v : wf d -> wf (set d k v).
Proof.
  unfold wf. intros H. rewrite keys_set. destruct (contains d k) eqn:E; [exact H|].
  apply contains_false_iff in E.
  apply NoDup_app; [exact H | repeat constructor; simpl; tauto |].
  intros x Hx [<-|[]]. contradiction.
Qed.

Lemma length_set d k v :
  length (set d k v) = if contains d k then length d else S (length d).
Proof.
  unfold contains. induction d as [|[k0 v0] d IH]; simpl; [reflexivity|].
  destruct (String.eqb_spec k k0) as [->|Hk]; simpl; [reflexivity|].
  rewrite IH. now destruct (get d k).
Qed.

End DictFacts.

(** ** Pagination *)

Section TrueDivision.
Open Scope Z_scope.

Lemma round_half_even_div_range (n d : Z) :
  0 < d ->
  let m := round_half_even_div n d in
  (m = n / d \/ (m = n / d + 1 /\ d <= 2 * (n mod d))).
Proof.
  intros Hd. unfold round_half_even_div.
  destruct (Z.compare_spec (2 * (n mod d)) d) as [E|E|E];
    [destruct (Z.even (n / d))| |]; cbv zeta; lia.
Qed.

(** Rounding to a multiple of [1/P] with [P >= 8] does not reach the next
    integer above a quotient by ten. *)
Lemma floor_of_rounded (a P : Z) :
  0 <= a -> 8 <= P -> round_half_even_div (a * P) 10 / P = a / 10.
Proof.
  intros Ha HP.
  pose proof (round_half_even_div_range (a * P) 10 ltac:(lia)) as H.
  cbv zeta in H.
  set (m := round_half_even_div (a * P) 10) in *.
  pose proof (Z.div_mod a 10 ltac:(lia)) as Hdm.
  pose proof (Z.mod_pos_bound a 10 ltac:(lia)) as Hb.
  pose proof (Z.mod_pos_bound (a * P) 10 ltac:(lia)) as Hb'.
  pose proof (Z.div_mod (a * P) 10 ltac:(lia)) as Hdm'.
  symmetry. apply Z.div_unique_pos with (r := m - a / 10 * P); [|lia].
  set (q := a / 10) in *. set (rho := a mod 10) in *.
  set (f := a * P / 10) in *. set (r := (a * P) mod 10) in *.
  assert (HaP : a * P = 10 * (q * P) + rho * P) by (rewrite Hdm; ring).
  assert (Hrho : rho = 0 \/ rho = 1 \/ rho = 2 \/ rho = 3 \/ rho = 4 \/ rho = 5
                 \/ rho = 6 \/ rho = 7 \/ rho = 8 \/ rho = 9) by lia.
  set (X := q * P) in *.
  destruct Hrho as [E|[E|[E|[E|[E|[E|[E|[E|[E|E]]]]]]]]]; rewrite E in HaP; lia.
Qed.

Lemma nearest_double_of_tenth (total : Z) :
  0 < total < 10 * 2 ^ 50 ->
  exists k, 3 <= k <= 56
            /\ nearest_double total 10
               = (round_half_even_div (total * 2 ^ k) 10, - k).
Proof.
  intros [Hpos Hlt].
  assert (Hlog : 0 <= Z.log2 total < 54).
  { split; [apply Z.log2_nonneg|]. apply Z.log2_lt_pow2; lia. }
  unfold nearest_double.
  destruct (Z.eqb_spec total 0) as [|_]; [lia|].
  change (Z.log2 10) with 3.
  set (d := Z.log2 total - 3).
  assert (He : exists e, -56 <= e <= -3
               /\ (if 10 * 2 ^ Z.max 0 d <=? total * 2 ^ Z.max 0 (- d)
                   then d - 52 else d - 53) = e).
  { destruct (Z.le_gt_cases (Z.log2 total) 52) as [Hsmall|Hbig].
    - destruct (10 * 2 ^ Z.max 0 d <=? total * 2 ^ Z.max 0 (- d));
        eexists; (split; [|reflexivity]); unfold d; lia.
    - assert (Hd : d = 50) by (unfold d; lia). rewrite Hd.
      change (Z.max 0 50) with 50. change (Z.max 0 (- 50)) with 0.
      rewrite Z.pow_0_r, Z.mul_1_r.
      destruct (Z.leb_spec (10 * 2 ^ 50) total) as [Hge|_]; [lia|].
      exists (-3). split; [lia | reflexivity]. }
  destruct He as [e [Hrange ->]]. cbv zeta.
  exists (- e). split; [lia|].
  rewrite (Z.max_l e (-1074)) by lia.
  rewrite (Z.max_r 0 (- e)) by lia. rewrite (Z.max_l 0 e) by lia.
  rewrite Z.pow_0_r, Z.mul_1_r, Z.opp_involutive. reflexivity.
Qed.

(** Below [10 * 2^50] the truncated float quotient by ten is the integer
    quotient. *)
Lemma int_truediv_ten (total : Z) :
  0 <= total < 10 * 2 ^ 50 -> int_truediv total 10 = Ok (total / 10).
Proof.
  intros [Hnn Hlt]. unfold int_truediv, py_truediv_float.
  change (10 =? 0) with false. cbv iota. change (Z.abs 10) with 10.
  rewrite (Z.abs_eq total Hnn).
  destruct (Z.eq_dec total 0) as [->|Hne]; [reflexivity|].
  destruct (nearest_double_of_tenth total ltac:(lia)) as [k [Hk ->]].
  set (m := round_half_even_div (total * 2 ^ k) 10).
  assert (HP : 8 <= 2 ^ k).
  { change 8 with (2 ^ 3). apply Z.pow_le_mono_r; lia. }
  assert (Hfloor : m / 2 ^ k = total / 10) by (apply floor_of_rounded; lia).
  assert (Hm : 0 <= m < 2 ^ 106).
  { pose proof (Z.div_pos total 10 Hnn ltac:(lia)) as Hq.
    pose proof (Z.div_mod m (2 ^ k) ltac:(lia)) as Hdm.
    pose proof (Z.mod_pos_bound m (2 ^ k) ltac:(lia)) as Hb.
    pose proof (Z.div_lt_upper_bound total 10 (2 ^ 50) ltac:(lia) ltac:(lia)) as Hq'.
    rewrite Hfloor in Hdm.
    assert (Hk' : 2 ^ k <= 2 ^ 56) by (apply Z.pow_le_mono_r; lia).
    change (2 ^ 106) with (2 ^ 50 * 2 ^ 56).
    split; nia. }
  assert (Hover : negb (m =? 0) && (1024 <=? Z.log2 m + - k) = false).
  { destruct (Z.eqb_spec m 0) as [|Hm0]; [reflexivity|]. simpl.
    apply Z.leb_gt.
    assert (Z.log2 m < 106) by (apply Z.log2_lt_pow2; lia). lia. }
  rewrite Hover.
  replace (Z.sgn total) with 1 by (symmetry; apply Z.sgn_pos; lia).
  change (Z.sgn 10) with 1. rewrite !Z.mul_1_l.
  unfold py_int. destruct (Z.leb_spec 0 (- k)) as [|_]; [lia|].
  rewrite Z.opp_involutive, Z.quot_div_nonneg by lia.
  now rewrite Hfloor.
Qed.

End TrueDivision.

(** The page count of line 114 below [10 * 2^50] labels. *)
Lemma page_length_small (total : Z) :
  (0 <= total < 10 * 2 ^ 50)%Z ->
  page_length total
  = Ok (total / 10 + (if (total mod 10 =? 0)%Z then 0 else 1))%Z.
Proof.
  intros H. unfold page_length, LABEL_DESCRIBE_PAGE_SIZE.
  rewrite (int_truediv_ten total H).
  destruct (total mod 10 =? 0)%Z; f_equal; lia.
Qed.

(** C6 as stated fails for very large totals: the quotient of line 114 is a
    float, and for [total = 10 * 2^50 + 9] it is rounded up to the next
    integer before one more page is added. *)
Lemma page_count_off_by_one_for_huge_total :
  let total := 11258999068426249%Z in
  (0 <= total)%Z
  /\ (total mod 10 =? 0)%Z = false
  /\ page_length total = Ok 1125899906842626%Z
  /\ dispatched_pages total = Ok 1125899906842626%Z
  /\ ~ is_ceil_div total LABEL_DESCRIBE_PAGE_SIZE 1125899906842626.
Proof.
  repeat split; try (vm_compute; congruence).
  unfold is_ceil_div, LABEL_DESCRIBE_PAGE_SIZE. lia.
Qed.

(** C6, amended. For every total with [0 <= total < 10 * 2^50] and page
    size 10, the number of pages the download driver computes and
    dispatches is [ceil(total / 10)]: the floored quotient, plus one
    exactly when [total mod 10] is not zero; 25 labels give 3 pages and 20
    labels give 2. *)
Theorem page_count_is_ceiling (total : Z) :
  (0 <= total < 10 * 2 ^ 50)%Z ->
  (exists pages,
      page_length total = Ok pages
      /\ dispatched_pages total = Ok pages
      /\ is_ceil_div total LABEL_DESCRIBE_PAGE_SIZE pages
      /\ pages = (total / 10 + (if (total mod 10 =? 0)%Z then 0 else 1))%Z)
  /\ page_length 25 = Ok 3%Z /\ page_length 20 = Ok 2%Z.
Proof.
  intros H. pose proof (page_length_small total H) as Hpl.
  split; [|split; vm_compute; reflexivity].
  eexists. split; [exact Hpl|]. split; [|split; [|reflexivity]].
  - unfold dispatched_pages. destruct (Z.eqb_spec total 0) as [->|]; [reflexivity|].
    exact Hpl.
  - unfold is_ceil_div, LABEL_DESCRIBE_PAGE_SIZE.
    pose proof (Z.div_mod total 10 ltac:(lia)) as Hdm.
    pose proof (Z.mod_pos_bound total 10 ltac:(lia)) as Hb.
    destruct (Z.eqb_spec (total mod 10) 0); lia.
Qed.

Lemma page_count_is_ceiling_witness :
  (0 <= 25 < 10 * 2 ^ 50)%Z
  /\ exists pages, page_length 25 = Ok pages
                   /\ is_ceil_div 25 LABEL_DESCRIBE_PAGE_SIZE pages.
Proof.
  split; [lia|].
  destruct (page_count_is_ceiling 25 ltac:(lia)) as [[pages [H1 [_ [H2 _]]]] _].
  exists pages. split; assumption.
Defined.

(** ** The merged error table *)

Section Merge.

Lemma wf_cons_inv {V} (k : string) (v : V) (d : dict V) :
  wf ((k, v) :: d) -> get d k = None /\ wf d.
Proof.
  unfold wf. simpl. intros H. inversion H; subst.
  split; [now apply get_none_iff | assumption].
Qed.

Lemma data_phase_wf (D : dict value) (acc : dict row) :
  wf acc -> wf (fold_left data_step D acc).
Proof.
  revert acc. induction D as [|kv D IH]; intros acc H; simpl; [exact H|].
  apply IH. unfold data_step. now apply wf_set.
Qed.

Lemma data_phase_get (D : dict value) (acc : dict row) (k : string) :
  wf D ->
  get (fold_left data_step D acc) k
  = match get D k with
    | Some v => Some {| row_data := Some v; row_label := None |}
    | None => get acc k
    end.
Proof.
  revert acc. induction D as [|[k0 v0] D IH]; intros acc H; simpl; [reflexivity|].
  apply wf_cons_inv in H as [Hk0 HD].
  rewrite (IH _ HD). unfold data_step; simpl.
  destruct (String.eqb_spec k k0) as [->|Hne].
  - rewrite Hk0. apply get_set_same.
  - destruct (get D k); [reflexivity | now apply get_set_other].
Qed.

Lemma label_step_set (acc : dict row) (kv : string * value) :
  label_step acc kv
  = set acc (fst kv) {| row_data := data_of acc (fst kv); row_label := Some (snd kv) |}.
Proof.
  unfold label_step, data_of. now destruct (get acc (fst kv)).
Qed.

Lemma label_phase_wf (L : dict value) (acc : dict row) :
  wf acc -> wf (fold_left label_step L acc).
Proof.
  revert acc. induction L as [|kv L IH]; intros acc H; simpl; [exact H|].
  apply IH. rewrite label_step_set. now apply wf_set.
Qed.

Lemma label_phase_get (L : dict value) (acc : dict row) (k : string) :
  wf L ->
  get (fold_left label_step L acc) k
  = match get L k with
    | Some l => Some {| row_data := data_of acc k; row_label := Some l |}
    | None => get acc k
    end.
Proof.
  revert acc. induction L as [|[k0 l0] L IH]; intros acc H; simpl; [reflexivity|].
  apply wf_cons_inv in H as [Hk0 HL].
  rewrite (IH _ HL), label_step_set. simpl.
  destruct (String.eqb_spec k k0) as [->|Hne].
  - rewrite Hk0. apply get_set_same.
  - unfold data_of. rewrite (get_set_other _ _ _ _ Hne). reflexivity.
Qed.

Lemma merge_errors_unfold (D L : dict value) :
  merge_errors (Some D) (Some L)
  = fold_left label_step L (fold_left data_step D []).
Proof. reflexivity. Qed.

(** The row of every key of the merged table, from the two stores. *)
Lemma merge_errors_get (D L : dict value) (k : string) :
  wf D -> wf L ->
  get (merge_errors (Some D) (Some L)) k
  = match get D k, get L k with
    | None, None => None
    | d, l => Some {| row_data := d; row_label := l |}
    end.
Proof.
  intros HD HL. rewrite merge_errors_unfold, (label_phase_get _ _ _ HL).
  unfold data_of. rewrite (data_phase_get _ _ _ HD). simpl.
  destruct (get D k), (get L k); reflexivity.
Qed.

Lemma merge_errors_wf (D L : dict value) : wf (merge_errors (Some D) (Some L)).
Proof.
  rewrite merge_errors_unfold. apply label_phase_wf, data_phase_wf. constructor.
Qed.

End Merge.

(** C7. The merged error table of a data store and a label store has one
    row per key of the union of the two stores; a key of both stores has
    one row with both sub-errors; for disjoint key sets the table has
    [len(data) + len(label)] rows and each row has exactly one sub-error. *)
Theorem merged_table_rows (data_results label_results : dict value) :
  wf data_results -> wf label_results ->
  let table := merge_errors (Some data_results) (Some label_results) in
  NoDup (keys table)
  /\ (forall k, In k (keys table)
                <-> In k (keys data_results) \/ In k (keys label_results))
  /\ (forall k d l,
        get data_results k = Some d -> get label_results k = Some l ->
        get table k = Some {| row_data := Some d; row_label := Some l |})
  /\ ((forall k, In k (keys data_results) -> ~ In k (keys label_results)) ->
      length table = length data_results + length label_results
      /\ forall k r, get table k = Some r ->
           (exists d, get data_results k = Some d
                      /\ r = {| row_data := Some d; row_label := None |})
           \/ (exists l, get label_results k = Some l
                         /\ r = {| row_data := None; row_label := Some l |})).
Proof.
  intros HD HL table.
  assert (Hin : forall k, In k (keys table)
                  <-> In k (keys data_results) \/ In k (keys label_results)).
  { intros k. rewrite <- !get_in_keys. unfold table.
    rewrite (merge_errors_get _ _ k HD HL).
    destruct (get data_results k), (get label_results k); intuition congruence. }
  split; [apply merge_errors_wf|].
  split; [exact Hin|].
  split.
  - intros k d l Hd Hl. unfold table.
    now rewrite (merge_errors_get _ _ k HD HL), Hd, Hl.
  - intros Hdisj. split.
    + assert (Hperm : Permutation (keys table)
                        (keys data_results ++ keys label_results)).
      { apply NoDup_Permutation.
        - apply merge_errors_wf.
        - apply NoDup_app; [exact HD | exact HL | exact Hdisj].
        - intros k. rewrite Hin, in_app_iff. reflexivity. }
      apply Permutation_length in Hperm.
      unfold keys in Hperm. rewrite length_app, !length_map in Hperm. exact Hperm.
    + intros k r. unfold table. rewrite (merge_errors_get _ _ k HD HL).
      destruct (get data_results k) as [d|] eqn:Ed,
               (get label_results k) as [l|] eqn:El; intros H; inversion H; subst.
      * exfalso. apply (Hdisj k); apply get_in_keys; congruence.
      * left. eauto.
      * right. eauto.
Qed.

Lemma merged_table_rows_witness :
  let D := [("a.png", VStr "upload failed"); ("b.png", VStr "timeout")] in
  let L := [("b.png", VStr "Label cannot be described."); ("c", VStr "bad json")] in
  wf D /\ wf L /\
  keys (merge_errors (Some D) (Some L)) = ["a.png"; "b.png"; "c"] /\
  NoDup (keys (merge_errors (Some D) (Some L))).
Proof.
  assert (HD : wf [("a.png", VStr "upload failed"); ("b.png", VStr "timeout")]).
  { unfold wf; simpl. repeat constructor; simpl; intuition discriminate. }
  assert (HL : wf [("b.png", VStr "Label cannot be described."); ("c", VStr "bad json")]).
  { unfold wf; simpl. repeat constructor; simpl; intuition discriminate. }
  split; [exact HD|]. split; [exact HL|]. split; [reflexivity|].
  exact (proj1 (merged_table_rows _ _ HD HL)).
Defined.

(** ** The paginated error reporter *)

(** C9 as stated fails: on an empty merged table the reporter returns at
    once (line 160) and prints no log pointer. *)
Lemma empty_table_prints_no_log_pointers :
  let w := sample_world describe_none (Ok JNull) true in
  merge_errors (Some []) (Some []) = []
  /\ ~ concludes_with_log_pointers w (trace (_print_error_table w (Some []) (Some []))).
Proof.
  split; [reflexivity|].
  intros [before H]. simpl in H.
  apply (f_equal (@length event)) in H.
  rewrite length_app in H. simpl in H. lia.
Qed.

(** C9, amended. The reporter always returns.  When the first key of the
    merged table is a non-empty string it prints the header, the pages, and
    concludes with the pointers to the two log files, whatever keys the
    operator presses; when the merged table is empty (or its first key is
    the empty string) it prints nothing at all, log pointers included. *)
Theorem reporter_concludes_unless_empty (w : World)
    (data_results label_results : option (dict value)) :
  let table := merge_errors data_results label_results in
  let run := _print_error_table w data_results label_results in
  outcome_of run = Ok tt
  /\ (if not_key (first_key table)
      then trace run = []
      else exists pages,
          trace run = Print "** Error Table **" :: pages ++ log_pointers w).
Proof.
  intros table run. unfold run, _print_error_table. fold table.
  destruct (not_key (first_key table)).
  - split; reflexivity.
  - split; [reflexivity|]. eexists. reflexivity.
Qed.

(** Twelve rows and an operator who quits at the first prompt: one page of
    ten rows, the prompt (1/2), and the log pointers all the same. *)
Example reporter_quit_still_points_to_logs :
  let w := pressing "Q" (sample_world describe_none (Ok JNull) true) in
  trace (_print_error_table w (Some twelve_errors) None)
  = [Print "** Error Table **";
     PrintTable ["FILE NAME"; "DATA UPLOAD"]
       [["A"; "boom"]; ["B"; "boom"]; ["C"; "boom"]; ["D"; "boom"]; ["E"; "boom"];
        ["F"; "boom"]; ["G"; "boom"]; ["H"; "boom"]; ["I"; "boom"]; ["J"; "boom"]];
     Prompt 1 2]
    ++ log_pointers w.
Proof. vm_compute. reflexivity. Qed.

(** ** The download step of one label *)


(** ** The label upload/sync task *)

Lemma identity_mismatch_spec (described_label : Label) (data_key dataset : string) :
  identity_mismatch described_label data_key dataset = true
  <-> label_data_key described_label <> data_key
      /\ label_dataset described_label <> dataset.
Proof.
  unfold identity_mismatch.
  destruct (String.eqb_spec (label_data_key described_label) data_key),
           (String.eqb_spec (label_dataset described_label) dataset);
    simpl; intuition congruence.
Qed.

(** What the first guarded block does once a remote label is described. *)
Lemma describe_and_check_described (w : World)
    (data_key project_id dataset : string) (res : handle)
    (described_label : Label) (others : list (option Label)) (total : Z) :
  let option := {| opt_project_id := project_id;
                   opt_dataset := Some dataset;
                   opt_data_key := Some data_key |} in
  run_describe_label w option 1 1 = Ok (Some described_label :: others, total) ->
  describe_and_check w data_key project_id dataset res
  = if identity_mismatch described_label data_key dataset
    then ([Call (DescribeLabel option 1 1);
           SetItem res data_key (VStr "Described label does not match to upload.");
           LogError data_key "Described label does not match to upload."],
          Ok None)
    else ([Call (DescribeLabel option 1 1)], Ok (Some described_label)).
Proof.
  intros option Hdesc.
  unfold describe_and_check, call_describe_label. fold option. rewrite Hdesc.
  cbn. destruct (identity_mismatch described_label data_key dataset); reflexivity.
Qed.

(** C4. When the local file exists and a remote label is described, the
    task records "Described label does not match to upload." and stops
    exactly when the described label differs from the request in both its
    dataset and its identity key; a label that agrees in one of the two
    passes the check and the task goes on with the update. *)
Theorem identity_check_rejects_iff_both_differ (w : World)
    (label_path project_id dataset : string) (res : handle)
    (described_label : Label) (others : list (option Label)) (total : Z) :
  let data_key := strip_extension label_path in
  let option := {| opt_project_id := project_id;
                   opt_dataset := Some dataset;
                   opt_data_key := Some data_key |} in
  isfile w label_path = true ->
  run_describe_label w option 1 1 = Ok (Some described_label :: others, total) ->
  (label_data_key described_label <> data_key
   /\ label_dataset described_label <> dataset ->
   _update_label w label_path project_id dataset res
   = ([Call (DescribeLabel option 1 1);
       SetItem res data_key (VStr "Described label does not match to upload.");
       LogError data_key "Described label does not match to upload."],
      Ok tt))
  /\ (label_data_key described_label = data_key
      \/ label_dataset described_label = dataset ->
      describe_and_check w data_key project_id dataset res
      = ([Call (DescribeLabel option 1 1)], Ok (Some described_label))
      /\ _update_label w label_path project_id dataset res
         = (emit (Call (DescribeLabel option 1 1)) ;;
            label <- seed_payload project_id described_label ;;
            sync_local_file w label_path data_key label res)).
Proof.
  intros data_key option Hfile Hdesc.
  pose proof (describe_and_check_described w data_key project_id dataset res
                described_label others total Hdesc) as Hcheck.
  fold option in Hcheck.
  split.
  - intros Hboth. apply identity_mismatch_spec in Hboth.
    unfold _update_label. fold data_key. rewrite Hfile, Hcheck, Hboth. reflexivity.
  - intros Hone.
    assert (Hno : identity_mismatch described_label data_key dataset = false).
    { destruct (identity_mismatch described_label data_key dataset) eqn:E;
        [|reflexivity].
      apply identity_mismatch_spec in E. tauto. }
    rewrite Hno in Hcheck. split; [exact Hcheck|].
    unfold _update_label. fold data_key. rewrite Hfile, Hcheck. cbn.
    destruct (seed_payload project_id described_label) as [t [label|e]]; cbn.
    + destruct (sync_local_file w label_path data_key label res); reflexivity.
    + reflexivity.
Qed.

Lemma identity_check_rejects_iff_both_differ_witness :
  let w := sample_world describe_one (Ok (JObj [("result", JStr "r")])) true in
  isfile w "other.json" = true
  /\ writes (trace (_update_label w "other.json" "p" "elsewhere" 0))
     = [SetItem 0 "other" (VStr "Described label does not match to upload.")]
  /\ writes (trace (_update_label w "other.json" "p" "ds" 0)) = []
  /\ writes (trace (_update_label w "a.json" "p" "elsewhere" 0)) = [].
Proof.
  split; [reflexivity|]. split; [|split].
  - rewrite (proj1 (identity_check_rejects_iff_both_differ
                      (sample_world describe_one (Ok (JObj [("result", JStr "r")])) true)
                      "other.json" "p" "elsewhere" 0 sample_label [] 1%Z
                      eq_refl eq_refl)).
    + reflexivity.
    + split; discriminate.
  - rewrite (proj2 (proj2 (identity_check_rejects_iff_both_differ
                      (sample_world describe_one (Ok (JObj [("result", JStr "r")])) true)
                      "other.json" "p" "ds" 0 sample_label [] 1%Z
                      eq_refl eq_refl) (or_intror eq_refl))).
    reflexivity.
  - rewrite (proj2 (proj2 (identity_check_rejects_iff_both_differ
                      (sample_world describe_one (Ok (JObj [("result", JStr "r")])) true)
                      "a.json" "p" "elsewhere" 0 sample_label [] 1%Z
                      eq_refl eq_refl) (or_introl eq_refl))).
    reflexivity.
Defined.

(** C5 as stated fails for an absent field: [json_data['result']] raises
    [KeyError], which the handler of line 298 records as an error. *)
Lemma absent_result_records_an_error :
  let json_data := JObj [("tags", JArr [])] in
  let w := sample_world describe_one (Ok json_data) true in
  py_in "result" json_data = Ok false
  /\ writes (trace (_update_label w "a.json" "p" "ds" 0))
     = [SetItem 0 "a" (VStr "'result'")]
  /\ ~ silent_skip (trace (_update_label w "a.json" "p" "ds" 0)).
Proof.
  split; [reflexivity|]. split; [reflexivity|].
  intros [H _]. discriminate H.
Qed.

(** C5, amended. When the task reaches the local file and parses it: if its
    [result] field is present and null, the task ends there without an
    error record, a remote update call or a write of the file; if reading
    the field raises (the field is absent), the task still makes no remote
    update call and does not write the file, and it returns normally. *)
Theorem null_result_is_a_silent_skip (w : World)
    (label_path project_id dataset : string) (res : handle)
    (described_label : Label) (others : list (option Label)) (total : Z)
    (tags : list Tag) (json_data : json) :
  let data_key := strip_extension label_path in
  let option := {| opt_project_id := project_id;
                   opt_dataset := Some dataset;
                   opt_data_key := Some data_key |} in
  let run := _update_label w label_path project_id dataset res in
  isfile w label_path = true ->
  run_describe_label w option 1 1 = Ok (Some described_label :: others, total) ->
  identity_mismatch described_label data_key dataset = false ->
  label_tags described_label = Some tags ->
  json_load w label_path = Ok json_data ->
  (py_getitem json_data "result" = Ok JNull ->
   run = ([Call (DescribeLabel option 1 1); Call (JsonLoad label_path)], Ok tt)
   /\ silent_skip (trace run))
  /\ (forall e, py_getitem json_data "result" = Raise e ->
      outcome_of run = Ok tt
      /\ filter is_update_call (trace run) = []
      /\ filter is_file_write (trace run) = []).
Proof.
  intros data_key option run Hfile Hdesc Hmatch Htags Hjson.
  pose proof (describe_and_check_described w data_key project_id dataset res
                described_label others total Hdesc) as Hcheck.
  rewrite Hmatch in Hcheck. fold option in Hcheck.
  unfold run, _update_label. fold data_key. rewrite Hfile, Hcheck.
  unfold seed_payload, sync_local_file, call_json_load.
  cbn [negb bind ret]. rewrite Htags, Hjson.
  split.
  - intros Hnull. rewrite Hnull. cbn. split; [reflexivity|].
    repeat split.
  - intros e Hraise. rewrite Hraise. cbn. repeat split.
Qed.

Lemma null_result_is_a_silent_skip_witness :
  let w := sample_world describe_one (Ok (JObj [("result", JNull)])) true in
  isfile w "a.json" = true
  /\ _update_label w "a.json" "p" "ds" 0
     = ([Call (DescribeLabel {| opt_project_id := "p";
                                opt_dataset := Some "ds";
                                opt_data_key := Some "a" |} 1 1);
         Call (JsonLoad "a.json")], Ok tt).
Proof.
  split; [reflexivity|].
  exact (proj1 (proj1 (null_result_is_a_silent_skip
                  (sample_world describe_one (Ok (JObj [("result", JNull)])) true)
                  "a.json" "p" "ds" 0 sample_label [] 1%Z [] (JObj [("result", JNull)])
                  eq_refl eq_refl eq_refl eq_refl eq_refl) eq_refl)).
Defined.

(** ** Faults at the task boundary *)

(** The asset upload task guards its remote call: it never raises, and a
    fault of the call becomes an error record under the asset's key. *)
Lemma upload_asset_catches_every_fault (w : World) (project_id : string)
    (asset_image : asset) (res : handle) :
  let run := _upload_asset w project_id asset_image res in
  outcome_of run = Ok tt
  /\ writes (trace run)
     = match run_create_data w asset_image project_id with
       | Ok _ => []
       | Raise e => [SetItem res (asset_data_key asset_image) (VStr (exn_str e))]
       end.
Proof.
  unfold _upload_asset, call_create_data.
  destruct (run_create_data w asset_image project_id) as [[]|e]; split; reflexivity.
Qed.

(** C1 fails for the download task. The page request of [_download_worker]
    (lines 205-207) is outside every guarded block: when it raises, the task
    raises the same fault to the pool and writes no error record. *)
Theorem download_worker_fault_escapes (w : World) (project_id : string)
    (page_idx : Z) (directory_path : string) (res : handle) (e : exn) :
  let option := {| opt_project_id := project_id;
                   opt_dataset := None;
                   opt_data_key := None |} in
  run_describe_label w option LABEL_DESCRIBE_PAGE_SIZE (page_idx + 1)%Z = Raise e ->
  _download_worker w project_id page_idx directory_path res
  = ([Call (DescribeLabel option LABEL_DESCRIBE_PAGE_SIZE (page_idx + 1)%Z)], Raise e)
  /\ writes (trace (_download_worker w project_id page_idx directory_path res)) = []
  /\ forall sched before after,
      Forall (fun t : Task unit => raises (outcome_of t) = false) before ->
      outcome_of
        (pool_imap sched
           (before
            ++ _download_worker w project_id page_idx directory_path res :: after))
      = Raise e.
Proof.
  intros option H.
  assert (Hrun : _download_worker w project_id page_idx directory_path res
                 = ([Call (DescribeLabel option LABEL_DESCRIBE_PAGE_SIZE
                             (page_idx + 1)%Z)], Raise e)).
  { unfold _download_worker, call_describe_label. fold option. now rewrite H. }
  split; [exact Hrun|]. split; [now rewrite Hrun|].
  intros sched before after Hbefore. rewrite Hrun. unfold pool_imap, outcome_of.
  simpl. rewrite map_app. simpl.
  induction Hbefore as [|[t [[]|e']] before Ht _ IH]; simpl;
    [reflexivity | exact IH | discriminate Ht].
Qed.

Lemma download_worker_fault_escapes_witness :
  let w := sample_world describe_page_fails (Ok JNull) true in
  let project := {| project_id := "p"; project_name := "demo" |} in
  run_describe_label w
    {| opt_project_id := "p"; opt_dataset := None; opt_data_key := None |}
    LABEL_DESCRIBE_PAGE_SIZE 1
  = Raise (Exc "ConnectionError" "connection refused")
  /\ outcome_of (_download_worker w "p" 0 "out" 0)
     = Raise (Exc "ConnectionError" "connection refused")
  /\ outcome_of (download w [] project "out" true)
     = Raise (Exc "ConnectionError" "connection refused").
Proof.
  split; [reflexivity|]. split; [|reflexivity].
  rewrite (proj1 (download_worker_fault_escapes
                    (sample_world describe_page_fails (Ok JNull) true)
                    "p" 0%Z "out" 0
                    (Exc "ConnectionError" "connection refused") eq_refl)).
  reflexivity.
Defined.

(** ** Success ratios *)

(** The upload summaries report 100 for a store without entries, also for
    an empty batch. *)
Lemma upload_ratio_of_empty_store (success total : Z) :
  ratio_unless_no_error success total [] = Ok 100%Q
  /\ ratio_unless_no_item 0 0 = Ok 100%Q.
Proof. split; reflexivity. Qed.

Lemma round_half_even_div_multiple (q d : Z) :
  (0 < d)%Z -> round_half_even_div (q * d) d = q.
Proof.
  intros Hd. unfold round_half_even_div.
  rewrite Z.div_mul, Z.mod_mul by lia.
  destruct d; try lia; reflexivity.
Qed.

Lemma py_truediv_float_same (total : Z) :
  (0 < total)%Z -> py_truediv_float total total = Ok (2 ^ 52, -52)%Z.
Proof.
  intros Hpos. unfold py_truediv_float, nearest_double.
  rewrite Z.abs_eq by lia.
  destruct (Z.eqb_spec total 0) as [|_]; [lia|].
  rewrite Z.sub_diag. change (Z.max 0 (- 0)) with 0%Z. change (Z.max 0 0) with 0%Z.
  rewrite Z.leb_refl. cbv zeta.
  change (Z.max (0 - 52) (-1074)) with (-52)%Z.
  change (Z.max 0 (- -52)) with 52%Z. change (Z.max 0 (-52)) with 0%Z.
  rewrite Z.pow_0_r, Z.mul_1_r, (Z.mul_comm total), round_half_even_div_multiple by lia.
  rewrite Z.sgn_pos by lia. reflexivity.
Qed.

(** With no failure among a positive number of items the computed ratio is
    100. *)
Lemma percentage_of_all (total : Z) :
  (0 < total)%Z -> percentage total total = Ok 100%Q.
Proof.
  intros Hpos. unfold percentage. rewrite py_truediv_float_same by exact Hpos.
  reflexivity.
Qed.

(** A quotient that is at most one is never too large for a float. *)
Lemma py_truediv_float_fraction (a b : Z) :
  (0 <= a <= b)%Z -> (0 < b)%Z -> exists x, py_truediv_float a b = Ok x.
Proof.
  intros Ha Hb. unfold py_truediv_float.
  destruct (Z.eqb_spec b 0) as [|_]; [lia|].
  rewrite !Z.abs_eq by lia.
  destruct (nearest_double a b) as [m e] eqn:E.
  enough (H : (negb (m =? 0) && (1024 <=? Z.log2 m + e) = false)%Z)
    by (rewrite H; eauto).
  unfold nearest_double in E.
  destruct (Z.eqb_spec a 0) as [->|Hnz].
  - inversion E; subst. reflexivity.
  - cbv zeta in E.
    set (d := (Z.log2 a - Z.log2 b)%Z) in *.
    set (e0 := (if (b * 2 ^ Z.max 0 d <=? a * 2 ^ Z.max 0 (- d))%Z
                then (d - 52)%Z else (d - 53)%Z)) in *.
    assert (Hd : (d <= 0)%Z)
      by (pose proof (Z.log2_le_mono a b ltac:(lia)); unfold d; lia).
    assert (He0 : (e0 <= -52)%Z) by (unfold e0; destruct (_ <=? _)%Z; lia).
    injection E as Hm He.
    assert (Hle : (e <= -52)%Z) by lia.
    assert (Hmax : Z.max 0 (Z.max e0 (-1074)) = 0%Z) by lia.
    rewrite He in *. rewrite Hmax in Hm.
    replace (Z.max 0 (- e)) with (- e)%Z in Hm by lia.
    rewrite Z.pow_0_r, Z.mul_1_r in Hm.
    pose proof (round_half_even_div_range (a * 2 ^ (- e)) b Hb) as Hr.
    cbv zeta in Hr. rewrite Hm in Hr.
    assert (Hpow : (0 < 2 ^ (- e))%Z) by (apply Z.pow_pos_nonneg; lia).
    assert (Hq : (a * 2 ^ (- e) / b <= 2 ^ (- e))%Z).
    { apply Z.div_le_upper_bound; [lia | nia]. }
    assert (Hq0 : (0 <= a * 2 ^ (- e) / b)%Z) by (apply Z.div_pos; nia).
    assert (Hm1 : (0 <= m <= 2 ^ (- e) + 1)%Z) by lia.
    destruct (Z.eqb_spec m 0) as [|Hm0]; [reflexivity|]. simpl.
    apply Z.leb_gt.
    assert (Hlog : (Z.log2 m < - e + 1)%Z).
    { apply Z.log2_lt_pow2; [lia|].
      rewrite Z.pow_add_r by lia.
      assert (2 <= 2 ^ (- e))%Z.
      { change 2%Z with (2 ^ 1)%Z at 1. apply Z.pow_le_mono_r; lia. }
      lia. }
    lia.
Qed.

Lemma percentage_defined (success total : Z) :
  (0 <= success <= total)%Z -> (0 < total)%Z ->
  exists q, percentage success total = Ok q.
Proof.
  intros Hs Ht. unfold percentage.
  destruct (py_truediv_float_fraction success total Hs Ht) as [x ->]. eauto.
Qed.

(** C2 fails for the download summary. When the probe reports no label the
    stores are empty, and line 138 divides by [label_count = 0]: the run
    raises [ZeroDivisionError] after the summary header instead of reporting
    100 percent. *)
Theorem download_of_nothing_divides_by_zero (w : World) (sched : list nat)
    (project : Project) (directory_path : string) (is_forced : bool)
    (labels : list (option Label)) :
  let option := {| opt_project_id := project_id project;
                   opt_dataset := None;
                   opt_data_key := None |} in
  run_describe_label w option 1 1 = Ok (labels, 0%Z) ->
  download w sched project directory_path is_forced
  = ([Call (DescribeLabel option 1 1); Print "** Result Summary **"],
     Raise (Exc "ZeroDivisionError" "division by zero")).
Proof.
  intros option H. unfold download, _count_labels, call_describe_label.
  fold option. rewrite H. reflexivity.
Qed.

Lemma download_of_nothing_divides_by_zero_witness :
  let w := sample_world describe_none (Ok JNull) true in
  let project := {| project_id := "p"; project_name := "demo" |} in
  run_describe_label w
    {| opt_project_id := "p"; opt_dataset := None; opt_data_key := None |} 1 1
  = Ok ([], 0%Z)
  /\ outcome_of (download w [] project "out" true)
     = Raise (Exc "ZeroDivisionError" "division by zero").
Proof.
  split; [reflexivity|].
  rewrite (download_of_nothing_divides_by_zero
             (sample_world describe_none (Ok JNull) true) []
             {| project_id := "p"; project_name := "demo" |} "out" true []
             eq_refl).
  reflexivity.
Defined.

(** ** The count probe *)

(** C3 fails. When the probe raises, the handler of [_count_labels] calls
    [logger.warning] with the keyword [exec_info], which [Logger._log] does
    not accept: with warnings enabled the handler itself raises [TypeError]
    and the probe returns nothing.  With warnings disabled the probe does
    return 0, and the summary of [download] then divides by zero.  Either
    way the download run raises. *)
Theorem probe_failure_is_raised (w : World) (sched : list nat)
    (project : Project) (directory_path : string) (is_forced : bool) (e : exn) :
  let option := {| opt_project_id := project_id project;
                   opt_dataset := None;
                   opt_data_key := None |} in
  run_describe_label w option 1 1 = Raise e ->
  raises (outcome_of (download w sched project directory_path is_forced)) = true
  /\ (warning_enabled w = true ->
      _count_labels w (project_id project)
      = ([Call (DescribeLabel option 1 1)],
         Raise (Exc "TypeError"
                  "Logger._log() got an unexpected keyword argument 'exec_info'")))
  /\ (warning_enabled w = false ->
      _count_labels w (project_id project)
      = ([Call (DescribeLabel option 1 1)], Ok 0%Z)
      /\ outcome_of (download w sched project directory_path is_forced)
         = Raise (Exc "ZeroDivisionError" "division by zero")).
Proof.
  intros option H.
  assert (Hcount : _count_labels w (project_id project)
                   = if warning_enabled w
                     then ([Call (DescribeLabel option 1 1)],
                           Raise (Exc "TypeError"
                             "Logger._log() got an unexpected keyword argument 'exec_info'"))
                     else ([Call (DescribeLabel option 1 1)], Ok 0%Z)).
  { unfold _count_labels, call_describe_label, logger_warning. fold option.
    rewrite H. destruct (warning_enabled w); reflexivity. }
  split; [|split].
  - unfold download. rewrite Hcount. destruct (warning_enabled w); reflexivity.
  - intros Hw. now rewrite Hcount, Hw.
  - intros Hw. split; [now rewrite Hcount, Hw|].
    unfold download. rewrite Hcount, Hw. reflexivity.
Qed.

Lemma probe_failure_is_raised_witness :
  let w := sample_world describe_fails (Ok JNull) true in
  let project := {| project_id := "p"; project_name := "demo" |} in
  run_describe_label w
    {| opt_project_id := "p"; opt_dataset := None; opt_data_key := None |} 1 1
  = Raise (Exc "ConnectionError" "connection refused")
  /\ raises (outcome_of (download w [] project "out" true)) = true
  /\ outcome_of (_count_labels w "p")
     = Raise (Exc "TypeError"
                "Logger._log() got an unexpected keyword argument 'exec_info'").
Proof.
  split; [reflexivity|].
  pose proof (probe_failure_is_raised
                (sample_world describe_fails (Ok JNull) true) []
                {| project_id := "p"; project_name := "demo" |} "out" true
                (Exc "ConnectionError" "connection refused") eq_refl) as [H1 [H2 _]].
  split; [exact H1|]. simpl in H2. rewrite (H2 eq_refl). reflexivity.
Defined.

(** ** The shared result mapping of a batch *)

Section Pool.

Lemma take_event_in (i : nat) (ts ts' : list (list event)) (ev x : event) :
  take_event i ts = Some (ev, ts') ->
  In x (concat ts) <-> x = ev \/ In x (concat ts').
Proof.
  revert i ts'. induction ts as [|t ts IH]; intros i ts' H.
  - destruct i; discriminate H.
  - destruct i as [|i].
    + destruct t as [|e t]; simpl in H; [discriminate H|].
      inversion H; subst. simpl. intuition congruence.
    + assert (H' : match take_event i ts with
                   | Some (ev, ts'') => Some (ev, t :: ts'')
                   | None => None
                   end = Some (ev, ts')) by (destruct t; exact H).
      destruct (take_event i ts) as [[ev0 ts0]|] eqn:E; [|discriminate H'].
      inversion H'; subst. simpl. rewrite !in_app_iff, (IH _ _ E). tauto.
Qed.

(** A schedule reorders the workers' events; it neither drops nor adds
    one. *)
Lemma interleave_in (sched : list nat) (ts : list (list event)) (x : event) :
  In x (interleave sched ts) <-> In x (concat ts).
Proof.
  revert ts. induction sched as [|i sched IH]; intros ts; simpl; [reflexivity|].
  destruct (take_event i ts) as [[ev ts']|] eqn:E.
  - simpl. rewrite IH, (take_event_in _ _ _ _ x E). intuition congruence.
  - apply IH.
Qed.

Lemma take_event_length (i : nat) (ts ts' : list (list event)) (ev : event) :
  take_event i ts = Some (ev, ts') -> length ts' = length ts.
Proof.
  revert i ts'. induction ts as [|t ts IH]; intros i ts' H.
  - destruct i; discriminate H.
  - destruct i as [|i].
    + destruct t as [|e t]; simpl in H; [discriminate H|].
      inversion H; subst. reflexivity.
    + assert (H' : match take_event i ts with
                   | Some (ev, ts'') => Some (ev, t :: ts'')
                   | None => None
                   end = Some (ev, ts')) by (destruct t; exact H).
      destruct (take_event i ts) as [[ev0 ts0]|] eqn:E; [|discriminate H'].
      inversion H'; subst. simpl. f_equal. exact (IH _ _ E).
Qed.

Lemma run_schedule_length (sched : list nat) (ts : list (list event)) :
  length (snd (run_schedule sched ts)) = length ts.
Proof.
  revert ts. induction sched as [|i sched IH]; intros ts; simpl; [reflexivity|].
  destruct (take_event i ts) as [[ev ts']|] eqn:E; [|apply IH].
  simpl. rewrite IH. exact (take_event_length _ _ _ _ E).
Qed.

(** A joined pool: the scheduled events, then what every worker had left. *)
Lemma run_schedule_joined (sched : list nat) (ts : list (list event)) :
  interleave sched ts
  = fst (run_schedule sched ts) ++ concat (snd (run_schedule sched ts)).
Proof.
  revert ts. induction sched as [|i sched IH]; intros ts; simpl; [reflexivity|].
  destruct (take_event i ts) as [[ev ts']|] eqn:E; [|apply IH].
  simpl. now rewrite IH.
Qed.

Lemma run_schedule_nil (sched : list nat) : run_schedule sched [] = ([], []).
Proof. induction sched as [|[|i] sched IH]; simpl; [reflexivity | exact IH | exact IH]. Qed.

Lemma received_all (outs : list (outcome unit)) :
  first_raise outs = Ok tt -> received outs = length outs.
Proof.
  induction outs as [|[u|e] outs IH]; simpl; intros H;
    [reflexivity | now rewrite IH | discriminate H].
Qed.

(** When no task raises the pool is joined: every worker runs to its end. *)
Lemma pool_trace_joined (sched : list nat) (tasks : list (Task unit)) :
  first_raise (map outcome_of tasks) = Ok tt ->
  trace (pool_imap sched tasks) = interleave sched (map trace tasks).
Proof.
  intros H. unfold pool_imap, trace at 1. simpl.
  rewrite (received_all _ H), run_schedule_joined, length_map.
  rewrite <- (length_map trace tasks), <- (run_schedule_length sched (map trace tasks)).
  now rewrite firstn_all.
Qed.

(** Whatever the tasks do, the pool's trace begins the joined pool's. *)
Lemma pool_trace_prefix (sched : list nat) (tasks : list (Task unit)) :
  exists rest,
    interleave sched (map trace tasks) = trace (pool_imap sched tasks) ++ rest.
Proof.
  unfold pool_imap, trace at 1. simpl. rewrite run_schedule_joined.
  set (n := received (map outcome_of tasks)).
  set (left := snd (run_schedule sched (map trace tasks))).
  exists (concat (skipn n left)).
  now rewrite <- app_assoc, <- concat_app, firstn_skipn.
Qed.

Lemma pool_imap_nil (sched : list nat) : pool_imap sched [] = ret tt.
Proof. unfold pool_imap. simpl. now rewrite run_schedule_nil. Qed.

(** An effect of the pool is an effect of one of its tasks. *)
Lemma pool_trace_sub (sched : list nat) (runs : list (Task unit)) (x : event) :
  In x (trace (pool_imap sched runs)) ->
  exists t, In t runs /\ In x (trace t).
Proof.
  intros H. destruct (pool_trace_prefix sched runs) as [rest Hrest].
  assert (Hin : In x (interleave sched (map trace runs)))
    by (rewrite Hrest; apply in_or_app; now left).
  rewrite interleave_in, in_concat in Hin. destruct Hin as [tr [Htr Hx]].
  apply in_map_iff in Htr as [t [<- Ht]]. eauto.
Qed.

(** When no task raises, every effect of every task is an effect of the
    pool. *)
Lemma pool_trace_all (sched : list nat) (runs : list (Task unit)) (x : event) :
  first_raise (map outcome_of runs) = Ok tt ->
  (exists t, In t runs /\ In x (trace t)) ->
  In x (trace (pool_imap sched runs)).
Proof.
  intros Hok [t [Ht Hx]]. rewrite (pool_trace_joined _ _ Hok).
  rewrite interleave_in, in_concat. exists (trace t).
  split; [now apply in_map | exact Hx].
Qed.

Lemma replay_cons (ev : event) (tr : list event) (h : heap) :
  replay (ev :: tr) h
  = replay tr (match ev with SetItem r key v => setitem h r key v | _ => h end).
Proof. reflexivity. Qed.

Lemma replay_keys (tr : list event) (h : heap) (d : handle) (k : string) :
  In k (keys (objs (replay tr h) d))
  <-> In k (keys (objs h d)) \/ exists v, In (SetItem d k v) tr.
Proof.
  revert h. induction tr as [|ev tr IH]; intros h.
  - simpl. split; [auto | intros [H|[v []]]; exact H].
  - rewrite replay_cons, IH.
    assert (Hother : (exists v, In (SetItem d k v) (ev :: tr))
                     <-> (exists v, ev = SetItem d k v)
                         \/ exists v, In (SetItem d k v) tr).
    { simpl. split.
      - intros [v [H|H]]; eauto.
      - intros [[v H]|[v H]]; eauto. }
    rewrite Hother.
    destruct ev as [r key v0| | | | | | | | |];
      try (split; [tauto | intros [H|[[v H]|H]]; [tauto | discriminate H | tauto]]).
    simpl. destruct (Nat.eqb_spec d r) as [->|Hne].
    + rewrite in_keys_set. split.
      * intros [[->|H]|H]; eauto.
      * intros [H|[[v H]|H]]; auto. inversion H; subst. auto.
    + split; [tauto|]. intros [H|[[v H]|H]]; auto. inversion H; subst. congruence.
Qed.

Lemma replay_get (tr : list event) (h : heap) (d : handle) (k : string) (v : value) :
  get (objs (replay tr h) d) k = Some v ->
  get (objs h d) k = Some v \/ In (SetItem d k v) tr.
Proof.
  revert h. induction tr as [|ev tr IH]; intros h H; [now left|].
  rewrite replay_cons in H. apply IH in H as [H|H]; [|right; now right].
  destruct ev as [r key v0| | | | | | | | |]; try (now left).
  simpl in H. destruct (Nat.eqb_spec d r) as [->|Hne]; [|now left].
  destruct (String.eqb_spec k key) as [->|Hk].
  - rewrite get_set_same in H. inversion H; subst. right. now left.
  - rewrite get_set_other in H by exact Hk. now left.
Qed.

(** After a pool in which no task raised, a mapping that was empty holds
    the error records the workers wrote into it, and only these. *)
Lemma pool_collects (sched : list nat) (runs : list (Task unit)) (h : heap)
    (d : handle) :
  objs h d = [] ->
  first_raise (map outcome_of runs) = Ok tt ->
  collects runs d (objs (replay (trace (pool_imap sched runs)) h) d).
Proof.
  intros Hempty Hok. split.
  - intros k. rewrite replay_keys, Hempty. simpl. split.
    + intros [[]|[v H]]. apply pool_trace_sub in H as [t [Ht H]]. eauto.
    + intros [t [v [Ht H]]]. right. exists v. apply pool_trace_all; eauto.
  - intros k v H. apply replay_get in H as [H|H].
    + rewrite Hempty in H. discriminate H.
    + apply pool_trace_sub in H. exact H.
Qed.

Lemma manager_dict_fresh (h0 : heap) :
  objs (snd (manager_dict h0)) (fst (manager_dict h0)) = [].
Proof. simpl. now rewrite Nat.eqb_refl. Qed.

End Pool.

(** *** Every task writes to the mapping it is given, and to no other *)

Section WritesOnlyTo.

Variable r : handle.

Lemma wo_bind {A B} (m : Task A) (f : A -> Task B) :
  writes_only_to r (trace m) ->
  (forall a, writes_only_to r (trace (f a))) ->
  writes_only_to r (trace (bind m f)).
Proof.
  unfold writes_only_to. destruct m as [t [a|e]]; simpl; intros H1 H2; [|exact H1].
  specialize (H2 a). destruct (f a) as [t' o]. simpl in *. now apply Forall_app.
Qed.

Lemma wo_try {A} (m : Task A) (handler : exn -> Task A) :
  writes_only_to r (trace m) ->
  (forall e, writes_only_to r (trace (handler e))) ->
  writes_only_to r (trace (try_except m handler)).
Proof.
  unfold writes_only_to. destruct m as [t [a|e]]; simpl; intros H1 H2; [exact H1|].
  specialize (H2 e). destruct (handler e) as [t' o]. simpl in *. now apply Forall_app.
Qed.

Lemma wo_set_error_result (key message : string) (res : dictref) :
  res = Shared r \/ res = Local ->
  writes_only_to r (trace (_set_error_result key res message)).
Proof.
  intros [->| ->]; unfold writes_only_to; simpl; repeat constructor.
Qed.

Lemma wo_for_each {A} (l : list A) (body : A -> Task unit) :
  (forall x, writes_only_to r (trace (body x))) ->
  writes_only_to r (trace (for_each l body)).
Proof.
  intros H. induction l as [|x l IH]; simpl; [constructor|].
  apply wo_bind; [apply H | intros _; exact IH].
Qed.

Ltac wo :=
  repeat (intros;
    match goal with
    | |- writes_only_to _ (trace (bind _ _)) => apply wo_bind
    | |- writes_only_to _ (trace (try_except _ _)) => apply wo_try
    | |- writes_only_to _ (trace (_set_error_result _ _ _)) =>
        apply wo_set_error_result; auto
    | |- writes_only_to _ (trace (for_each _ _)) => apply wo_for_each
    | |- writes_only_to _ (trace (if ?b then _ else _)) => destruct b
    | |- writes_only_to _ (trace (match ?x with _ => _ end)) => destruct x
    | |- writes_only_to _ (trace _) =>
        solve [unfold writes_only_to, call_create_data, call_describe_label,
                 call_update_label, call_json_load, call_write_text,
                 call_write_bytes, call_http_get, call_makedirs;
               simpl; repeat constructor]
    end).

Lemma wo_upload_asset (w : World) (project_id : string) (asset_image : asset) :
  writes_only_to r (trace (_upload_asset w project_id asset_image r)).
Proof. unfold _upload_asset. wo. Qed.

Lemma wo_update_label (w : World) (label_path project_id dataset : string) :
  writes_only_to r (trace (_update_label w label_path project_id dataset r)).
Proof.
  unfold _update_label, describe_and_check, seed_payload, sync_local_file. wo.
Qed.

Lemma wo_download_worker (w : World) (project_id : string) (page_idx : Z)
    (directory_path : string) :
  writes_only_to r (trace (_download_worker w project_id page_idx directory_path r)).
Proof.
  unfold _download_worker, download_label, download_pair. wo.
Qed.

End WritesOnlyTo.

Lemma py_repeat_index0 {A} (d : A) (n : Z) :
  (0 < n)%Z -> py_index0 (py_repeat d n) = Ok d.
Proof.
  intros Hn. unfold py_repeat.
  destruct (Z.to_nat n) as [|m] eqn:E; [lia | reflexivity].
Qed.

(** Two label files whose remote label cannot be described: both failures
    are read back from index 0, for the schedule that alternates the two
    workers. *)
Example upload_label_two_failures :
  let w := {| isfile := fun _ => true;
              run_create_data := fun _ _ => Ok tt;
              run_describe_label := describe_none;
              run_update_label := fun _ => Ok sample_label;
              json_load := fun _ => Ok JNull;
              write_text := fun _ _ => Ok tt;
              write_bytes := fun _ _ => Ok tt;
              http_get := fun _ => Ok "bytes";
              makedirs_parent := fun _ => Ok tt;
              toJson := fun _ => "{}";
              recursive_glob_image_files := fun _ => [];
              recursive_glob_label_files := fun _ => ["a.json"; "b.json"];
              confirm := true;
              getchar := fun _ => "n"%char;
              warning_enabled := true;
              simple_log_file := "spb_simple.log";
              log_file := "spb.log" |} in
  filter (fun ev => match ev with Call _ | LogError _ _ => false | _ => true end)
    (trace (upload_label w [1; 0; 1; 0] {| project_id := "p"; project_name := "demo" |}
              "ds" "dir" true))
  = [SetItem 0 "b" (VStr "Label cannot be described.");
     SetItem 0 "a" (VStr "Label cannot be described.");
     Print "** Result Summary **";
     SummaryLine "labels" 0 2 0 2;
     Print "** Error Table **";
     PrintTable ["FILE NAME"; "LABEL UPLOAD"]
       [["b"; "Label cannot be described."]; ["a"; "Label cannot be described."]];
     ConsoleLog "Check the log file for more details";
     ConsoleLog "- spb_simple.log";
     ConsoleLog "- spb.log"].
Proof. vm_compute. reflexivity. Qed.

(** * Further properties of the module *)

(** ** Identity keys and local paths *)

Section Strings.

Lemma py_split_nonempty (c : ascii) (s : string) : py_split c s <> [].
Proof.
  destruct s as [|a r]; simpl; [discriminate|].
  destruct (Ascii.eqb a c); [discriminate|].
  destruct (py_split c r); discriminate.
Qed.

Lemma py_split_no_sep (c : ascii) (s : string) :
  has_char c s = false -> py_split c s = [s].
Proof.
  induction s as [|a r IH]; simpl; [reflexivity|].
  destruct (Ascii.eqb a c); simpl; [discriminate|].
  intros H. now rewrite (IH H).
Qed.

(** [(s + c + t).split(c) == s.split(c) + t.split(c)] *)
Lemma py_split_app (c : ascii) (s t : string) :
  py_split c (s ++ String c t)%string = py_split c s ++ py_split c t.
Proof.
  induction s as [|a r IH]; simpl.
  - now rewrite Ascii.eqb_refl.
  - destruct (Ascii.eqb a c); [now rewrite IH|].
    rewrite IH. pose proof (py_split_nonempty c r) as Hne.
    destruct (py_split c r); [congruence | reflexivity].
Qed.

Lemma concat_cons_nonempty (sep x : string) (l : list string) :
  l <> [] -> String.concat sep (x :: l) = (x ++ sep ++ String.concat sep l)%string.
Proof. destruct l; [congruence | reflexivity]. Qed.

(** [c.join(s.split(c)) == s] *)
Lemma py_join_split (c : ascii) (s : string) :
  py_join (String c "") (py_split c s) = s.
Proof.
  unfold py_join. induction s as [|a r IH]; simpl; [reflexivity|].
  destruct (Ascii.eqb_spec a c) as [->|Hne].
  - rewrite concat_cons_nonempty by apply py_split_nonempty. now rewrite IH.
  - pose proof (py_split_nonempty c r) as Hne'.
    destruct (py_split c r) as [|h t]; [congruence|].
    destruct t as [|h' t].
    + simpl in *. now rewrite IH.
    + change (String.concat (String c "") (String a h :: h' :: t))
        with (String a (h ++ String c "" ++ String.concat (String c "") (h' :: t)))%string.
      f_equal. exact IH.
Qed.

Lemma prefix_app (a b : string) : String.prefix a (a ++ b)%string = true.
Proof.
  induction a as [|c a IH]; simpl; [now destruct b|].
  destruct (Ascii.ascii_dec c c); [exact IH | congruence].
Qed.

Lemma startswith_app_nonempty (c : ascii) (r x : string) :
  startswith (String c r ++ x)%string "/" = startswith (String c r) "/".
Proof.
  unfold startswith. cbn [append String.prefix].
  destruct (Ascii.ascii_dec "/" c); [|reflexivity].
  destruct r; destruct x; reflexivity.
Qed.

Lemma prefix_os_path_join (a b : string) :
  startswith b "/" = false -> String.prefix a (os_path_join a b) = true.
Proof.
  intros H. unfold os_path_join. rewrite H.
  destruct (String.eqb a "" || endswith_sep a)%bool; apply prefix_app.
Qed.

End Strings.

(** X1. The identity key of a label file is its path without the last
    extension: for a path [stem.ext] whose extension has no dot the key is
    [stem], whatever dots and slashes the stem has; a path without any dot
    has the empty key. *)
Theorem strip_extension_stem (stem ext : string) :
  has_char "." ext = false ->
  strip_extension (stem ++ "." ++ ext)%string = stem
  /\ strip_extension ext = "".
Proof.
  intros Hext. unfold strip_extension. split.
  - change (stem ++ "." ++ ext)%string with (stem ++ String "." ext)%string.
    rewrite py_split_app, (py_split_no_sep _ _ Hext), removelast_last.
    apply (py_join_split ".").
  - now rewrite (py_split_no_sep _ _ Hext).
Qed.

Lemma strip_extension_stem_witness :
  has_char "." "json" = false
  /\ strip_extension "train/img.001.json" = "train/img.001"
  /\ strip_extension "json" = "".
Proof.
  split; [reflexivity|].
  exact (strip_extension_stem "train/img.001" "json" eq_refl).
Defined.

(** X2. A downloaded label is written below the destination directory: when
    the dataset name is not absolute and the identity key, less one leading
    slash, is not absolute either, the local path starts with the
    destination directory, and a key with a leading slash has the path of
    the key without it. *)
Theorem label_local_path_below_directory (directory_path : string) (label : Label) :
  let key := if startswith (label_data_key label) "/"
             then slice_from_1 (label_data_key label)
             else label_data_key label in
  startswith (label_dataset label) "/" = false ->
  startswith key "/" = false ->
  String.prefix directory_path (label_local_path directory_path label) = true
  /\ label_local_path directory_path label
     = os_path_join directory_path (os_path_join (label_dataset label) key).
Proof.
  intros key Hds Hkey.
  assert (Hpath : label_local_path directory_path label
                  = os_path_join directory_path
                      (os_path_join (label_dataset label) key)).
  { unfold label_local_path, key.
    destruct (startswith (label_data_key label) "/"); reflexivity. }
  split; [|exact Hpath]. rewrite Hpath. apply prefix_os_path_join.
  unfold os_path_join. rewrite Hkey.
  destruct (label_dataset label) as [|c ds] eqn:E.
  - exact Hkey.
  - destruct (String.eqb (String c ds) "" || endswith_sep (String c ds))%bool;
      rewrite startswith_app_nonempty; exact Hds.
Qed.

Lemma label_local_path_below_directory_witness :
  let label := {| label_id := "L1"; label_dataset := "cats";
                  label_data_key := "/2021/a.png"; label_data_url := "u";
                  label_result := JNull; label_tags := Some [] |} in
  startswith (label_dataset label) "/" = false
  /\ label_local_path "out" label = "out/cats/2021/a.png"
  /\ String.prefix "out" (label_local_path "out" label) = true.
Proof.
  split; [reflexivity|]. split; [reflexivity|].
  exact (proj1 (label_local_path_below_directory "out"
                  {| label_id := "L1"; label_dataset := "cats";
                     label_data_key := "/2021/a.png"; label_data_url := "u";
                     label_result := JNull; label_tags := Some [] |}
                  eq_refl eq_refl)).
Defined.

(** X3. Only one leading slash of the identity key is removed: a key that
    starts with two slashes is written at the absolute path made of the rest
    of the key, whatever the destination directory and the dataset are. *)
Theorem label_local_path_double_slash (directory_path rest : string) (label : Label) :
  label_data_key label = ("//" ++ rest)%string ->
  label_local_path directory_path label = ("/" ++ rest)%string.
Proof.
  intros H. unfold label_local_path. rewrite H.
  assert (Hs : forall x, startswith (String "/" x) "/" = true)
    by (intros x; unfold startswith; cbn; now destruct x).
  change ("//" ++ rest)%string with (String "/" (String "/" rest)).
  rewrite Hs. cbn [slice_from_1].
  unfold os_path_join at 2. rewrite Hs.
  unfold os_path_join. rewrite Hs. reflexivity.
Qed.

Lemma label_local_path_double_slash_witness :
  let label := {| label_id := "L1"; label_dataset := "cats";
                  label_data_key := "//etc/a.png"; label_data_url := "u";
                  label_result := JNull; label_tags := Some [] |} in
  label_data_key label = "//etc/a.png"
  /\ label_local_path "out" label = "/etc/a.png".
Proof.
  split; [reflexivity|].
  exact (label_local_path_double_slash "out" "etc/a.png"
           {| label_id := "L1"; label_dataset := "cats";
              label_data_key := "//etc/a.png"; label_data_url := "u";
              label_result := JNull; label_tags := Some [] |} eq_refl).
Defined.

(** ** The upload tasks, case by case *)

(** X4. The asset upload task makes exactly one remote call, [create_data]
    with the descriptor and the project id; it never raises; when the call
    raises it stores [str(e)] under the descriptor's data key, and otherwise
    it stores nothing. *)
Theorem upload_asset_run (w : World) (project_id : string) (asset_image : asset)
    (res : handle) :
  let run := _upload_asset w project_id asset_image res in
  outcome_of run = Ok tt
  /\ calls (trace run) = [CreateData asset_image project_id]
  /\ writes (trace run)
     = match run_create_data w asset_image project_id with
       | Ok _ => []
       | Raise e => [SetItem res (asset_data_key asset_image) (VStr (exn_str e))]
       end.
Proof.
  unfold _upload_asset, call_create_data.
  destruct (run_create_data w asset_image project_id) as [[]|e];
    repeat split; reflexivity.
Qed.

(** X5. The label task stops early, with one error record under the
    label's identity key and without any update call or file write, in
    three cases: the file is missing ("Label json file is not existed.",
    with no remote call at all); the describe call returns no label, or
    [None] first ("Label cannot be described."); the describe call raises
    (its [str(e)]). *)
Theorem update_label_early_failures (w : World)
    (label_path project_id dataset : string) (res : handle) :
  let data_key := strip_extension label_path in
  let option := {| opt_project_id := project_id;
                   opt_dataset := Some dataset;
                   opt_data_key := Some data_key |} in
  let run := _update_label w label_path project_id dataset res in
  let stopped_with calls message :=
    run = (map Call calls
           ++ [SetItem res data_key (VStr message); LogError data_key message],
           Ok tt) in
  (isfile w label_path = false ->
   stopped_with [] "Label json file is not existed.")
  /\ (isfile w label_path = true ->
      (forall others total,
          run_describe_label w option 1 1 = Ok (None :: others, total) ->
          stopped_with [DescribeLabel option 1 1] "Label cannot be described.")
      /\ (forall total,
          run_describe_label w option 1 1 = Ok ([], total) ->
          stopped_with [DescribeLabel option 1 1] "Label cannot be described.")
      /\ (forall e,
          run_describe_label w option 1 1 = Raise e ->
          stopped_with [DescribeLabel option 1 1] (exn_str e))).
Proof.
  intros data_key option run stopped_with. unfold stopped_with, run, _update_label.
  fold data_key. split.
  - intros ->. reflexivity.
  - intros ->. unfold describe_and_check, call_describe_label. fold option.
    repeat split; intros; rewrite H; reflexivity.
Qed.

Lemma update_label_early_failures_witness :
  let w := sample_world describe_fails (Ok JNull) true in
  isfile w "a.json" = true
  /\ writes (trace (_update_label w "a.json" "p" "ds" 0))
     = [SetItem 0 "a" (VStr "connection refused")].
Proof.
  split; [reflexivity|].
  rewrite (proj2 (proj2 (proj2 (update_label_early_failures
             (sample_world describe_fails (Ok JNull) true) "a.json" "p" "ds" 0)
             eq_refl)) (Exc "ConnectionError" "connection refused") eq_refl).
  reflexivity.
Defined.

(** X6. When the described label matches and the local file holds an object
    with a non-null [result], the task calls [update_label] once, with the
    remote label's id, the project id, the local [result], and the local
    [tags] when the file has that field (the remote tags' data otherwise).
    If the call raises, [str(e)] is recorded and the file is not written;
    otherwise the file is written with the JSON of the label the call
    returned, and a fault of that write is recorded. *)
Theorem update_label_overlay (w : World)
    (label_path project_id dataset : string) (res : handle)
    (described_label : Label) (others : list (option Label)) (total : Z)
    (tags : list Tag) (members : dict json) (local_result : json) :
  let data_key := strip_extension label_path in
  let option := {| opt_project_id := project_id;
                   opt_dataset := Some dataset;
                   opt_data_key := Some data_key |} in
  let payload :=
    {| upd_id := label_id described_label;
       upd_project_id := project_id;
       upd_tags := match get members "tags" with
                   | Some local_tags => local_tags
                   | None => JArr (map get_datas tags)
                   end;
       upd_result := local_result |} in
  let record e :=
    [SetItem res data_key (VStr (exn_str e)); LogError data_key (exn_str e)] in
  isfile w label_path = true ->
  run_describe_label w option 1 1 = Ok (Some described_label :: others, total) ->
  identity_mismatch described_label data_key dataset = false ->
  label_tags described_label = Some tags ->
  json_load w label_path = Ok (JObj members) ->
  get members "result" = Some local_result ->
  is_None local_result = false ->
  _update_label w label_path project_id dataset res
  = ([Call (DescribeLabel option 1 1); Call (JsonLoad label_path);
      Call (UpdateLabel payload)]
     ++ match run_update_label w payload with
        | Raise e => record e
        | Ok updated =>
            Call (WriteText label_path (toJson w updated))
            :: match write_text w label_path (toJson w updated) with
               | Ok _ => []
               | Raise e => record e
               end
        end,
     Ok tt).
Proof.
  intros data_key option payload record Hfile Hdesc Hmatch Htags Hjson Hres Hnn.
  pose proof (describe_and_check_described w data_key project_id dataset res
                described_label others total Hdesc) as Hcheck.
  rewrite Hmatch in Hcheck. fold option in Hcheck.
  unfold _update_label. fold data_key. rewrite Hfile, Hcheck.
  unfold seed_payload, sync_local_file, call_json_load.
  cbn [negb bind ret]. rewrite Htags, Hjson.
  unfold py_getitem, py_in, contains. rewrite Hres.
  cbn [bind ret lift app fst snd]. rewrite Hnn.
  cbn [bind ret lift app fst snd upd_id upd_project_id upd_tags upd_result].
  unfold call_update_label, call_write_text. subst payload record.
  destruct (get members "tags") as [local_tags|];
    cbn [bind ret lift app fst snd upd_id upd_project_id upd_tags upd_result
         try_except];
    match goal with
    | |- context [run_update_label w ?p] =>
        destruct (run_update_label w p) as [updated|e]
    end;
    cbn [bind ret lift app fst snd try_except];
    try (destruct (write_text w label_path (toJson w updated)) as [[]|e]);
    reflexivity.
Qed.

Lemma update_label_overlay_witness :
  let members := [("result", JStr "r"); ("tags", JArr [JStr "t"])] in
  let w := sample_world describe_one (Ok (JObj members)) true in
  isfile w "a.json" = true
  /\ calls (trace (_update_label w "a.json" "p" "ds" 0))
     = [DescribeLabel {| opt_project_id := "p"; opt_dataset := Some "ds";
                         opt_data_key := Some "a" |} 1 1;
        JsonLoad "a.json";
        UpdateLabel {| upd_id := "L1"; upd_project_id := "p";
                       upd_tags := JArr [JStr "t"]; upd_result := JStr "r" |};
        WriteText "a.json" "{}"].
Proof.
  split; [reflexivity|].
  rewrite (update_label_overlay
             (sample_world describe_one
                (Ok (JObj [("result", JStr "r"); ("tags", JArr [JStr "t"])])) true)
             "a.json" "p" "ds" 0 sample_label [] 1%Z []
             [("result", JStr "r"); ("tags", JArr [JStr "t"])] (JStr "r")
             eq_refl eq_refl eq_refl eq_refl eq_refl eq_refl eq_refl).
  reflexivity.
Defined.

(** X7. Whatever the collaborators answer, the label task stores at most
    one error record, and stores it under the label's identity key; and a
    run that stored a record returns normally: a failure that is recorded
    is not raised as well. *)
Theorem update_label_one_record (w : World)
    (label_path project_id dataset : string) (res : handle) :
  let data_key := strip_extension label_path in
  let run := _update_label w label_path project_id dataset res in
  (writes (trace run) = []
   \/ exists message, writes (trace run) = [SetItem res data_key (VStr message)])
  /\ (writes (trace run) <> [] -> outcome_of run = Ok tt).
Proof.
  intros data_key run. unfold run, _update_label. fold data_key.
  unfold describe_and_check, seed_payload, sync_local_file, call_describe_label,
    call_json_load, call_update_label, call_write_text.
  destruct (isfile w label_path); cbn;
    repeat (match goal with
            | |- context [match ?x with _ => _ end] =>
                lazymatch x with
                | context [match _ with _ => _ end] => fail
                | _ => destruct x
                end
            end; cbn);
    repeat match goal with u : unit |- _ => destruct u end;
    (split;
     [ first [ left; reflexivity | right; eexists; reflexivity ]
     | intros Hstored; first [ reflexivity | exfalso; apply Hstored; reflexivity ] ]).
Qed.

Lemma update_label_one_record_witness :
  let w := sample_world describe_fails (Ok JNull) true in
  let run := _update_label w "img.json" "p" "ds" 0 in
  writes (trace run) = [SetItem 0 "img" (VStr "connection refused")]
  /\ outcome_of run = Ok tt.
Proof.
  assert (Hw : writes (trace (_update_label
                                (sample_world describe_fails (Ok JNull) true)
                                "img.json" "p" "ds" 0))
               = [SetItem 0 "img" (VStr "connection refused")]) by reflexivity.
  split; [exact Hw|].
  apply (proj2 (update_label_one_record
                  (sample_world describe_fails (Ok JNull) true)
                  "img.json" "p" "ds" 0)).
  rewrite Hw. discriminate.
Defined.

(** ** The download worker over a page *)

Section Runs.

Lemma bind_ok {E A B} (m : M E A) (f : A -> M E B) (a : A) :
  outcome_of m = Ok a ->
  bind m f = (trace m ++ trace (f a), outcome_of (f a)).
Proof.
  destruct m as [t o]. simpl. intros ->. simpl. now destruct (f a).
Qed.

Lemma bind_raise {E A B} (m : M E A) (f : A -> M E B) (e : exn) :
  outcome_of m = Raise e -> bind m f = (trace m, Raise e).
Proof. destruct m as [t o]. simpl. now intros ->. Qed.

Lemma writes_app (t1 t2 : list event) : writes (t1 ++ t2) = writes t1 ++ writes t2.
Proof. apply filter_app. Qed.

(** The two guarded writes of a label never raise and leave the record of
    their faults. *)
Lemma download_pair_run (w : World) (path : string) (res : handle) (label : Label) :
  outcome_of (download_pair w path res label) = Ok tt
  /\ writes (trace (download_pair w path res label)) = pair_record w path res label.
Proof.
  unfold download_pair, pair_record, label_write, data_fetch, call_write_text,
    call_http_get, call_write_bytes.
  destruct (write_text w (path ++ ".json")%string (toJson w label)) as [[]|e1];
    destruct (http_get w (label_data_url label)) as [content|e2];
    cbn;
    try (destruct (write_bytes w path content) as [[]|e3]; cbn);
    split; reflexivity.
Qed.

Lemma download_label_unfold (w : World) (directory_path : string) (res : handle)
    (label : Label) :
  download_label w directory_path res label
  = (call_makedirs w (label_local_path directory_path label) ;;
     download_pair w (label_local_path directory_path label) res label).
Proof. reflexivity. Qed.

Lemma download_label_run (w : World) (directory_path : string) (res : handle)
    (label : Label) :
  makedirs_parent w (label_local_path directory_path label) = Ok tt ->
  outcome_of (download_label w directory_path res label) = Ok tt
  /\ writes (trace (download_label w directory_path res label))
     = pair_record w (label_local_path directory_path label) res label.
Proof.
  intros Hdir. rewrite download_label_unfold.
  destruct (download_pair_run w (label_local_path directory_path label) res label)
    as [Hok Hw].
  rewrite (bind_ok _ _ tt) by exact Hdir. simpl. split; [exact Hok|].
  rewrite Hw. reflexivity.
Qed.

Lemma download_label_fails (w : World) (directory_path : string) (res : handle)
    (label : Label) (e : exn) :
  makedirs_parent w (label_local_path directory_path label) = Raise e ->
  download_label w directory_path res label
  = ([Call (MakeDirs (label_local_path directory_path label))], Raise e).
Proof.
  intros Hdir. rewrite download_label_unfold.
  now rewrite (bind_raise _ _ e) by exact Hdir.
Qed.

(** The loop of the worker over the labels of a page, up to the first label
    whose directory cannot be made. *)
Lemma download_loop_run (w : World) (directory_path : string) (res : handle)
    (done : list Label) (rest : list (option Label)) (stop : outcome unit) :
  let body := fun label : option Label =>
    match label with
    | None => throw (Exc "AttributeError" "'NoneType' object has no attribute 'data_key'")
    | Some label => download_label w directory_path res label
    end in
  (forall l, In l done ->
             makedirs_parent w (label_local_path directory_path l) = Ok tt) ->
  outcome_of (for_each rest body) = stop ->
  writes (trace (for_each rest body)) = [] ->
  outcome_of (for_each (map Some done ++ rest) body) = stop
  /\ writes (trace (for_each (map Some done ++ rest) body))
     = flat_map (fun l => pair_record w (label_local_path directory_path l) res l) done.
Proof.
  intros body Hdirs Hstop Hrest.
  induction done as [|l done IH]; simpl.
  - split; [exact Hstop | exact Hrest].
  - destruct (download_label_run w directory_path res l (Hdirs l (or_introl eq_refl)))
      as [Hok Hw].
    destruct IH as [IHo IHw]; [intros l' Hl'; apply Hdirs; now right|].
    rewrite (bind_ok _ _ tt) by exact Hok. simpl.
    split; [exact IHo|]. rewrite writes_app, Hw, IHw. reflexivity.
Qed.

(** The whole trace of the loop over the labels whose directory can be
    made. *)
Lemma download_loop_trace (w : World) (directory_path : string) (res : handle)
    (done : list Label) (rest : list (option Label)) :
  let body := fun label : option Label =>
    match label with
    | None => throw (Exc "AttributeError" "'NoneType' object has no attribute 'data_key'")
    | Some label => download_label w directory_path res label
    end in
  (forall l, In l done ->
             makedirs_parent w (label_local_path directory_path l) = Ok tt) ->
  for_each (map Some done ++ rest) body
  = (flat_map (fun l => trace (download_label w directory_path res l)) done
     ++ trace (for_each rest body),
     outcome_of (for_each rest body)).
Proof.
  intros body Hdirs.
  induction done as [|l done IH]; simpl.
  - now destruct (for_each rest body).
  - destruct (download_label_run w directory_path res l (Hdirs l (or_introl eq_refl)))
      as [Hok _].
    rewrite (bind_ok _ _ tt) by exact Hok.
    rewrite IH by (intros l' Hl'; apply Hdirs; now right).
    simpl. now rewrite app_assoc.
Qed.

Lemma flat_map_eq_in {A B} (f g : A -> list B) (l : list A) :
  (forall x, In x l -> f x = g x) -> flat_map f l = flat_map g l.
Proof.
  induction l as [|a l IH]; simpl; intros H; [reflexivity|].
  rewrite (H a (or_introl eq_refl)), IH; [reflexivity|].
  intros x Hx. apply H. now right.
Qed.

Lemma filter_flat_map {A B} (f : B -> bool) (g : A -> list B) (l : list A) :
  filter f (flat_map g l) = flat_map (fun x => filter f (g x)) l.
Proof.
  induction l as [|a l IH]; simpl; [reflexivity|]. now rewrite filter_app, IH.
Qed.

End Runs.

(** X8. When the page request answers and the directory of every label can
    be made, the download worker returns normally and stores, in page
    order, one record for each label of the page that had a fault in its
    label write or its data fetch, and none for the others. *)
Theorem download_worker_records (w : World) (project_id : string) (page_idx : Z)
    (directory_path : string) (res : handle) (labels : list Label) (total : Z) :
  let option := {| opt_project_id := project_id;
                   opt_dataset := None;
                   opt_data_key := None |} in
  let run := _download_worker w project_id page_idx directory_path res in
  run_describe_label w option LABEL_DESCRIBE_PAGE_SIZE (page_idx + 1)%Z
  = Ok (map Some labels, total) ->
  (forall l, In l labels ->
             makedirs_parent w (label_local_path directory_path l) = Ok tt) ->
  outcome_of run = Ok tt
  /\ writes (trace run)
     = flat_map (fun l => pair_record w (label_local_path directory_path l) res l)
         labels.
Proof.
  intros option run Hpage Hdirs. unfold run, _download_worker, call_describe_label.
  fold option. rewrite Hpage.
  pose proof (download_loop_run w directory_path res labels [] (Ok tt) Hdirs
                eq_refl eq_refl) as [Ho Hw].
  rewrite app_nil_r in Ho, Hw. cbv zeta in Ho, Hw.
  match goal with
  | |- context [bind ?m ?f] => rewrite (bind_ok m f (map Some labels, total)) by reflexivity
  end.
  simpl. split; [exact Ho | exact Hw].
Qed.

Lemma download_worker_records_witness :
  let w := faulty_page_world "" in
  let labels := map label_named ["a"; "b"; "c"; "d"] in
  let run := _download_worker w "p" 0 "out" 0 in
  run_describe_label w
    {| opt_project_id := "p"; opt_dataset := None; opt_data_key := None |}
    LABEL_DESCRIBE_PAGE_SIZE 1
  = Ok (map Some labels, 4%Z)
  /\ (forall l, In l labels -> makedirs_parent w (label_local_path "out" l) = Ok tt)
  /\ outcome_of run = Ok tt
  /\ writes (trace run)
     = [SetItem 0 "ds/b" (VDict [("label", "No space left on device")]);
        SetItem 0 "ds/c" (VDict [("data", "timed out")])].
Proof.
  assert (Hdirs : forall l, In l (map label_named ["a"; "b"; "c"; "d"]) ->
                            makedirs_parent (faulty_page_world "")
                              (label_local_path "out" l) = Ok tt)
    by (intros l [<-|[<-|[<-|[<-|[]]]]]; reflexivity).
  split; [reflexivity|]. split; [exact Hdirs|].
  exact (download_worker_records (faulty_page_world "") "p" 0%Z "out" 0
           (map label_named ["a"; "b"; "c"; "d"]) 4%Z eq_refl Hdirs).
Defined.

(** X9. A fault of [os.makedirs] is not guarded: at the first label whose
    directory cannot be made the worker raises that fault.  The labels
    before it have been downloaded and their records are stored; the last
    thing the worker did is the refused [os.makedirs]: for that label and
    for the rest of the page no file is written, nothing is fetched and no
    record is stored. *)
Theorem download_worker_stops_at_makedirs_fault (w : World) (project_id : string)
    (page_idx : Z) (directory_path : string) (res : handle)
    (done : list Label) (failing : Label) (rest : list (option Label))
    (total : Z) (e : exn) :
  let option := {| opt_project_id := project_id;
                   opt_dataset := None;
                   opt_data_key := None |} in
  let run := _download_worker w project_id page_idx directory_path res in
  run_describe_label w option LABEL_DESCRIBE_PAGE_SIZE (page_idx + 1)%Z
  = Ok (map Some done ++ Some failing :: rest, total) ->
  (forall l, In l done ->
             makedirs_parent w (label_local_path directory_path l) = Ok tt) ->
  makedirs_parent w (label_local_path directory_path failing) = Raise e ->
  outcome_of run = Raise e
  /\ writes (trace run)
     = flat_map (fun l => pair_record w (label_local_path directory_path l) res l)
         done
  /\ trace run
     = Call (DescribeLabel option LABEL_DESCRIBE_PAGE_SIZE (page_idx + 1)%Z)
       :: flat_map (fun l => trace (download_label w directory_path res l)) done
       ++ [Call (MakeDirs (label_local_path directory_path failing))]
  /\ filter is_file_write (trace run)
     = flat_map (fun l => filter is_file_write
                            (trace (download_label w directory_path res l)))
         done.
Proof.
  intros option run Hpage Hdirs Hfail.
  assert (Hrun : run
                 = (Call (DescribeLabel option LABEL_DESCRIBE_PAGE_SIZE (page_idx + 1)%Z)
                    :: flat_map (fun l => trace (download_label w directory_path res l))
                         done
                    ++ [Call (MakeDirs (label_local_path directory_path failing))],
                    Raise e)).
  { unfold run, _download_worker, call_describe_label. fold option. rewrite Hpage.
    pose proof (download_loop_trace w directory_path res done
                  (Some failing :: rest) Hdirs) as Hloop.
    cbv zeta in Hloop. cbn [for_each] in Hloop.
    rewrite (download_label_fails w directory_path res failing e Hfail) in Hloop.
    cbn [bind trace outcome_of fst snd] in Hloop.
    match goal with
    | |- bind ?m ?f = _ =>
        rewrite (bind_ok m f (map Some done ++ Some failing :: rest, total))
          by reflexivity
    end.
    cbn [trace fst app].
    apply f_equal2; [apply f_equal|].
    - exact (f_equal fst Hloop).
    - exact (f_equal snd Hloop). }
  split; [now rewrite Hrun|]. split; [|split; [now rewrite Hrun|]].
  - rewrite Hrun. cbn [trace fst]. unfold writes at 1. cbn [filter is_SetItem].
    fold (writes (flat_map (fun l => trace (download_label w directory_path res l)) done
                  ++ [Call (MakeDirs (label_local_path directory_path failing))])).
    rewrite writes_app. cbn [writes filter is_SetItem]. rewrite app_nil_r.
    unfold writes. rewrite filter_flat_map.
    apply flat_map_eq_in. intros l Hl.
    exact (proj2 (download_label_run w directory_path res l (Hdirs l Hl))).
  - rewrite Hrun. cbn [trace fst filter is_file_write].
    rewrite filter_app. cbn [filter is_file_write]. rewrite app_nil_r.
    apply filter_flat_map.
Qed.

Lemma download_worker_stops_at_makedirs_fault_witness :
  let w := faulty_page_world "out/ds/c" in
  let run := _download_worker w "p" 0 "out" 0 in
  run_describe_label w
    {| opt_project_id := "p"; opt_dataset := None; opt_data_key := None |}
    LABEL_DESCRIBE_PAGE_SIZE 1
  = Ok (map Some [label_named "a"; label_named "b"]
          ++ Some (label_named "c") :: [Some (label_named "d")], 4%Z)
  /\ makedirs_parent w (label_local_path "out" (label_named "c"))
     = Raise (Exc "PermissionError" "denied")
  /\ outcome_of run = Raise (Exc "PermissionError" "denied")
  /\ writes (trace run)
     = [SetItem 0 "ds/b" (VDict [("label", "No space left on device")])]
  /\ calls (trace run)
     = [DescribeLabel {| opt_project_id := "p"; opt_dataset := None;
                         opt_data_key := None |} 10 1;
        MakeDirs "out/ds/a"; WriteText "out/ds/a.json" "{}";
        HttpGet "http://host/a"; WriteBytes "out/ds/a" "bytes";
        MakeDirs "out/ds/b"; WriteText "out/ds/b.json" "{}";
        HttpGet "http://host/b"; WriteBytes "out/ds/b" "bytes";
        MakeDirs "out/ds/c"].
Proof.
  split; [reflexivity|]. split; [reflexivity|].
  destruct (download_worker_stops_at_makedirs_fault
              (faulty_page_world "out/ds/c") "p" 0%Z "out" 0
              [label_named "a"; label_named "b"] (label_named "c")
              [Some (label_named "d")] 4%Z (Exc "PermissionError" "denied")
              eq_refl
              (fun l Hl => match Hl with
                           | or_introl E => match E with eq_refl => eq_refl end
                           | or_intror (or_introl E) =>
                               match E with eq_refl => eq_refl end
                           | or_intror (or_intror F) => match F with end
                           end)
              eq_refl)
    as [Hout [Hwrites [Htrace _]]].
  split; [exact Hout|]. split; [exact Hwrites|].
  rewrite Htrace. reflexivity.
Defined.

(** ** Page tasks *)

Lemma combine_map_repeat {A B C} (g : A -> B) (l : list A) (d : C) :
  combine (map g l) (repeat d (length l)) = map (fun x => (g x, d)) l.
Proof. induction l as [|a l IH]; simpl; [reflexivity | now rewrite IH]. Qed.

Lemma download_worker_first_call (w : World) (project_id : string) (page_idx : Z)
    (directory_path : string) (res : handle) :
  hd_error (calls (trace (_download_worker w project_id page_idx directory_path res)))
  = Some (DescribeLabel {| opt_project_id := project_id; opt_dataset := None;
                           opt_data_key := None |}
            LABEL_DESCRIBE_PAGE_SIZE (page_idx + 1)%Z).
Proof.
  unfold _download_worker, call_describe_label.
  destruct (run_describe_label _ _ _ _) as [r|e]; [|reflexivity].
  unfold bind. destruct (for_each _ _). reflexivity.
Qed.

(** X10. For a page count [n] the download driver builds [n] tasks (none
    when [n] is not positive); the task of index [i] begins with the request
    of page [i + 1] at page size 10 for the project, so the pages requested
    are 1, ..., n, each by one task, and every task is given the one shared
    mapping. *)
Theorem download_tasks_request_each_page (w : World) (project : Project)
    (directory_path : string) (n : Z) (d : handle) :
  let tasks := download_tasks w project directory_path n (py_repeat d n) in
  tasks = map (fun i => _download_worker w (project_id project) (Z.of_nat i)
                          directory_path d)
              (seq 0 (Z.to_nat n))
  /\ map (fun t => hd_error (calls (trace t))) tasks
     = map (fun i => Some (DescribeLabel
                             {| opt_project_id := project_id project;
                                opt_dataset := None; opt_data_key := None |}
                             LABEL_DESCRIBE_PAGE_SIZE (Z.of_nat i + 1)%Z))
           (seq 0 (Z.to_nat n)).
Proof.
  intros tasks.
  assert (Htasks : tasks
                   = map (fun i => _download_worker w (project_id project)
                                     (Z.of_nat i) directory_path d)
                         (seq 0 (Z.to_nat n))).
  { unfold tasks, download_tasks, py_range, py_repeat.
    replace (repeat d (Z.to_nat n))
      with (repeat d (length (seq 0 (Z.to_nat n))))
      by now rewrite length_seq.
    rewrite combine_map_repeat, map_map. reflexivity. }
  split; [exact Htasks|]. rewrite Htasks, map_map.
  apply map_ext. intros i. apply download_worker_first_call.
Qed.

(** ** Order and content of the merged table *)

Section MergeOrder.

Lemma set_fresh {V} (d : dict V) (k : string) (v : V) :
  ~ In k (keys d) -> set d k v = d ++ [(k, v)].
Proof.
  induction d as [|[k0 v0] d IH]; simpl; intros H; [reflexivity|].
  destruct (String.eqb_spec k k0) as [->|Hne]; [tauto|].
  rewrite IH; [reflexivity | tauto].
Qed.

Lemma keys_app {V} (d e : dict V) : keys (d ++ e) = keys d ++ keys e.
Proof. apply map_app. Qed.

Lemma data_phase_exact (D : dict value) (acc : dict row) :
  wf D -> (forall k, In k (keys D) -> ~ In k (keys acc)) ->
  fold_left data_step D acc = acc ++ map data_only_row D.
Proof.
  revert acc. induction D as [|[k0 v0] D IH]; intros acc HD Hfresh; simpl.
  - now rewrite app_nil_r.
  - apply wf_cons_inv in HD as [Hk0 HD]. apply get_none_iff in Hk0.
    unfold data_step at 2. simpl.
    rewrite set_fresh by (apply Hfresh; now left).
    rewrite IH; [now rewrite <- app_assoc | exact HD |].
    intros k Hk. rewrite keys_app, in_app_iff. simpl.
    intros [H|[<-|[]]]; [|contradiction]. apply (Hfresh k); [now right | exact H].
Qed.

Lemma label_phase_fresh (L : dict value) (acc : dict row) :
  wf L -> (forall k, In k (keys L) -> ~ In k (keys acc)) ->
  fold_left label_step L acc = acc ++ map label_only_row L.
Proof.
  revert acc. induction L as [|[k0 v0] L IH]; intros acc HL Hfresh; simpl.
  - now rewrite app_nil_r.
  - apply wf_cons_inv in HL as [Hk0 HL]. apply get_none_iff in Hk0.
    assert (Hnone : get acc k0 = None)
      by (apply get_none_iff, Hfresh; now left).
    unfold label_step at 2. simpl. rewrite Hnone.
    rewrite set_fresh by (apply Hfresh; now left).
    rewrite IH; [now rewrite <- app_assoc | exact HL |].
    intros k Hk. rewrite keys_app, in_app_iff. simpl.
    intros [H|[<-|[]]]; [|contradiction]. apply (Hfresh k); [now right | exact H].
Qed.

Lemma label_phase_keys (L : dict value) (acc : dict row) :
  wf L ->
  keys (fold_left label_step L acc)
  = keys acc ++ filter (fun k => negb (contains acc k)) (keys L).
Proof.
  revert acc. induction L as [|[k0 v0] L IH]; intros acc HL; simpl.
  - now rewrite app_nil_r.
  - apply wf_cons_inv in HL as [Hk0 HL]. apply get_none_iff in Hk0.
    rewrite (IH _ HL), label_step_set. simpl. rewrite keys_set.
    assert (Hsame : filter (fun k => negb (contains (set acc k0
                       {| row_data := data_of acc k0; row_label := Some v0 |}) k))
                      (keys L)
                    = filter (fun k => negb (contains acc k)) (keys L)).
    { apply filter_ext_in. intros k Hk. unfold contains.
      rewrite get_set_other; [reflexivity|]. intros ->. contradiction. }
    rewrite Hsame. destruct (contains acc k0); simpl; [reflexivity|].
    now rewrite <- app_assoc.
Qed.

End MergeOrder.

(** X11. The merged table lists the failures in a fixed order: first the
    keys of the data store in the order of that store, then the keys of the
    label store that the data store does not have, in the order of the label
    store. *)
Theorem merged_table_order (data_results label_results : dict value) :
  wf data_results -> wf label_results ->
  keys (merge_errors (Some data_results) (Some label_results))
  = keys data_results
    ++ filter (fun k => negb (contains data_results k)) (keys label_results).
Proof.
  intros HD HL. rewrite merge_errors_unfold, (label_phase_keys _ _ HL).
  rewrite (data_phase_exact _ [] HD) by (intros k _ []).
  simpl. unfold keys at 1 3. rewrite map_map. simpl. fold (keys data_results).
  f_equal. apply filter_ext. intros k. f_equal.
  destruct (contains data_results k) eqn:E.
  - apply contains_true_iff. apply contains_true_iff in E.
    unfold keys. now rewrite map_map.
  - apply contains_false_iff. apply contains_false_iff in E.
    unfold keys. now rewrite map_map.
Qed.

Lemma merged_table_order_witness :
  let D := [("a.png", VStr "upload failed"); ("b.png", VStr "timeout")] in
  let L := [("c", VStr "bad json"); ("b.png", VStr "Label cannot be described.")] in
  wf D /\ wf L
  /\ keys (merge_errors (Some D) (Some L)) = ["a.png"; "b.png"; "c"].
Proof.
  assert (HD : wf [("a.png", VStr "upload failed"); ("b.png", VStr "timeout")]).
  { unfold wf; simpl. repeat constructor; simpl; intuition discriminate. }
  assert (HL : wf [("c", VStr "bad json"); ("b.png", VStr "Label cannot be described.")]).
  { unfold wf; simpl. repeat constructor; simpl; intuition discriminate. }
  split; [exact HD|]. split; [exact HL|].
  exact (merged_table_order _ _ HD HL).
Defined.

(** X12. Called with one store only, as [upload_label] and [upload_data]
    without labels do, the merge gives one row per entry of that store, in
    its order, with the entry as the sub-error of its kind and no other
    sub-error; called with no store it gives the empty table. *)
Theorem merged_table_of_one_store (store : dict value) :
  wf store ->
  merge_errors (Some store) None = map data_only_row store
  /\ merge_errors None (Some store) = map label_only_row store
  /\ merge_errors None None = [].
Proof.
  intros H. split; [|split; [|reflexivity]].
  - unfold merge_errors. now rewrite (data_phase_exact _ [] H) by (intros k _ []).
  - unfold merge_errors. now rewrite (label_phase_fresh _ [] H) by (intros k _ []).
Qed.

Lemma merged_table_of_one_store_witness :
  let L := [("c", VStr "bad json"); ("b", VStr "Label cannot be described.")] in
  wf L
  /\ merge_errors None (Some L)
     = [("c", {| row_data := None; row_label := Some (VStr "bad json") |});
        ("b", {| row_data := None;
                 row_label := Some (VStr "Label cannot be described.") |})].
Proof.
  assert (HL : wf [("c", VStr "bad json"); ("b", VStr "Label cannot be described.")]).
  { unfold wf; simpl. repeat constructor; simpl; intuition discriminate. }
  split; [exact HL|].
  exact (proj1 (proj2 (merged_table_of_one_store _ HL))).
Defined.

(** ** The download store split by sub-kind *)

Lemma keys_sub_errors (kind : string) (records : dict (dict string)) (k : string) :
  In k (keys (sub_errors kind records)) -> In k (keys records).
Proof.
  induction records as [|[k0 d0] records IH]; simpl; [tauto|].
  unfold sub_errors in *. simpl. rewrite keys_app, in_app_iff.
  intros [H|H]; [|right; exact (IH H)].
  destruct (get d0 kind); simpl in H; [|tauto]. destruct H as [H|[]]. now left.
Qed.

Lemma wf_app_last {V} (d : dict V) (k : string) (v : V) :
  wf (d ++ [(k, v)]) -> wf d /\ ~ In k (keys d).
Proof.
  unfold wf. rewrite keys_app. simpl. intros H.
  apply NoDup_remove in H. rewrite app_nil_r in H. exact H.
Qed.

(** X13. Splitting the shared mapping of a download never raises on the
    records the download workers store, and keeps every message: the data
    table holds, in store order, the ["data"] message of each record that
    has one, and the label table the ["label"] message of each record that
    has one, under the record's key. *)
Theorem split_results_keeps_sub_errors (records : dict (dict string)) :
  wf records ->
  split_results (download_store records)
  = Ok (sub_errors "data" records, sub_errors "label" records).
Proof.
  intros Hwf. unfold split_results.
  destruct records as [|x records0] eqn:E; [reflexivity|].
  cbn [download_store map length Nat.ltb Nat.leb]. rewrite <- E in *.
  change ((fst x, VDict (snd x)) :: map (fun kv => (fst kv, VDict (snd kv))) records0)
    with (download_store (x :: records0)).
  rewrite <- E. clear E x records0.
  match goal with |- fold_left ?g _ _ = _ => set (f := g) end.
  induction records as [|[k d] records IH] using rev_ind; [reflexivity|].
  apply wf_app_last in Hwf as [Hwf Hk].
  unfold download_store in *. rewrite map_app, fold_left_app, (IH Hwf).
  unfold sub_errors. rewrite !flat_map_app. fold (sub_errors "data" records).
  fold (sub_errors "label" records).
  assert (Hd : ~ In k (keys (sub_errors "data" records)))
    by (intros H; apply Hk; exact (keys_sub_errors _ _ _ H)).
  assert (Hl : ~ In k (keys (sub_errors "label" records)))
    by (intros H; apply Hk; exact (keys_sub_errors _ _ _ H)).
  subst f.
  cbn [fold_left map fst snd value_contains value_getitem flat_map app].
  unfold contains.
  destruct (get d "data") as [md|]; destruct (get d "label") as [ml|];
    try rewrite (set_fresh _ k (VStr md) Hd);
    try rewrite (set_fresh _ k (VStr ml) Hl);
    rewrite ?app_nil_r; reflexivity.
Qed.

Lemma split_results_keeps_sub_errors_witness :
  let records := [("ds/a", [("label", "disk full")]);
                  ("ds/b", [("label", "disk full"); ("data", "404")]);
                  ("ds/c", [("data", "timeout")])] in
  wf records
  /\ split_results (download_store records)
     = Ok ([("ds/b", VStr "404"); ("ds/c", VStr "timeout")],
           [("ds/a", VStr "disk full"); ("ds/b", VStr "disk full")]).
Proof.
  assert (H : wf [("ds/a", [("label", "disk full")]);
                  ("ds/b", [("label", "disk full"); ("data", "404")]);
                  ("ds/c", [("data", "timeout")])]).
  { unfold wf; simpl. repeat constructor; simpl; intuition discriminate. }
  split; [exact H|]. exact (split_results_keeps_sub_errors _ H).
Defined.

(** ** Pages of the error table *)

Section Pages.

Variables (is_data is_label : bool).

Lemma fill_page_prefix (n : nat) (rs : dict row) :
  exists j, j <= n
            /\ fill_page n is_data is_label rs
               = (all_rows is_data is_label (firstn j rs), skipn j rs).
Proof.
  revert rs. induction n as [|n IH]; intros rs.
  - exists 0. split; [lia | reflexivity].
  - destruct rs as [|[k r] rs]; [exists 0; split; [lia | reflexivity]|].
    simpl. destruct (String.eqb k "").
    + exists 0. split; [lia | reflexivity].
    + rewrite String.eqb_refl. destruct (IH rs) as [j [Hj ->]].
      exists (S j). split; [lia | reflexivity].
Qed.

Lemma fill_page_nonempty_keys (n : nat) (rs : dict row) :
  Forall (fun k => k <> "") (keys rs) ->
  fill_page n is_data is_label rs
  = (all_rows is_data is_label (firstn n rs), skipn n rs).
Proof.
  revert rs. induction n as [|n IH]; intros rs H; [reflexivity|].
  destruct rs as [|[k r] rs]; [reflexivity|].
  simpl in H. inversion H as [|? ? Hk Hrs]; subst. simpl.
  destruct (String.eqb_spec k "") as [->|_]; [congruence|].
  rewrite String.eqb_refl, (IH rs Hrs). reflexivity.
Qed.

Lemma fill_page_step (n : nat) (k : string) (r : row) (rs : dict row) :
  String.eqb k "" = false ->
  fill_page (S n) is_data is_label ((k, r) :: rs)
  = (table_row is_data is_label k r :: fst (fill_page n is_data is_label rs),
     snd (fill_page n is_data is_label rs)).
Proof.
  intros Hk. simpl. rewrite Hk, String.eqb_refl.
  now destruct (fill_page n is_data is_label rs).
Qed.

Lemma firstn_plus {A} (j m : nat) (l : list A) :
  firstn (j + m) l = firstn j l ++ firstn m (skipn j l).
Proof.
  revert l. induction j as [|j IH]; intros l; [reflexivity|].
  destruct l as [|a l]; simpl; [now destruct m | now rewrite IH].
Qed.

Lemma all_rows_app (r1 r2 : dict row) :
  all_rows is_data is_label (r1 ++ r2)
  = all_rows is_data is_label r1 ++ all_rows is_data is_label r2.
Proof. apply map_app. Qed.

(** One turn of the loop. *)
Lemma error_pages_turn (w : World) (page page_length asked : nat) (rs : dict row) :
  error_pages w is_data is_label page page_length asked rs
  = PrintTable (table_columns is_data is_label)
      (fst (fill_page 10 is_data is_label rs))
    :: (if not_key (first_key (snd (fill_page 10 is_data is_label rs)))
        then []
        else Prompt page page_length
             :: (if is_quit (getchar w asked) then []
                 else error_pages w is_data is_label page page_length (S asked)
                        (snd (fill_page 10 is_data is_label rs)))).
Proof.
  funelim (error_pages w is_data is_label page page_length asked rs).
  - now rewrite e.
  - now rewrite Hmore.
Qed.

(** Whatever keys the operator presses, the pages show a prefix of the
    table, ten rows a page at most. *)
Lemma error_pages_prefix (w : World) (page page_length asked : nat) (rs : dict row) :
  exists m,
    printed_rows (error_pages w is_data is_label page page_length asked rs)
    = all_rows is_data is_label (firstn m rs)
    /\ Forall (fun size => size <= 10)
         (table_sizes (error_pages w is_data is_label page page_length asked rs)).
Proof.
  revert asked.
  induction rs as [rs IH] using (well_founded_induction
                                   (Wf_nat.well_founded_ltof _ (@length _))).
  intros asked. rewrite error_pages_turn.
  destruct (fill_page_prefix 10 rs) as [j [Hj Hfill]].
  assert (Hsize : length (all_rows is_data is_label (firstn j rs)) <= 10)
    by (unfold all_rows; rewrite length_map, length_firstn; lia).
  assert (Hshorter : not_key (first_key (skipn j rs)) = false ->
                     ltof _ (@length _) (skipn j rs) rs).
  { unfold ltof. intros Hlast.
    destruct j as [|j];
      [|destruct rs; simpl in *; [discriminate|];
        pose proof (length_skipn j rs); lia].
    exfalso. destruct rs as [|[k r] rs]; [discriminate Hlast|].
    cbn [skipn first_key not_key] in Hlast.
    rewrite (fill_page_step 9 k r rs Hlast) in Hfill.
    apply (f_equal (fun p => length (fst p))) in Hfill.
    discriminate Hfill. }
  rewrite Hfill. cbn [fst snd].
  destruct (not_key (first_key (skipn j rs))) eqn:Hlast.
  - cbn [printed_rows table_sizes flat_map]. rewrite app_nil_r.
    exists j. split; [reflexivity|]. constructor; [exact Hsize | constructor].
  - destruct (is_quit (getchar w asked)).
    + cbn [printed_rows table_sizes flat_map app]. rewrite app_nil_r.
      exists j. split; [reflexivity|]. constructor; [exact Hsize | constructor].
    + destruct (IH _ (Hshorter eq_refl) (S asked)) as [m [Hrows Hsizes]].
      exists (j + m). cbn [printed_rows table_sizes flat_map app].
      fold (printed_rows (error_pages w is_data is_label page page_length
                            (S asked) (skipn j rs))).
      fold (table_sizes (error_pages w is_data is_label page page_length
                           (S asked) (skipn j rs))).
      rewrite Hrows, firstn_plus, all_rows_app.
      split; [reflexivity|]. constructor; [exact Hsize | exact Hsizes].
Qed.

(** With keys that are not empty and an operator who never quits, the pages
    show every row. *)
Lemma error_pages_complete (w : World) (page page_length asked : nat) (rs : dict row) :
  (forall n, is_quit (getchar w n) = false) ->
  Forall (fun k => k <> "") (keys rs) ->
  printed_rows (error_pages w is_data is_label page page_length asked rs)
  = all_rows is_data is_label rs.
Proof.
  intros Hstay. revert asked.
  induction rs as [rs IH] using (well_founded_induction
                                   (Wf_nat.well_founded_ltof _ (@length _))).
  intros asked Hkeys. rewrite error_pages_turn.
  rewrite (fill_page_nonempty_keys 10 rs Hkeys).
  assert (Hrest : Forall (fun k => k <> "") (keys (skipn 10 rs))).
  { rewrite <- (firstn_skipn 10 rs) in Hkeys. unfold keys in Hkeys.
    rewrite map_app in Hkeys. apply Forall_app in Hkeys. tauto. }
  cbn [fst snd].
  destruct (skipn 10 rs) as [|[k r] rest] eqn:Hskip.
  - cbn [first_key not_key printed_rows flat_map]. rewrite app_nil_r.
    rewrite <- (firstn_skipn 10 rs) at 2. now rewrite Hskip, app_nil_r.
  - simpl in Hrest. inversion Hrest as [|? ? Hk _]; subst.
    cbn [first_key not_key].
    destruct (String.eqb_spec k "") as [->|_]; [congruence|].
    rewrite Hstay.
    assert (Hshorter : ltof _ (@length _) ((k, r) :: rest) rs).
    { unfold ltof. rewrite <- Hskip.
      destruct rs as [|x rs]; [discriminate Hskip|].
      rewrite length_skipn. cbn [length]. lia. }
    cbn [printed_rows flat_map app].
    fold (printed_rows (error_pages w is_data is_label page page_length
                          (S asked) ((k, r) :: rest))).
    rewrite (IH _ Hshorter (S asked) Hrest).
    rewrite <- (firstn_skipn 10 rs) at 2. now rewrite Hskip, all_rows_app.
Qed.

End Pages.

Lemma printed_rows_app (t1 t2 : list event) :
  printed_rows (t1 ++ t2) = printed_rows t1 ++ printed_rows t2.
Proof. apply flat_map_app. Qed.

Lemma table_sizes_app (t1 t2 : list event) :
  table_sizes (t1 ++ t2) = table_sizes t1 ++ table_sizes t2.
Proof. apply flat_map_app. Qed.

(** The trace of the reporter on a table that it shows. *)
Lemma print_error_table_shown (w : World)
    (data_results label_results : option (dict value)) :
  let results := merge_errors data_results label_results in
  let is_data := match data_results with Some _ => true | None => false end in
  let is_label := match label_results with Some _ => true | None => false end in
  not_key (first_key results) = false ->
  trace (_print_error_table w data_results label_results)
  = Print "** Error Table **"
    :: error_pages w is_data is_label 1 (ceil_tenth (length results)) 0 results
    ++ log_pointers w.
Proof.
  intros results is_data is_label H. unfold _print_error_table.
  fold results. rewrite H. reflexivity.
Qed.

(** X14. Whatever the operator presses, the reporter shows the rows of the
    merged table in table order, no row twice and none skipped in between:
    the rows printed are a prefix of the table; and no printed table has
    more than ten rows. *)
Theorem reporter_shows_a_prefix (w : World)
    (data_results label_results : option (dict value)) :
  let results := merge_errors data_results label_results in
  let is_data := match data_results with Some _ => true | None => false end in
  let is_label := match label_results with Some _ => true | None => false end in
  let tr := trace (_print_error_table w data_results label_results) in
  (exists m, printed_rows tr = all_rows is_data is_label (firstn m results))
  /\ Forall (fun size => size <= 10) (table_sizes tr).
Proof.
  intros results is_data is_label tr.
  destruct (not_key (first_key results)) eqn:Hshown.
  - unfold tr, _print_error_table. fold results. rewrite Hshown. simpl.
    split; [exists 0; reflexivity | constructor].
  - unfold tr. rewrite (print_error_table_shown w _ _ Hshown).
    fold results is_data is_label.
    destruct (error_pages_prefix is_data is_label w 1
                (ceil_tenth (length results)) 0 results) as [m [Hrows Hsizes]].
    change (Print "** Error Table **" :: ?x) with ([Print "** Error Table **"] ++ x).
    rewrite !printed_rows_app, !table_sizes_app, Hrows. simpl.
    rewrite !app_nil_r. split; [exists m; reflexivity | exact Hsizes].
Qed.

(** X15. When no key of the merged table is the empty string and the
    operator never presses Q, the reporter shows every row of the table
    exactly once, in table order. *)
Theorem reporter_shows_every_row (w : World)
    (data_results label_results : option (dict value)) :
  let results := merge_errors data_results label_results in
  let is_data := match data_results with Some _ => true | None => false end in
  let is_label := match label_results with Some _ => true | None => false end in
  (forall n, is_quit (getchar w n) = false) ->
  Forall (fun k => k <> "") (keys results) ->
  printed_rows (trace (_print_error_table w data_results label_results))
  = all_rows is_data is_label results.
Proof.
  intros results is_data is_label Hstay Hkeys.
  destruct (not_key (first_key results)) eqn:Hshown.
  - unfold _print_error_table. fold results. rewrite Hshown. simpl.
    destruct results as [|[k r] rest]; [reflexivity|].
    simpl in Hshown, Hkeys. inversion Hkeys; subst.
    destruct (String.eqb_spec k ""); congruence.
  - rewrite (print_error_table_shown w _ _ Hshown).
    fold results is_data is_label.
    change (Print "** Error Table **" :: ?x) with ([Print "** Error Table **"] ++ x).
    rewrite !printed_rows_app.
    rewrite (error_pages_complete is_data is_label w _ _ _ _ Hstay Hkeys).
    simpl. now rewrite app_nil_r.
Qed.

Lemma reporter_shows_every_row_witness :
  let w := sample_world describe_none (Ok JNull) true in
  (forall n, is_quit (getchar w n) = false)
  /\ Forall (fun k => k <> "") (keys (merge_errors (Some twelve_errors) None))
  /\ length (printed_rows (trace (_print_error_table w (Some twelve_errors) None)))
     = 12.
Proof.
  assert (Hkeys : Forall (fun k => k <> "")
                    (keys (merge_errors (Some twelve_errors) None)))
    by (repeat constructor; discriminate).
  split; [reflexivity|]. split; [exact Hkeys|].
  rewrite (reporter_shows_every_row
             (sample_world describe_none (Ok JNull) true)
             (Some twelve_errors) None (fun _ => eq_refl) Hkeys).
  reflexivity.
Defined.

(** ** A failure under the empty key *)

Lemma first_key_set {V} (d : dict V) (k : string) (v : V) :
  d <> [] -> first_key (set d k v) = first_key d /\ set d k v <> [].
Proof.
  destruct d as [|[k0 v0] d]; [congruence|]. intros _. simpl.
  destruct (String.eqb_spec k k0) as [->|_]; split; (reflexivity || discriminate).
Qed.

Lemma first_key_data_phase (D : dict value) (acc : dict row) :
  acc <> [] ->
  first_key (fold_left data_step D acc) = first_key acc
  /\ fold_left data_step D acc <> [].
Proof.
  revert acc. induction D as [|kv D IH]; intros acc H; simpl; [now split|].
  destruct (first_key_set acc (fst kv)
              {| row_data := Some (snd kv); row_label := None |} H) as [Hk Hne].
  destruct (IH _ Hne) as [IH1 IH2]. unfold data_step at 2 4.
  split; [now rewrite IH1 | exact IH2].
Qed.

Lemma first_key_label_phase (L : dict value) (acc : dict row) :
  acc <> [] -> first_key (fold_left label_step L acc) = first_key acc.
Proof.
  revert acc. induction L as [|kv L IH]; intros acc H; simpl; [reflexivity|].
  rewrite label_step_set.
  destruct (first_key_set acc (fst kv)
              {| row_data := data_of acc (fst kv); row_label := Some (snd kv) |} H)
    as [Hk Hne].
  now rewrite (IH _ Hne).
Qed.

(** The first key of the merged table: the first key of the data store, or
    of the label store when there is no data failure. *)
Lemma first_key_merge_errors (data_results label_results : option (dict value)) :
  first_key (merge_errors data_results label_results)
  = match data_results with
    | Some (kv :: _) => Some (fst kv)
    | _ => match label_results with
           | Some label_results => first_key label_results
           | None => None
           end
    end.
Proof.
  unfold merge_errors.
  assert (Hlabel : forall L : dict value,
             first_key (fold_left label_step L []) = first_key L).
  { intros [|[k v] L]; [reflexivity|]. simpl.
    now rewrite first_key_label_phase by discriminate. }
  destruct data_results as [[|[k v] D]|].
  - destruct label_results as [L|]; [apply Hlabel | reflexivity].
  - assert (Hacc : [(k, {| row_data := Some v; row_label := None |})] <> [])
      by discriminate.
    destruct (first_key_data_phase D _ Hacc) as [Hk Hne].
    simpl. unfold data_step at 2 4. simpl.
    destruct label_results as [L|]; [|exact Hk].
    now rewrite (first_key_label_phase L _ Hne).
  - destruct label_results as [L|]; [apply Hlabel | reflexivity].
Qed.

(** X16. The reporter takes an empty first key for an empty table: when the
    first failure of the merged table is stored under the empty string (the
    identity key of a label file without a stem, such as [.json]), nothing
    is printed at all, however many failures the stores hold. *)
Theorem empty_first_key_hides_the_table (w : World) (v : value)
    (rest : dict value) (label_results : option (dict value)) :
  _print_error_table w (Some (("", v) :: rest)) label_results = ([], Ok tt)
  /\ _print_error_table w None (Some (("", v) :: rest)) = ([], Ok tt)
  /\ _print_error_table w (Some []) (Some (("", v) :: rest)) = ([], Ok tt)
  /\ strip_extension ".json" = "".
Proof.
  repeat split; try reflexivity;
    unfold _print_error_table; rewrite first_key_merge_errors; reflexivity.
Qed.

(** ** The prompt of the reporter *)

Section Prompt.
Open Scope Z_scope.

Lemma round_half_even_div_exact (n d : Z) :
  0 < d ->
  let m := round_half_even_div n d in
  (m = n / d /\ 2 * (n mod d) <= d) \/ (m = n / d + 1 /\ d <= 2 * (n mod d)).
Proof.
  intros Hd. unfold round_half_even_div.
  destruct (Z.compare_spec (2 * (n mod d)) d) as [E|E|E];
    [destruct (Z.even (n / d))| |]; cbv zeta; lia.
Qed.

(** Rounding to a multiple of [1/P] with [P >= 8] keeps the ceiling of a
    quotient by ten. *)
Lemma ceil_of_rounded (a P : Z) :
  0 <= a -> 8 <= P ->
  - (- round_half_even_div (a * P) 10 / P) = (a + 9) / 10.
Proof.
  intros Ha HP.
  pose proof (round_half_even_div_exact (a * P) 10 ltac:(lia)) as H.
  cbv zeta in H.
  set (m := round_half_even_div (a * P) 10) in *.
  pose proof (Z.div_mod a 10 ltac:(lia)) as Hdm.
  pose proof (Z.mod_pos_bound a 10 ltac:(lia)) as Hb.
  pose proof (Z.mod_pos_bound (a * P) 10 ltac:(lia)) as Hb'.
  pose proof (Z.div_mod (a * P) 10 ltac:(lia)) as Hdm'.
  pose proof (Z.div_mod (a + 9) 10 ltac:(lia)) as Hc.
  pose proof (Z.mod_pos_bound (a + 9) 10 ltac:(lia)) as Hcb.
  set (c := (a + 9) / 10) in *.
  set (q := a / 10) in *. set (rho := a mod 10) in *.
  set (f := a * P / 10) in *. set (r := (a * P) mod 10) in *.
  assert (HaP : a * P = 10 * (q * P) + rho * P) by (rewrite Hdm; ring).
  assert (Hrho : rho = 0 \/ rho = 1 \/ rho = 2 \/ rho = 3 \/ rho = 4 \/ rho = 5
                 \/ rho = 6 \/ rho = 7 \/ rho = 8 \/ rho = 9) by lia.
  assert (Hcq : c = q \/ c = q + 1) by lia.
  assert (Hgoal : - m / P = - c).
  { symmetry. apply Z.div_unique_pos with (r := c * P - m); [|lia].
    set (X := q * P) in *.
    destruct Hrho as [E|[E|[E|[E|[E|[E|[E|[E|[E|E]]]]]]]]]; rewrite E in HaP;
      destruct Hcq as [Ec|Ec]; rewrite Ec in *; lia. }
  rewrite Hgoal. lia.
Qed.

End Prompt.

Lemma py_truediv_float_ten (total : Z) :
  (0 < total < 10 * 2 ^ 50)%Z ->
  exists k, (3 <= k <= 56)%Z
            /\ py_truediv_float total 10
               = Ok (round_half_even_div (total * 2 ^ k) 10, (- k)%Z).
Proof.
  intros [Hpos Hlt]. unfold py_truediv_float.
  change (10 =? 0)%Z with false. cbv iota. change (Z.abs 10) with 10%Z.
  rewrite (Z.abs_eq total) by lia.
  destruct (nearest_double_of_tenth total ltac:(lia)) as [k [Hk ->]].
  exists k. split; [exact Hk|].
  set (m := round_half_even_div (total * 2 ^ k) 10).
  assert (HP : (8 <= 2 ^ k)%Z).
  { change 8%Z with (2 ^ 3)%Z. apply Z.pow_le_mono_r; lia. }
  assert (Hfloor : (m / 2 ^ k = total / 10)%Z) by (apply floor_of_rounded; lia).
  assert (Hm : (0 <= m < 2 ^ 106)%Z).
  { pose proof (Z.div_pos total 10 ltac:(lia) ltac:(lia)) as Hq.
    pose proof (Z.div_mod m (2 ^ k) ltac:(lia)) as Hdm.
    pose proof (Z.mod_pos_bound m (2 ^ k) ltac:(lia)) as Hb.
    pose proof (Z.div_lt_upper_bound total 10 (2 ^ 50) ltac:(lia) ltac:(lia)) as Hq'.
    rewrite Hfloor in Hdm.
    assert (Hk' : (2 ^ k <= 2 ^ 56)%Z) by (apply Z.pow_le_mono_r; lia).
    change (2 ^ 106)%Z with (2 ^ 50 * 2 ^ 56)%Z.
    split; nia. }
  assert (Hover : negb (m =? 0)%Z && (1024 <=? Z.log2 m + - k)%Z = false).
  { destruct (Z.eqb_spec m 0) as [|Hm0]; [reflexivity|]. simpl.
    apply Z.leb_gt.
    assert (Z.log2 m < 106)%Z by (apply Z.log2_lt_pow2; lia). lia. }
  rewrite Hover.
  replace (Z.sgn total) with 1%Z by (symmetry; apply Z.sgn_pos; lia).
  change (Z.sgn 10) with 1%Z. now rewrite !Z.mul_1_l.
Qed.

(** The page count of the prompt (line 163) for tables of fewer than
    [10 * 2^50] rows. *)
Lemma ceil_tenth_small (n : nat) :
  (Z.of_nat n < 10 * 2 ^ 50)%Z -> ceil_tenth n = (n + 9) / 10.
Proof.
  intros Hn. unfold ceil_tenth.
  assert (Hnat : Z.to_nat ((Z.of_nat n + 9) / 10) = (n + 9) / 10).
  { change 9%Z with (Z.of_nat 9). change 10%Z with (Z.of_nat 10).
    rewrite <- Nat2Z.inj_add, <- Nat2Z.inj_div. apply Nat2Z.id. }
  destruct n as [|n]; [reflexivity|].
  destruct (py_truediv_float_ten (Z.of_nat (S n)) ltac:(lia)) as [k [Hk ->]].
  unfold py_ceil. destruct (Z.leb_spec 0 (- k)) as [|_]; [lia|].
  rewrite Z.opp_involutive, ceil_of_rounded; [exact Hnat | lia |].
  change 8%Z with (2 ^ 3)%Z. apply Z.pow_le_mono_r; lia.
Qed.

Lemma prompts_of_app (t1 t2 : list event) :
  prompts_of (t1 ++ t2) = prompts_of t1 ++ prompts_of t2.
Proof. apply flat_map_app. Qed.

Lemma error_pages_prompts (w : World) (is_data is_label : bool)
    (page page_length asked : nat) (rs : dict row) :
  Forall (fun shown => shown = (page, page_length))
    (prompts_of (error_pages w is_data is_label page page_length asked rs)).
Proof.
  revert asked.
  induction rs as [rs IH] using (well_founded_induction
                                   (Wf_nat.well_founded_ltof _ (@length _))).
  intros asked. rewrite error_pages_turn.
  destruct (fill_page_prefix is_data is_label 10 rs) as [j [Hj Hfill]].
  rewrite Hfill. cbn [fst snd].
  destruct (not_key (first_key (skipn j rs))) eqn:Hlast; [constructor|].
  cbn [prompts_of flat_map app].
  constructor; [reflexivity|].
  destruct (is_quit (getchar w asked)); [constructor|].
  apply IH. unfold ltof.
  destruct j as [|j];
    [|destruct rs; simpl in *; [discriminate|];
      pose proof (length_skipn j rs); lia].
  exfalso. destruct rs as [|[k r] rs]; [discriminate Hlast|].
  cbn [skipn first_key not_key] in Hlast.
  rewrite (fill_page_step is_data is_label 9 k r rs Hlast) in Hfill.
  apply (f_equal (fun p => length (fst p))) in Hfill.
  discriminate Hfill.
Qed.

(** X17. Every continue prompt of the reporter shows the same position:
    page 1 of [ceil(rows / 10)], where rows is the size of the merged table;
    the page number is never advanced (for tables of fewer than [10 * 2^50]
    rows, below which the float quotient of line 163 has the exact
    ceiling). *)
Theorem reporter_prompt_shows_page_one (w : World)
    (data_results label_results : option (dict value)) :
  let results := merge_errors data_results label_results in
  (Z.of_nat (length results) < 10 * 2 ^ 50)%Z ->
  Forall (fun shown => shown = (1, (length results + 9) / 10))
    (prompts_of (trace (_print_error_table w data_results label_results))).
Proof.
  intros results Hsmall.
  destruct (not_key (first_key results)) eqn:Hshown.
  - unfold _print_error_table. fold results. rewrite Hshown. constructor.
  - rewrite (print_error_table_shown w _ _ Hshown). fold results.
    change (Print "** Error Table **" :: ?x) with ([Print "** Error Table **"] ++ x).
    rewrite !prompts_of_app. simpl. rewrite app_nil_r.
    rewrite (ceil_tenth_small _ Hsmall). apply error_pages_prompts.
Qed.

Lemma reporter_prompt_shows_page_one_witness :
  let w := sample_world describe_none (Ok JNull) true in
  (Z.of_nat (length (merge_errors (Some twelve_errors) None)) < 10 * 2 ^ 50)%Z
  /\ Forall (fun shown => shown = (1, 2))
       (prompts_of (trace (_print_error_table w (Some twelve_errors) None))).
Proof.
  assert (H : (Z.of_nat (length (merge_errors (Some twelve_errors) None))
               < 10 * 2 ^ 50)%Z) by (vm_compute; reflexivity).
  split; [exact H|].
  exact (reporter_prompt_shows_page_one
           (sample_world describe_none (Ok JNull) true)
           (Some twelve_errors) None H).
Defined.

(** ** The orchestrators *)

Section Orchestrators.

Lemma outcome_bind {E A B} (m : M E A) (f : A -> M E B) :
  outcome_of (bind m f)
  = match outcome_of m with
    | Ok a => outcome_of (f a)
    | Raise e => Raise e
    end.
Proof. destruct m as [t [a|e]]; simpl; [now destruct (f a) | reflexivity]. Qed.

Lemma trace_bind {E A B} (m : M E A) (f : A -> M E B) :
  trace (bind m f)
  = match outcome_of m with
    | Ok a => trace m ++ trace (f a)
    | Raise e => trace m
    end.
Proof. destruct m as [t [a|e]]; simpl; [now destruct (f a) | reflexivity]. Qed.

Lemma first_raise_ok (outs : list (outcome unit)) :
  Forall (fun o => o = Ok tt) outs -> first_raise outs = Ok tt.
Proof. induction 1 as [|o outs -> _ IH]; simpl; [reflexivity | exact IH]. Qed.

Lemma pool_returns (sched : list nat) (tasks : list (Task unit)) :
  Forall (fun t => outcome_of t = Ok tt) tasks ->
  outcome_of (pool_imap sched tasks) = Ok tt.
Proof.
  intros H. unfold pool_imap, outcome_of at 1. simpl.
  apply first_raise_ok. now apply Forall_map.
Qed.

Lemma print_error_table_returns (w : World)
    (data_results label_results : option (dict value)) :
  outcome_of (_print_error_table w data_results label_results) = Ok tt.
Proof.
  unfold _print_error_table.
  now destruct (not_key (first_key (merge_errors data_results label_results))).
Qed.

Lemma len_zero_iff {A} (l : list A) : (len l =? 0)%Z = true <-> l = [].
Proof.
  unfold len. destruct l; simpl; split; intros H; try reflexivity; discriminate.
Qed.

Lemma bind_cong {E A B} (m : M E A) (f g : A -> M E B) :
  (forall a, f a = g a) -> bind m f = bind m g.
Proof. intros H. destruct m as [t [a|e]]; simpl; [now rewrite H | reflexivity]. Qed.

Lemma bind_cong_ok {E A B} (m : M E A) (f g : A -> M E B) (a : A) :
  outcome_of m = Ok a -> f a = g a -> bind m f = bind m g.
Proof. destruct m as [t o]. simpl. intros -> H. simpl. now rewrite H. Qed.

Lemma bind_assoc {E A B C} (m : M E A) (f : A -> M E B) (g : B -> M E C) :
  bind (bind m f) g = bind m (fun a => bind (f a) g).
Proof.
  destruct m as [t [a|e]]; simpl; [|reflexivity].
  destruct (f a) as [t' [b|e]]; simpl; [|reflexivity].
  destruct (g b) as [t'' o]. now rewrite app_assoc.
Qed.

Lemma bind_lift_ok {E A B} (a : A) (f : A -> M E B) : bind (lift (Ok a)) f = f a.
Proof. unfold bind, lift. now destruct (f a). Qed.

Lemma bind_ret {E A B} (a : A) (f : A -> M E B) : bind (ret a) f = f a.
Proof. unfold bind, ret. now destruct (f a). Qed.

End Orchestrators.

(** ** Failures never outnumber the items *)

Section StoreSize.

Lemma take_event_perm (i : nat) (ts ts' : list (list event)) (ev : event) :
  take_event i ts = Some (ev, ts') ->
  Permutation (concat ts) (ev :: concat ts').
Proof.
  revert i ts'. induction ts as [|t ts IH]; intros i ts' H.
  - destruct i; discriminate H.
  - destruct i as [|i].
    + destruct t as [|e t]; simpl in H; [discriminate H|].
      inversion H; subst. reflexivity.
    + assert (H' : match take_event i ts with
                   | Some (ev, ts'') => Some (ev, t :: ts'')
                   | None => None
                   end = Some (ev, ts')) by (destruct t; exact H).
      destruct (take_event i ts) as [[ev0 ts0]|] eqn:E; [|discriminate H'].
      inversion H'; subst. simpl.
      rewrite (IH _ _ E). symmetry. apply Permutation_middle.
Qed.

(** A schedule permutes the workers' events. *)
Lemma interleave_perm (sched : list nat) (ts : list (list event)) :
  Permutation (interleave sched ts) (concat ts).
Proof.
  revert ts. induction sched as [|i sched IH]; intros ts; simpl; [reflexivity|].
  destruct (take_event i ts) as [[ev ts']|] eqn:E; [|apply IH].
  rewrite (take_event_perm _ _ _ _ E). constructor. apply IH.
Qed.

Lemma length_filter_perm {A} (f : A -> bool) (l l' : list A) :
  Permutation l l' -> length (filter f l) = length (filter f l').
Proof.
  induction 1 as [|x l l' _ IH|x y l|l l' l'' _ IH1 _ IH2]; simpl.
  - reflexivity.
  - destruct (f x); simpl; now rewrite IH.
  - destruct (f x), (f y); reflexivity.
  - now rewrite IH1.
Qed.

Lemma replay_store_size (tr : list event) (h : heap) (d : handle) :
  length (objs (replay tr h) d) <= length (objs h d) + length (writes tr).
Proof.
  revert h. induction tr as [|ev tr IH]; intros h; [simpl; lia|].
  rewrite replay_cons. specialize (IH (match ev with
                                        | SetItem r key v => setitem h r key v
                                        | _ => h
                                        end)).
  destruct ev as [r key v| | | | | | | | |]; unfold writes in *; simpl in *; try lia.
  destruct (Nat.eqb_spec d r) as [->|_]; [|lia].
  rewrite length_set in IH. destruct (contains (objs h r) key); lia.
Qed.

Lemma writes_concat_le (tasks : list (Task unit)) :
  Forall (fun t => length (writes (trace t)) <= 1) tasks ->
  length (writes (concat (map trace tasks))) <= length tasks.
Proof.
  induction 1 as [|t tasks Ht _ IH]; simpl; [lia|].
  rewrite writes_app, length_app. lia.
Qed.

(** A pool stores no more records than its tasks do together. *)
Lemma pool_writes_le (sched : list nat) (tasks : list (Task unit)) :
  length (writes (trace (pool_imap sched tasks)))
  <= length (writes (concat (map trace tasks))).
Proof.
  destruct (pool_trace_prefix sched tasks) as [rest Hrest].
  unfold writes at 2.
  rewrite <- (length_filter_perm is_SetItem _ _
                (interleave_perm sched (map trace tasks))).
  fold (writes (interleave sched (map trace tasks))).
  rewrite Hrest, writes_app, length_app. lia.
Qed.

Lemma pool_store_size (sched : list nat) (tasks : list (Task unit)) (h : heap)
    (d : handle) :
  objs h d = [] ->
  Forall (fun t => length (writes (trace t)) <= 1) tasks ->
  length (objs (replay (trace (pool_imap sched tasks)) h) d) <= length tasks.
Proof.
  intros Hempty Htasks.
  pose proof (replay_store_size (trace (pool_imap sched tasks)) h d) as Hsize.
  rewrite Hempty in Hsize. cbn [length Nat.add] in Hsize.
  pose proof (pool_writes_le sched tasks).
  pose proof (writes_concat_le tasks Htasks).
  lia.
Qed.

Lemma update_label_writes_at_most_one (w : World)
    (label_path project_id dataset : string) (res : handle) :
  length (writes (trace (_update_label w label_path project_id dataset res))) <= 1.
Proof.
  unfold _update_label.
  unfold describe_and_check, seed_payload, sync_local_file, call_describe_label,
    call_json_load, call_update_label, call_write_text.
  destruct (isfile w label_path); cbn;
    repeat (match goal with
            | |- context [match ?x with _ => _ end] =>
                lazymatch x with
                | context [match _ with _ => _ end] => fail
                | _ => destruct x
                end
            end; cbn);
    lia.
Qed.

Lemma upload_asset_writes_at_most_one (w : World) (project_id : string)
    (asset_image : asset) (res : handle) :
  length (writes (trace (_upload_asset w project_id asset_image res))) <= 1.
Proof.
  rewrite (proj2 (upload_asset_catches_every_fault w project_id asset_image res)).
  destruct (run_create_data w asset_image project_id); simpl; lia.
Qed.

End StoreSize.

(** X23. In an upload batch the shared store never holds more records than
    the batch has items, whatever the order of the workers' steps: each
    task stores at most one record.  So the success count
    [total - len(store)] of the summary lies between 0 and the total. *)
Theorem upload_failures_never_outnumber_items (w : World) (sched : list nat)
    (project : Project) (dataset_name : string)
    (asset_images : list asset) (labels_path : list string) (h0 : heap) :
  let d := fst (manager_dict h0) in
  let h := snd (manager_dict h0) in
  let store tasks := objs (replay (trace (pool_imap sched tasks)) h) d in
  let data_store :=
    store (upload_asset_tasks w project asset_images
             (py_repeat d (len asset_images))) in
  let label_store :=
    store (update_label_tasks w project dataset_name labels_path
             (py_repeat d (len labels_path))) in
  (0 <= len asset_images - len data_store <= len asset_images)%Z
  /\ (0 <= len labels_path - len label_store <= len labels_path)%Z.
Proof.
  intros d h store data_store label_store.
  assert (Hdata : length data_store <= length asset_images).
  { unfold data_store, store.
    etransitivity; [apply pool_store_size|].
    - apply manager_dict_fresh.
    - unfold upload_asset_tasks. apply Forall_map, Forall_forall. intros a _.
      apply upload_asset_writes_at_most_one.
    - unfold upload_asset_tasks. rewrite length_map, length_combine. lia. }
  assert (Hlabel : length label_store <= length labels_path).
  { unfold label_store, store.
    etransitivity; [apply pool_store_size|].
    - apply manager_dict_fresh.
    - unfold update_label_tasks. apply Forall_map, Forall_forall. intros a _.
      apply update_label_writes_at_most_one.
    - unfold update_label_tasks. rewrite length_map, length_combine. lia. }
  unfold len. lia.
Qed.

(** ** The mapping a batch leaves, as the orchestrators read it *)

Section Batches.

Lemma replay_app (t1 t2 : list event) (h : heap) :
  replay (t1 ++ t2) h = replay t2 (replay t1 h).
Proof. apply fold_left_app. Qed.

Lemma replay_next (tr : list event) (h : heap) : next (replay tr h) = next h.
Proof.
  revert h. induction tr as [|ev tr IH]; intros h; [reflexivity|].
  rewrite replay_cons, IH. now destruct ev.
Qed.

Lemma manager_dict_other (h : heap) (d : handle) :
  d <> next h -> objs (snd (manager_dict h)) d = objs h d.
Proof. intros H. simpl. now destruct (Nat.eqb_spec d (next h)). Qed.

Lemma manager_dict_new (h : heap) : objs (snd (manager_dict h)) (next h) = [].
Proof. simpl. now rewrite Nat.eqb_refl. Qed.

(** A batch leaves the other mappings as they were. *)
Lemma replay_other (tr : list event) (h : heap) (d r : handle) :
  writes_only_to r tr -> d <> r -> objs (replay tr h) d = objs h d.
Proof.
  intros Hwo Hne. revert h. induction Hwo as [|ev tr Hev _ IH]; intros h;
    [reflexivity|].
  rewrite replay_cons, IH.
  destruct ev as [r' key v| | | | | | | | |]; try reflexivity.
  simpl in Hev. subst r'. simpl.
  destruct (Nat.eqb_spec d r); [contradiction | reflexivity].
Qed.

Lemma pool_writes_only_to (sched : list nat) (tasks : list (Task unit))
    (d : handle) :
  (forall t, In t tasks -> writes_only_to d (trace t)) ->
  writes_only_to d (trace (pool_imap sched tasks)).
Proof.
  intros H. apply Forall_forall. intros ev Hev.
  apply pool_trace_sub in Hev as [t [Ht Hin]].
  specialize (H t Ht). unfold writes_only_to in H.
  rewrite Forall_forall in H. now apply H.
Qed.

(** Zipped with [[d] * n], every item of a batch gets the mapping [d]. *)
Lemma zip_alias {A} (f : A -> handle -> Task unit) (items : list A) (d : handle) :
  map (fun a => f (fst a) (snd a)) (combine items (py_repeat d (len items)))
  = map (fun a => f a d) items.
Proof.
  unfold py_repeat, len. rewrite Nat2Z.id.
  induction items as [|a items IH]; simpl; [reflexivity | now rewrite IH].
Qed.

Lemma upload_asset_tasks_alias (w : World) (project : Project)
    (asset_images : list asset) (d : handle) :
  upload_asset_tasks w project asset_images (py_repeat d (len asset_images))
  = map (fun a => _upload_asset w (project_id project) a d) asset_images.
Proof.
  exact (zip_alias (fun a res => _upload_asset w (project_id project) a res)
           asset_images d).
Qed.

Lemma update_label_tasks_alias (w : World) (project : Project)
    (dataset_name : string) (labels_path : list string) (d : handle) :
  update_label_tasks w project dataset_name labels_path
    (py_repeat d (len labels_path))
  = map (fun p => _update_label w p (project_id project) dataset_name d)
        labels_path.
Proof.
  exact (zip_alias
           (fun p res => _update_label w p (project_id project) dataset_name res)
           labels_path d).
Qed.

Lemma download_tasks_alias (w : World) (project : Project)
    (directory_path : string) (pages : Z) (d : handle) :
  download_tasks w project directory_path pages (py_repeat d pages)
  = map (fun i => _download_worker w (project_id project) i directory_path d)
        (py_range pages).
Proof.
  unfold download_tasks.
  assert (Hlen : py_repeat d pages = py_repeat d (len (py_range pages))).
  { unfold py_repeat, py_range, len. now rewrite length_map, length_seq, Nat2Z.id. }
  rewrite Hlen.
  exact (zip_alias
           (fun i res => _download_worker w (project_id project) i directory_path res)
           (py_range pages) d).
Qed.

Lemma batch_store_of_pool (sched : list nat) (tasks : list (Task unit))
    (h : heap) (d : handle) :
  objs h d = [] ->
  (forall t, In t tasks -> writes_only_to d (trace t)) ->
  batch_store tasks d (objs (replay (trace (pool_imap sched tasks)) h) d).
Proof.
  intros Hempty Hwo. split; [exact Hwo|].
  intros Hok. now apply pool_collects.
Qed.

(** [upload_label] is its pool of label tasks, all on the first mapping of
    the manager, followed by the report on what that mapping then holds. *)
Lemma upload_label_run (w : World) (sched : list nat) (project : Project)
    (dataset_name directory_path : string) (is_forced : bool) :
  negb is_forced && negb (confirm w) = false ->
  let labels := recursive_glob_label_files w directory_path in
  let tasks :=
    map (fun p => _update_label w p (project_id project) dataset_name 0) labels in
  let store :=
    objs (replay (trace (pool_imap sched tasks)) (snd (manager_dict empty_heap))) 0 in
  upload_label w sched project dataset_name directory_path is_forced
  = (pool_imap sched tasks ;; upload_label_report w labels store).
Proof.
  intros Hgo. cbv zeta. unfold upload_label. rewrite Hgo.
  cbn [manager_dict empty_heap next objs].
  destruct (recursive_glob_label_files w directory_path) as [|p paths].
  - cbn [map]. rewrite !pool_imap_nil. reflexivity.
  - set (labels := p :: paths).
    assert (Hlen : (len labels =? 0)%Z = false) by reflexivity.
    rewrite Hlen. cbn [negb].
    rewrite update_label_tasks_alias.
    apply bind_cong. intros _. unfold upload_label_report.
    apply bind_cong. intros _.
    rewrite (@py_repeat_index0 handle 0 (len labels)) by reflexivity.
    now rewrite bind_lift_ok.
Qed.


Lemma replay_announced (text : string) (pool : Task unit) (h : heap) :
  replay (trace (emit (Print text) ;; pool)) h = replay (trace pool) h.
Proof. now rewrite trace_bind. Qed.

Lemma results_index0 {A} (l : list A) (d : handle) :
  py_index0 (if negb (len l =? 0)%Z then py_repeat d (len l) else [d]) = Ok d.
Proof.
  destruct l as [|a l]; [reflexivity|].
  assert (Hlen : (len (a :: l) =? 0)%Z = false) by reflexivity.
  rewrite Hlen. apply py_repeat_index0. unfold len. simpl length. lia.
Qed.

(** The label pool as the orchestrators build it: no pool for no label
    file. *)
Lemma label_pool_of_code (w : World) (sched : list nat) (project : Project)
    (dataset_name : string) (labels_path : list string) (d : handle) :
  (if negb (len labels_path =? 0)%Z
   then pool_imap sched
          (update_label_tasks w project dataset_name labels_path
             (if negb (len labels_path =? 0)%Z
              then py_repeat d (len labels_path) else [d]))
   else ret tt)
  = pool_imap sched
      (map (fun p => _update_label w p (project_id project) dataset_name d)
           labels_path).
Proof.
  destruct labels_path as [|p paths].
  - cbn [map]. rewrite !pool_imap_nil. reflexivity.
  - assert (Hlen : (len (p :: paths) =? 0)%Z = false) by reflexivity.
    rewrite Hlen. cbn [negb]. now rewrite update_label_tasks_alias.
Qed.

Lemma data_pool_of_code (w : World) (sched : list nat) (project : Project)
    (dataset_name : string) (imgs_path : dict string) (d : handle) :
  let asset_images :=
    if negb (len imgs_path =? 0)%Z
    then map (fun kv => {| asset_file := snd kv;
                           asset_file_name := fst kv;
                           asset_data_key := fst kv;
                           asset_dataset := dataset_name |}) imgs_path
    else [] in
  let assets := map (asset_of dataset_name) imgs_path in
  asset_images = assets
  /\ (if negb (len imgs_path =? 0)%Z
      then emit (Print "Uploading data:") ;;
           pool_imap sched
             (upload_asset_tasks w project asset_images
                (if negb (len imgs_path =? 0)%Z
                 then py_repeat d (len asset_images) else [d]))
      else ret tt)
     = (if negb (len assets =? 0)%Z
        then emit (Print "Uploading data:") ;;
             pool_imap sched
               (map (fun a => _upload_asset w (project_id project) a d) assets)
        else ret tt)
  /\ py_index0 (if negb (len imgs_path =? 0)%Z
                then py_repeat d (len asset_images) else [d]) = Ok d.
Proof.
  destruct imgs_path as [|kv imgs].
  - repeat split; reflexivity.
  - assert (Hlen : (len (kv :: imgs) =? 0)%Z = false) by reflexivity.
    cbv zeta. rewrite Hlen. cbn [negb].
    assert (Hlen' : (len (map (asset_of dataset_name) (kv :: imgs)) =? 0)%Z = false)
      by reflexivity.
    rewrite Hlen'. cbn [negb].
    split; [reflexivity|]. split.
    + now rewrite upload_asset_tasks_alias.
    + apply py_repeat_index0. unfold len. simpl length. lia.
Qed.

(** The announced data pool changes the shared mappings as its pool does. *)
Lemma replay_data_pool {A} (sched : list nat) (f : A -> Task unit)
    (items : list A) (h : heap) :
  replay (trace (if negb (len items =? 0)%Z
                 then emit (Print "Uploading data:") ;; pool_imap sched (map f items)
                 else ret tt)) h
  = replay (trace (pool_imap sched (map f items))) h.
Proof.
  destruct items as [|a items].
  - cbn [map]. now rewrite pool_imap_nil.
  - assert (Hlen : (len (a :: items) =? 0)%Z = false) by reflexivity.
    rewrite Hlen. apply replay_announced.
Qed.

Lemma upload_data_run (w : World) (sched_data sched_label : list nat)
    (project : Project) (dataset_name directory_path : string)
    (include_label is_forced : bool) :
  negb is_forced && negb (confirm w) = false ->
  let assets :=
    map (asset_of dataset_name) (recursive_glob_image_files w directory_path) in
  let labels := recursive_glob_label_files w directory_path in
  let data_pool :=
    pool_imap sched_data
      (map (fun a => _upload_asset w (project_id project) a 0) assets) in
  let label_pool :=
    pool_imap sched_label
      (map (fun p => _update_label w p (project_id project) dataset_name 1) labels) in
  let h := snd (manager_dict (replay (trace data_pool) (snd (manager_dict empty_heap)))) in
  upload_data w sched_data sched_label project dataset_name directory_path
    include_label is_forced
  = ((if negb (len assets =? 0)%Z
      then emit (Print "Uploading data:") ;; data_pool else ret tt) ;;
     (if include_label
      then emit (Print "Uploading labels:") ;; label_pool else ret tt) ;;
     upload_data_report w assets labels include_label
       (objs h 0) (objs (replay (trace label_pool) h) 1)).
Proof.
  intros Hgo. cbv zeta. unfold upload_data. rewrite Hgo.
  set (h1 := snd (manager_dict empty_heap)).
  change (manager_dict empty_heap) with (0, h1). cbv beta iota.
  destruct (data_pool_of_code w sched_data project dataset_name
              (recursive_glob_image_files w directory_path) 0)
    as [Hassets [Hpool Hidx]].
  cbv zeta in Hassets, Hpool, Hidx.
  rewrite Hpool. rewrite Hassets in *. clear Hpool Hassets.
  set (assets := map (asset_of dataset_name)
                     (recursive_glob_image_files w directory_path)) in *.
  set (labels := recursive_glob_label_files w directory_path).
  apply bind_cong. intros _.
  rewrite replay_data_pool.
  set (h2 := replay _ h1).
  change (manager_dict h2) with (next h2, snd (manager_dict h2)).
  cbv beta iota.
  assert (Hnext : next h2 = 1) by (unfold h2; now rewrite replay_next).
  rewrite Hnext. set (h := snd (manager_dict h2)).
  rewrite !label_pool_of_code, Hidx, !results_index0.
  set (label_pool := pool_imap sched_label _).
  assert (Hwo : writes_only_to 1 (trace label_pool)).
  { apply pool_writes_only_to. intros t Ht.
    apply in_map_iff in Ht as [p [<- _]]. apply wo_update_label. }
  destruct include_label.
  - rewrite !replay_announced.
    apply bind_cong. intros _. unfold upload_data_report.
    apply bind_cong. intros _. rewrite bind_lift_ok.
    rewrite (replay_other _ h 0 1 Hwo) by discriminate.
    apply bind_cong. intros data_success_ratio.
    apply bind_cong. intros _. now rewrite bind_lift_ok.
  - change (replay (trace (@ret event unit tt)) h) with h.
    apply bind_cong. intros _. unfold upload_data_report.
    apply bind_cong. intros _. now rewrite bind_lift_ok.
Qed.

(** [download], for a project with labels, is the probe, the pool of page
    tasks, all on the first mapping of the manager, and the report on what
    that mapping then holds. *)
Lemma download_run (w : World) (sched : list nat) (project : Project)
    (directory_path : string) (is_forced : bool) (label_count pages : Z) :
  negb is_forced && negb (confirm w) = false ->
  outcome_of (_count_labels w (project_id project)) = Ok label_count ->
  label_count <> 0%Z ->
  page_length label_count = Ok pages ->
  (0 < pages)%Z ->
  let tasks :=
    map (fun i => _download_worker w (project_id project) i directory_path 0)
        (py_range pages) in
  let store :=
    objs (replay (trace (pool_imap sched tasks)) (snd (manager_dict empty_heap))) 0 in
  download w sched project directory_path is_forced
  = (_count_labels w (project_id project) ;;
     pool_imap sched tasks ;;
     download_report w label_count store).
Proof.
  intros Hgo Hcount Hnz Hpages Hpos. cbv zeta. unfold download.
  apply (bind_cong_ok _ _ _ label_count Hcount).
  destruct (Z.eqb_spec label_count 0) as [|_]; [contradiction|]. cbn [negb].
  rewrite Hpages, bind_lift_ok, Hgo.
  set (h1 := snd (manager_dict empty_heap)).
  change (manager_dict empty_heap) with (0, h1). cbv beta iota.
  unfold tqdm_list. destruct (Z.ltb_spec pages 0) as [|_]; [lia|].
  rewrite download_tasks_alias, bind_assoc.
  apply bind_cong. intros _.
  rewrite (@py_repeat_index0 handle 0 pages Hpos), bind_lift_ok, bind_assoc.
  unfold download_report. apply bind_cong. intros [data_results label_results].
  now rewrite bind_ret.
Qed.

End Batches.

(** ** The upload commands *)

Section Uploads.

Lemma bind_emit {B} (ev : event) (f : unit -> Task B) :
  bind (emit ev) f = (ev :: trace (f tt), outcome_of (f tt)).
Proof. unfold bind, emit. now destruct (f tt). Qed.

Lemma task_eta {A} (t : Task A) : t = (trace t, outcome_of t).
Proof. now destruct t. Qed.

(** The record an asset upload stores: the fault of its remote call. *)
Lemma upload_asset_record (w : World) (project_id : string) (a : asset)
    (res r : handle) (k : string) (v : value) :
  In (SetItem r k v) (trace (_upload_asset w project_id a res))
  <-> exists e, run_create_data w a project_id = Raise e
                /\ r = res /\ k = asset_data_key a /\ v = VStr (exn_str e).
Proof.
  unfold _upload_asset, call_create_data.
  destruct (run_create_data w a project_id) as [[]|e]; simpl.
  - split.
    + intros [H|[H|[]]]; discriminate H.
    + intros [e [H _]]. discriminate H.
  - split.
    + intros [H|[H|[H|[H|[]]]]]; try discriminate H.
      inversion H; subst. eauto.
    + intros [e' [He [-> [-> ->]]]]. inversion He; subst. auto.
Qed.

Lemma data_store_records (w : World) (project_id : string)
    (asset_images : list asset) (d : handle) (store : dict value) :
  collects (map (fun a => _upload_asset w project_id a d) asset_images) d store ->
  (forall k, In k (keys store)
             <-> exists v, failed_upload w project_id asset_images k v)
  /\ (forall k v, get store k = Some v ->
                  failed_upload w project_id asset_images k v).
Proof.
  intros [Hkeys Hget]. split.
  - intros k. rewrite Hkeys. split.
    + intros [t [v [Ht Hin]]]. apply in_map_iff in Ht as [a [<- Ha]].
      apply upload_asset_record in Hin as [e [He [_ [-> ->]]]].
      exists (VStr (exn_str e)), a, e. auto.
    + intros [v [a [e [Ha [<- [He ->]]]]]].
      exists (_upload_asset w project_id a d), (VStr (exn_str e)).
      split; [exact (in_map (fun a => _upload_asset w project_id a d) _ _ Ha)|].
      apply upload_asset_record. eauto.
  - intros k v H. apply Hget in H as [t [Ht Hin]].
    apply in_map_iff in Ht as [a [<- Ha]].
    apply upload_asset_record in Hin as [e [He [_ [-> ->]]]].
    exists a, e. auto.
Qed.

Lemma upload_asset_pool_returns (w : World) (sched : list nat)
    (project_id : string) (asset_images : list asset) (d : handle) :
  first_raise (map outcome_of
                 (map (fun a => _upload_asset w project_id a d) asset_images))
  = Ok tt.
Proof.
  apply first_raise_ok, Forall_map, Forall_map, Forall_forall. intros a _.
  apply (upload_asset_catches_every_fault w project_id a d).
Qed.

(** The ratio of a summary line is defined when the failures do not
    outnumber the items. *)
Lemma ratio_unless_no_error_defined (total : Z) (store : dict value) :
  (len store <= total)%Z ->
  exists q, ratio_unless_no_error (total - len store) total store = Ok q.
Proof.
  intros Hle. unfold ratio_unless_no_error.
  destruct (Z.eqb_spec (len store) 0) as [|Hnz]; cbn [negb]; [eauto|].
  apply percentage_defined; unfold len in *; lia.
Qed.

Lemma ratio_unless_no_item_defined (total : Z) (store : dict value) :
  (len store <= total)%Z ->
  exists q, ratio_unless_no_item (total - len store) total = Ok q.
Proof.
  intros Hle. unfold ratio_unless_no_item.
  destruct (Z.eqb_spec total 0) as [|Hnz]; cbn [negb]; [eauto|].
  apply percentage_defined; unfold len in *; lia.
Qed.

Lemma upload_data_report_without_labels (w : World) (asset_images : list asset)
    (labels_path : list string) (store label_store : dict value) :
  (len store <= len asset_images)%Z ->
  exists ratio,
    upload_data_report w asset_images labels_path false store label_store
    = (Print "** Result Summary **"
       :: SummaryLine "data" (len asset_images - len store) (len asset_images)
            ratio (length store)
       :: trace (_print_error_table w (Some store) None),
       Ok tt).
Proof.
  intros Hle. destruct (ratio_unless_no_error_defined _ _ Hle) as [q Hq].
  exists q. unfold upload_data_report.
  rewrite bind_emit, Hq, bind_lift_ok, bind_emit.
  cbn [trace outcome_of fst snd]. now rewrite print_error_table_returns.
Qed.

Lemma upload_label_report_returns (w : World) (labels_path : list string)
    (store : dict value) :
  (len store <= len labels_path)%Z ->
  exists ratio,
    upload_label_report w labels_path store
    = (Print "** Result Summary **"
       :: SummaryLine "labels" (len labels_path - len store) (len labels_path)
            ratio (length store)
       :: trace (_print_error_table w None (Some store)),
       Ok tt).
Proof.
  intros Hle. destruct (ratio_unless_no_item_defined _ _ Hle) as [q Hq].
  exists q. unfold upload_label_report.
  rewrite bind_emit, Hq, bind_lift_ok, bind_emit.
  cbn [trace outcome_of fst snd]. now rewrite print_error_table_returns.
Qed.

End Uploads.

(** X18. Without labels, [upload_data] never raises.  When the run goes on,
    the assets whose upload call raises, and no others, have a record in the
    data store, under their data key and with [str(e)] of a refused upload
    of that key; the summary line counts the records of that store and the
    error table is made from it. *)
Theorem upload_data_without_labels_returns (w : World)
    (sched_data sched_label : list nat) (project : Project)
    (dataset_name directory_path : string) (is_forced : bool) :
  let run := upload_data w sched_data sched_label project dataset_name
               directory_path false is_forced in
  let asset_images :=
    map (asset_of dataset_name) (recursive_glob_image_files w directory_path) in
  let pool :=
    pool_imap sched_data
      (map (fun a => _upload_asset w (project_id project) a 0) asset_images) in
  outcome_of run = Ok tt
  /\ (negb is_forced && negb (confirm w) = false ->
      exists store ratio,
        (forall k, In k (keys store)
                   <-> exists v, failed_upload w (project_id project) asset_images k v)
        /\ (forall k v, get store k = Some v ->
                        failed_upload w (project_id project) asset_images k v)
        /\ trace run
           = (if negb (len asset_images =? 0)%Z
              then Print "Uploading data:" :: trace pool else [])
             ++ Print "** Result Summary **"
             :: SummaryLine "data" (len asset_images - len store)
                  (len asset_images) ratio (length store)
             :: trace (_print_error_table w (Some store) None)).
Proof.
  intros run asset_images pool.
  destruct (negb is_forced && negb (confirm w)) eqn:Hgo.
  { split; [|discriminate]. unfold run, upload_data. now rewrite Hgo. }
  pose proof (upload_data_run w sched_data sched_label project dataset_name
                directory_path false is_forced Hgo) as Hrun.
  cbv zeta in Hrun. fold asset_images in Hrun. fold pool in Hrun. fold run in Hrun.
  set (h := snd (manager_dict (replay (trace pool) (snd (manager_dict empty_heap)))))
    in Hrun.
  set (label_store := objs (replay _ h) 1) in Hrun.
  assert (Hstore : objs h 0
                   = objs (replay (trace pool) (snd (manager_dict empty_heap))) 0).
  { unfold h. simpl. now rewrite replay_next. }
  assert (Hok : first_raise
                  (map outcome_of
                     (map (fun a => _upload_asset w (project_id project) a 0)
                          asset_images)) = Ok tt)
    by (apply upload_asset_pool_returns; exact sched_data).
  assert (Hpool : outcome_of pool = Ok tt) by exact Hok.
  assert (Hsize : (len (objs h 0%nat) <= len asset_images)%Z).
  { rewrite Hstore. unfold len. apply inj_le.
    etransitivity; [apply pool_store_size|].
    - reflexivity.
    - apply Forall_map, Forall_forall. intros a _.
      apply upload_asset_writes_at_most_one.
    - now rewrite length_map. }
  destruct (upload_data_report_without_labels w asset_images
              (recursive_glob_label_files w directory_path) (objs h 0)
              label_store Hsize) as [ratio Hreport].
  rewrite Hreport, bind_ret in Hrun.
  assert (Hdata : (if negb (len asset_images =? 0)%Z
                   then emit (Print "Uploading data:") ;; pool else ret tt)
                  = (if negb (len asset_images =? 0)%Z
                     then Print "Uploading data:" :: trace pool else [], Ok tt)).
  { destruct (negb (len asset_images =? 0)%Z); [|reflexivity].
    now rewrite bind_emit, Hpool. }
  rewrite Hdata in Hrun. cbn [bind] in Hrun.
  split; [now rewrite Hrun|]. intros _. exists (objs h 0), ratio.
  destruct (data_store_records w (project_id project) asset_images 0 (objs h 0))
    as [Hkeys Hget].
  { rewrite Hstore. apply pool_collects; [reflexivity | exact Hok]. }
  split; [exact Hkeys|]. split; [exact Hget|]. now rewrite Hrun.
Qed.

Lemma upload_data_without_labels_returns_witness :
  let w := faulty_upload_world in
  let project := {| project_id := "p"; project_name := "demo" |} in
  let run := upload_data w [2; 0; 1; 1] [] project "ds" "dir" false true in
  negb true && negb (confirm w) = false
  /\ outcome_of run = Ok tt
  /\ exists store ratio,
       (forall k v, get store k = Some v ->
                    failed_upload w "p"
                      (map (asset_of "ds")
                         [("a.png", "dir/a.png"); ("b.png", "dir/b.png");
                          ("c.png", "dir/c.png")]) k v)
       /\ In (SummaryLine "data" (3 - len store) 3 ratio (length store)) (trace run).
Proof.
  split; [reflexivity|].
  destruct (upload_data_without_labels_returns faulty_upload_world [2; 0; 1; 1] []
              {| project_id := "p"; project_name := "demo" |} "ds" "dir" true)
    as [Hok Hstore].
  split; [exact Hok|].
  destruct (Hstore eq_refl) as [store [ratio [_ [Hget Htrace]]]].
  exists store, ratio. split; [exact Hget|].
  rewrite Htrace. apply in_or_app. right. right. left. reflexivity.
Defined.

(** The three images of [faulty_upload_world], of which [b.png] is refused:
    two out of three, 66.67 percent, and one row in the error table. *)
Example upload_data_one_refused :
  filter (fun ev => match ev with
                    | SummaryLine _ _ _ _ _ | PrintTable _ _ => true
                    | _ => false
                    end)
    (trace (upload_data faulty_upload_world [2; 0; 1; 1] []
              {| project_id := "p"; project_name := "demo" |} "ds" "dir" false true))
  = [SummaryLine "data" 2 3 (6667 # 100) 1;
     PrintTable ["FILE NAME"; "DATA UPLOAD"] [["b.png"; "quota exceeded"]]].
Proof. vm_compute. reflexivity. Qed.
(** X19. [upload_label] returns normally whenever no label task raises:
    the ratio of line 91 is guarded by the number of label files, so an
    empty directory gives 100 and not a division by zero. *)
Theorem upload_label_returns (w : World) (sched : list nat) (project : Project)
    (dataset_name directory_path : string) (is_forced : bool) :
  (forall label_path res,
      outcome_of (_update_label w label_path (project_id project) dataset_name res)
      = Ok tt) ->
  outcome_of (upload_label w sched project dataset_name directory_path is_forced)
  = Ok tt.
Proof.
  intros Htasks.
  destruct (negb is_forced && negb (confirm w)) eqn:Hgo.
  { unfold upload_label. now rewrite Hgo. }
  rewrite (upload_label_run w sched project dataset_name directory_path
             is_forced Hgo).
  cbv zeta.
  set (labels := recursive_glob_label_files w directory_path).
  set (tasks := map _ labels).
  set (store := objs _ 0).
  assert (Hpool : outcome_of (pool_imap sched tasks) = Ok tt).
  { apply pool_returns, Forall_map, Forall_forall. intros p _. apply Htasks. }
  assert (Hsize : (len store <= len labels)%Z).
  { unfold len. apply inj_le.
    etransitivity; [apply pool_store_size|].
    - reflexivity.
    - apply Forall_map, Forall_forall. intros p _.
      apply update_label_writes_at_most_one.
    - unfold tasks. now rewrite length_map. }
  destruct (upload_label_report_returns w labels store Hsize) as [ratio Hreport].
  now rewrite outcome_bind, Hpool, Hreport.
Qed.

Lemma upload_label_returns_witness :
  let w := sample_world describe_none (Ok JNull) true in
  let project := {| project_id := "p"; project_name := "demo" |} in
  (forall label_path res,
      outcome_of (_update_label w label_path "p" "ds" res) = Ok tt)
  /\ outcome_of (upload_label w [] project "ds" "dir" true) = Ok tt.
Proof.
  assert (H : forall label_path res,
             outcome_of (_update_label
                           (sample_world describe_none (Ok JNull) true)
                           label_path "p" "ds" res) = Ok tt)
    by (intros; reflexivity).
  split; [exact H|].
  exact (upload_label_returns (sample_world describe_none (Ok JNull) true) []
           {| project_id := "p"; project_name := "demo" |} "ds" "dir" true H).
Defined.

(** X20. When the run is not forced and the operator declines, nothing is
    uploaded or downloaded: the two upload commands do nothing at all, and
    [download] has made the count probe only. *)
Theorem declined_confirmation_does_nothing (w : World)
    (sched sched' : list nat) (project : Project)
    (dataset_name directory_path : string) (include_label : bool) :
  confirm w = false ->
  upload_data w sched sched' project dataset_name directory_path include_label false
  = ([], Ok tt)
  /\ upload_label w sched project dataset_name directory_path false = ([], Ok tt)
  /\ (forall label_count pages,
        outcome_of (_count_labels w (project_id project)) = Ok label_count ->
        label_count <> 0%Z ->
        page_length label_count = Ok pages ->
        download w sched project directory_path false
        = (trace (_count_labels w (project_id project)), Ok tt)).
Proof.
  intros Hno. split; [|split].
  - unfold upload_data. rewrite Hno. reflexivity.
  - unfold upload_label. rewrite Hno. reflexivity.
  - intros label_count pages Hcount Hnz Hpages. unfold download.
    rewrite (bind_ok _ _ label_count) by exact Hcount.
    destruct (Z.eqb_spec label_count 0) as [|_]; [contradiction|].
    rewrite Hpages, Hno. cbn. now rewrite app_nil_r.
Qed.

Lemma declined_confirmation_does_nothing_witness :
  let w := declining (sample_world describe_one (Ok JNull) true) in
  let project := {| project_id := "p"; project_name := "demo" |} in
  confirm w = false
  /\ calls (trace (download w [] project "out" false))
     = [DescribeLabel {| opt_project_id := "p"; opt_dataset := None;
                         opt_data_key := None |} 1 1].
Proof.
  split; [reflexivity|].
  rewrite (proj2 (proj2 (declined_confirmation_does_nothing
             (declining (sample_world describe_one (Ok JNull) true)) [] []
             {| project_id := "p"; project_name := "demo" |} "ds" "out" false
             eq_refl)) 1%Z 1%Z eq_refl ltac:(discriminate) eq_refl).
  reflexivity.
Defined.

(** X21. On a directory without files the upload commands report zero out
    of zero with a ratio of 100 and print no error table: [upload_label]
    prints its header and one summary line, [upload_data] the data line and,
    with labels, the label line as well. *)
Theorem uploads_of_nothing (w : World) (sched sched' : list nat)
    (project : Project) (dataset_name directory_path : string)
    (is_forced : bool) :
  negb is_forced && negb (confirm w) = false ->
  recursive_glob_image_files w directory_path = [] ->
  recursive_glob_label_files w directory_path = [] ->
  upload_label w sched project dataset_name directory_path is_forced
  = ([Print "** Result Summary **"; SummaryLine "labels" 0 0 100 0], Ok tt)
  /\ upload_data w sched sched' project dataset_name directory_path false is_forced
     = ([Print "** Result Summary **"; SummaryLine "data" 0 0 100 0], Ok tt)
  /\ upload_data w sched sched' project dataset_name directory_path true is_forced
     = ([Print "Uploading labels:"; Print "** Result Summary **";
         SummaryLine "data" 0 0 100 0; SummaryLine "labels" 0 0 100 0], Ok tt).
Proof.
  intros Hgo Himgs Hlabels. unfold upload_label, upload_data.
  rewrite Hgo, Himgs, Hlabels. repeat split; reflexivity.
Qed.

Lemma uploads_of_nothing_witness :
  let w := sample_world describe_none (Ok JNull) true in
  let project := {| project_id := "p"; project_name := "demo" |} in
  negb true && negb (confirm w) = false
  /\ recursive_glob_label_files w "dir" = []
  /\ upload_label w [] project "ds" "dir" true
     = ([Print "** Result Summary **"; SummaryLine "labels" 0 0 100 0], Ok tt).
Proof.
  split; [reflexivity|]. split; [reflexivity|].
  exact (proj1 (uploads_of_nothing (sample_world describe_none (Ok JNull) true)
                  [] [] {| project_id := "p"; project_name := "demo" |}
                  "ds" "dir" true eq_refl eq_refl eq_refl)).
Defined.

(** ** A download without faults *)

Lemma filter_nil_iff {A} (f : A -> bool) (l : list A) :
  filter f l = [] <-> forall x, In x l -> f x = false.
Proof.
  induction l as [|a l IH]; simpl; [tauto|].
  destruct (f a) eqn:E.
  - split; [discriminate|]. intros H. specialize (H a (or_introl eq_refl)). congruence.
  - rewrite IH. split.
    + intros H x [<-|Hx]; auto.
    + intros H x Hx. apply H. now right.
Qed.

Lemma replay_no_writes (tr : list event) (h : heap) :
  writes tr = [] -> replay tr h = h.
Proof.
  revert h. induction tr as [|ev tr IH]; intros h H; [reflexivity|].
  unfold writes in H. simpl in H. rewrite replay_cons.
  destruct ev; simpl in H; try discriminate H; now apply IH.
Qed.

Lemma pool_no_writes (sched : list nat) (tasks : list (Task unit)) :
  Forall (fun t => writes (trace t) = []) tasks ->
  writes (trace (pool_imap sched tasks)) = [].
Proof.
  intros H. apply filter_nil_iff. intros ev Hev.
  apply pool_trace_sub in Hev as [t [Ht Hin]].
  rewrite Forall_forall in H. specialize (H t Ht).
  unfold writes in H. rewrite filter_nil_iff in H. now apply H.
Qed.

(** X22. A download in which no page task raises or records a fault, for a
    project of [n] labels with [0 < n < 10 * 2^50]: the run returns
    normally; after the probe and the page tasks it prints the summary
    header and the two lines "n out of n, 100, 0 errors", and no error
    table. *)
Theorem download_without_faults (w : World) (sched : list nat) (project : Project)
    (directory_path : string) (is_forced : bool)
    (labels : list (option Label)) (n : Z) :
  let option := {| opt_project_id := project_id project;
                   opt_dataset := None; opt_data_key := None |} in
  let pages := (n / 10 + (if (n mod 10 =? 0)%Z then 0 else 1))%Z in
  let pool := pool_imap sched
                (download_tasks w project directory_path pages
                   (@py_repeat handle 0 pages)) in
  negb is_forced && negb (confirm w) = false ->
  run_describe_label w option 1 1 = Ok (labels, n) ->
  (0 < n < 10 * 2 ^ 50)%Z ->
  (forall page_idx res,
      let run := _download_worker w (project_id project) page_idx directory_path res in
      outcome_of run = Ok tt /\ writes (trace run) = []) ->
  download w sched project directory_path is_forced
  = (Call (DescribeLabel option 1 1)
     :: trace pool
     ++ [Print "** Result Summary **";
         SummaryLine "labels" n n 100 0;
         SummaryLine "data" n n 100 0],
     Ok tt).
Proof.
  intros option pages pool Hgo Hprobe Hn Htasks.
  assert (Hcount : _count_labels w (project_id project)
                   = ([Call (DescribeLabel option 1 1)], Ok n)).
  { unfold _count_labels, call_describe_label. fold option. now rewrite Hprobe. }
  assert (Hpages : page_length n = Ok pages)
    by (apply page_length_small; lia).
  assert (Hpos : (0 < pages)%Z).
  { unfold pages. pose proof (Z.div_mod n 10 ltac:(lia)) as Hdm.
    pose proof (Z.mod_pos_bound n 10 ltac:(lia)) as Hb.
    destruct (Z.eqb_spec (n mod 10) 0); lia. }
  assert (Hall : Forall (fun t => outcome_of t = Ok tt /\ writes (trace t) = [])
                   (download_tasks w project directory_path pages
                      (@py_repeat handle 0 pages))).
  { unfold download_tasks. apply Forall_map, Forall_forall. intros a _.
    apply Htasks. }
  assert (Hpool_ok : outcome_of pool = Ok tt).
  { apply pool_returns. eapply Forall_impl; [|exact Hall]. intros t Ht. apply Ht. }
  assert (Hpool_w : writes (trace pool) = []).
  { apply pool_no_writes. eapply Forall_impl; [|exact Hall]. intros t Ht. apply Ht. }
  unfold download. rewrite Hcount.
  rewrite (bind_ok _ _ n) by reflexivity.
  destruct (Z.eqb_spec n 0) as [|_]; [lia|]. cbn [negb].
  rewrite Hpages, Hgo. cbn [lift bind ret app manager_dict empty_heap next objs].
  unfold tqdm_list. destruct (Z.ltb_spec pages 0) as [|_]; [lia|].
  fold pool.
  rewrite (replay_no_writes _ _ Hpool_w).
  rewrite (@py_repeat_index0 handle 0 pages Hpos).
  destruct pool as [tpool opool] eqn:Epool. simpl in Hpool_ok. subst opool.
  cbn. rewrite !Z.sub_0_r, (percentage_of_all n) by lia.
  cbn. now rewrite app_nil_r.
Qed.

Lemma download_without_faults_witness :
  let w := sample_world describe_one (Ok JNull) true in
  let project := {| project_id := "p"; project_name := "demo" |} in
  negb true && negb (confirm w) = false
  /\ (0 < 1 < 10 * 2 ^ 50)%Z
  /\ filter (fun ev => match ev with SummaryLine _ _ _ _ _ => true | _ => false end)
       (trace (download w [] project "out" true))
     = [SummaryLine "labels" 1 1 100 0; SummaryLine "data" 1 1 100 0].
Proof.
  split; [reflexivity|]. split; [lia|].
  rewrite (download_without_faults (sample_world describe_one (Ok JNull) true) []
             {| project_id := "p"; project_name := "demo" |} "out" true
             [Some sample_label] 1%Z eq_refl eq_refl ltac:(lia)
             (fun _ _ => conj eq_refl eq_refl)).
  reflexivity.
Defined.


(** ** The shared result mapping of each batch *)

(** C10. In each of the three commands every task of a batch is handed the
    same shared mapping and writes its error records into that mapping
    only; when the pool has returned, whatever the order of the workers'
    steps, the mapping the command reads at index 0 holds the records the
    tasks wrote, and only these, and the summary and the error table of the
    command are made from it: reading index 0 alone loses no failure. *)
Theorem shared_results_hold_every_error (w : World)
    (sched_data sched_label : list nat) (project : Project)
    (dataset_name directory_path : string) (include_label is_forced : bool) :
  negb is_forced && negb (confirm w) = false ->
  let assets :=
    map (asset_of dataset_name) (recursive_glob_image_files w directory_path) in
  let labels := recursive_glob_label_files w directory_path in
  let asset_task d a := _upload_asset w (project_id project) a d in
  let label_task d p := _update_label w p (project_id project) dataset_name d in
  let page_task d i := _download_worker w (project_id project) i directory_path d in
  (exists d l data_store label_store,
      d <> l
      /\ batch_store (map (asset_task d) assets) d data_store
      /\ (include_label = true -> batch_store (map (label_task l) labels) l label_store)
      /\ upload_data w sched_data sched_label project dataset_name directory_path
           include_label is_forced
         = ((if negb (len assets =? 0)%Z
             then emit (Print "Uploading data:") ;;
                  pool_imap sched_data (map (asset_task d) assets)
             else ret tt) ;;
            (if include_label
             then emit (Print "Uploading labels:") ;;
                  pool_imap sched_label (map (label_task l) labels)
             else ret tt) ;;
            upload_data_report w assets labels include_label data_store label_store))
  /\ (exists d store,
         batch_store (map (label_task d) labels) d store
         /\ upload_label w sched_label project dataset_name directory_path is_forced
            = (pool_imap sched_label (map (label_task d) labels) ;;
               upload_label_report w labels store))
  /\ (forall label_count pages,
         outcome_of (_count_labels w (project_id project)) = Ok label_count ->
         label_count <> 0%Z ->
         page_length label_count = Ok pages ->
         (0 < pages)%Z ->
         exists d store,
           batch_store (map (page_task d) (py_range pages)) d store
           /\ download w sched_data project directory_path is_forced
              = (_count_labels w (project_id project) ;;
                 pool_imap sched_data (map (page_task d) (py_range pages)) ;;
                 download_report w label_count store)).
Proof.
  intros Hgo assets labels asset_task label_task page_task.
  split; [|split].
  - pose proof (upload_data_run w sched_data sched_label project dataset_name
                  directory_path include_label is_forced Hgo) as Hrun.
    cbv zeta in Hrun. fold assets labels in Hrun.
    set (data_pool := pool_imap sched_data _) in Hrun.
    set (h1 := snd (manager_dict empty_heap)) in Hrun.
    set (h := snd (manager_dict (replay (trace data_pool) h1))) in Hrun.
    assert (Hnext : next (replay (trace data_pool) h1) = 1)
      by now rewrite replay_next.
    exists 0, 1, (objs h 0), (objs (replay (trace (pool_imap sched_label
                                      (map (label_task 1) labels))) h) 1).
    split; [discriminate|]. split; [|split].
    + assert (Hstore : objs h 0 = objs (replay (trace data_pool) h1) 0)
        by (apply manager_dict_other; rewrite Hnext; discriminate).
      rewrite Hstore. apply batch_store_of_pool; [reflexivity|].
      intros t Ht. apply in_map_iff in Ht as [a [<- _]]. apply wo_upload_asset.
    + intros _. apply batch_store_of_pool.
      * pose proof (manager_dict_new (replay (trace data_pool) h1)) as Hnew.
        rewrite Hnext in Hnew. exact Hnew.
      * intros t Ht. apply in_map_iff in Ht as [p [<- _]]. apply wo_update_label.
    + exact Hrun.
  - exists 0, (objs (replay (trace (pool_imap sched_label
                                        (map (label_task 0) labels)))
                         (snd (manager_dict empty_heap))) 0).
    split.
    + apply batch_store_of_pool; [reflexivity|].
      intros t Ht. apply in_map_iff in Ht as [p [<- _]]. apply wo_update_label.
    + exact (upload_label_run w sched_label project dataset_name directory_path
               is_forced Hgo).
  - intros label_count pages Hcount Hnz Hpages Hpos.
    exists 0, (objs (replay (trace (pool_imap sched_data
                                      (map (page_task 0) (py_range pages))))
                       (snd (manager_dict empty_heap))) 0).
    split.
    + apply batch_store_of_pool; [reflexivity|].
      intros t Ht. apply in_map_iff in Ht as [i [<- _]]. apply wo_download_worker.
    + exact (download_run w sched_data project directory_path is_forced
               label_count pages Hgo Hcount Hnz Hpages Hpos).
Qed.

Lemma shared_results_hold_every_error_witness :
  let w := faulty_upload_world in
  let project := {| project_id := "p"; project_name := "demo" |} in
  let labels := ["a.json"; "b.json"] in
  negb true && negb (confirm w) = false
  /\ exists d store,
       batch_store (map (fun p => _update_label w p "p" "ds" d) labels) d store
       /\ upload_label w [1; 0; 1; 0] project "ds" "dir" true
          = (pool_imap [1; 0; 1; 0] (map (fun p => _update_label w p "p" "ds" d) labels) ;;
             upload_label_report w labels store).
Proof.
  split; [reflexivity|].
  exact (proj1 (proj2 (shared_results_hold_every_error faulty_upload_world
                         [2; 0; 1; 1] [1; 0; 1; 0]
                         {| project_id := "p"; project_name := "demo" |}
                         "ds" "dir" true true eq_refl))).
Defined.

(** The three images and two label files of [faulty_upload_world]: the
    refused image and the two labels that cannot be described are all read
    back from index 0 of their batch, in the order the workers stored
    them. *)
Example upload_data_reports_every_failure :
  filter (fun ev => match ev with
                    | SummaryLine _ _ _ _ _ | PrintTable _ _ => true
                    | _ => false
                    end)
    (trace (upload_data faulty_upload_world [2; 0; 1; 1] [1; 0; 1; 0]
              {| project_id := "p"; project_name := "demo" |} "ds" "dir" true true))
  = [SummaryLine "data" 2 3 (6667 # 100) 1;
     SummaryLine "labels" 0 2 0 2;
     PrintTable ["FILE NAME"; "DATA UPLOAD"; "LABEL UPLOAD"]
       [["b.png"; "quota exceeded"; "-"];
        ["b"; "-"; "Label cannot be described."];
        ["a"; "-"; "Label cannot be described."]]].
Proof. vm_compute. reflexivity. Qed.

(** A page of four labels, two of them with a fault, downloaded by one
    task: both records are read back and split by sub-kind. *)
Example download_reports_every_failure :
  filter (fun ev => match ev with
                    | SummaryLine _ _ _ _ _ | PrintTable _ _ => true
                    | _ => false
                    end)
    (trace (download (faulty_page_world "") [0; 0; 0]
              {| project_id := "p"; project_name := "demo" |} "out" true))
  = [SummaryLine "labels" 3 4 75 1;
     SummaryLine "data" 3 4 75 1;
     PrintTable ["FILE NAME"; "DATA UPLOAD"; "LABEL UPLOAD"]
       [["ds/c"; "timed out"; "-"];
        ["ds/b"; "-"; "No space left on device"]]].
Proof. vm_compute. reflexivity. Qed.
